(** * Structured source-editing engine: edit normalisation, anchor matching,
      local application and batch routing.

    Shallow embedding of
      - [services/tools/utils.py]              (anchor matcher, local edit applier,
                                                locator normaliser, flag coercion)
      - [services/tools/script_apply_edits.py] (edit normaliser, validation,
                                                operation router and dispatch)
      - [core/logging_setup.py]                (the loggers of the stdio mode)

    Python values are modelled by a small dynamically typed universe
    ([value]); dictionaries are finite maps with string keys; exceptions are
    an explicit error monad ([res]); the calls to the remote editor are
    recorded in a trace.  Text is a [string] whose characters stand for the
    code points below 256.  Floating point numbers are not part of the model.
    Everything the program obtains from the Python runtime and its standard
    library beyond plain string handling (the [re] engine, [hashlib],
    [json], [base64], [difflib], [int] on strings, [repr]) is collected in
    the class [Runtime] and left abstract in the general statements. *)

From Stdlib Require Import ZArith String Ascii List Bool Lia DecimalString.
From stdpp Require Import base gmap strings list fin_maps.

Set Warnings "-register-all".

(* ===================================================================== *)
(** ** Python string methods used by the program *)
(* ===================================================================== *)

Module PyStr.

Definition ord (c : ascii) : nat := nat_of_ascii c.

Definition between (lo hi n : nat) : bool := Nat.leb lo n && Nat.leb n hi.

(** [str.isspace] and the class [\s] coincide on the code points below 256. *)
Definition isspace (c : ascii) : bool :=
  let n := ord c in
  between 9 13 n || between 28 32 n || Nat.eqb n 133 || Nat.eqb n 160.

(** The class [\w] of a [str] pattern on the code points below 256. *)
Definition isword (c : ascii) : bool :=
  let n := ord c in
  between 48 57 n || between 65 90 n || Nat.eqb n 95 || between 97 122 n
  || Nat.eqb n 170 || between 178 179 n || Nat.eqb n 181
  || between 185 186 n || between 188 190 n
  || between 192 214 n || between 216 246 n || between 248 255 n.

(** The class [\d]. *)
Definition isdigit (c : ascii) : bool := between 48 57 (ord c).

(** Line boundaries recognised by [str.splitlines]. *)
Definition islinebreak (c : ascii) : bool :=
  let n := ord c in between 10 13 n || between 28 30 n || Nat.eqb n 133.

Definition lower_char (c : ascii) : ascii :=
  let n := ord c in
  if between 65 90 n || (between 192 222 n && negb (Nat.eqb n 215))
  then ascii_of_nat (n + 32) else c.

Fixpoint lower (s : string) : string :=
  match s with
  | EmptyString => EmptyString
  | String c r => String (lower_char c) (lower r)
  end.

Fixpoint lstrip (s : string) : string :=
  match s with
  | EmptyString => EmptyString
  | String c r => if isspace c then lstrip r else s
  end.

Fixpoint rstrip_by (p : ascii → bool) (s : string) : string :=
  match s with
  | EmptyString => EmptyString
  | String c r =>
      match rstrip_by p r with
      | EmptyString => if p c then EmptyString else String c EmptyString
      | r' => String c r'
      end
  end.

Definition rstrip (s : string) : string := rstrip_by isspace s.

Definition strip (s : string) : string := lstrip (rstrip s).

Definition len (s : string) : nat := String.length s.

Definition is_empty (s : string) : bool :=
  match s with EmptyString => true | _ => false end.

Fixpoint take (n : nat) (s : string) : string :=
  match n, s with
  | S n', String c r => String c (take n' r)
  | _, _ => EmptyString
  end.

Fixpoint drop (n : nat) (s : string) : string :=
  match n, s with
  | S n', String _ r => drop n' r
  | _, _ => s
  end.

(** [s[:k]] and [s[k:]] for an arbitrary integer [k]: a negative index counts
    from the end, and indices are clipped to the string. *)
Definition slice_to (s : string) (k : Z) : string :=
  if (k <? 0)%Z then take (Z.to_nat (Z.of_nat (len s) + k)) s
  else take (Z.to_nat k) s.

Definition slice_from (s : string) (k : Z) : string :=
  if (k <? 0)%Z then drop (Z.to_nat (Z.of_nat (len s) + k)) s
  else drop (Z.to_nat k) s.

Definition startswith (s p : string) : bool := String.prefix p s.

Definition endswith (s p : string) : bool :=
  Nat.leb (len p) (len s) && String.eqb (drop (len s - len p) s) p.

Fixpoint contains_char (c : ascii) (s : string) : bool :=
  match s with
  | EmptyString => false
  | String c' r => Ascii.eqb c c' || contains_char c r
  end.

(** [s.count(c, 0, idx)] for a one-character needle. *)
Fixpoint count_char (c : ascii) (idx : nat) (s : string) : nat :=
  match idx, s with
  | S i, String c' r => (if Ascii.eqb c c' then 1 else 0) + count_char c i r
  | _, _ => 0
  end.

(** [s.rfind(c, 0, idx)] for a one-character needle; [-1] when absent. *)
Fixpoint rfind_char (c : ascii) (idx : nat) (s : string) : Z :=
  match idx, s with
  | S i, String c' r =>
      let k := rfind_char c i r in
      if (0 <=? k)%Z then (k + 1)%Z
      else if Ascii.eqb c c' then 0%Z else (-1)%Z
  | _, _ => (-1)%Z
  end.

Definition LF : ascii := ascii_of_nat 10.
Definition CR : ascii := ascii_of_nat 13.
Definition NL : string := String LF EmptyString.

(** [str.splitlines(keepends)]: [cur] is the line read so far. *)
Fixpoint splitlines_from (keepends : bool) (cur : string) (s : string) : list string :=
  match s with
  | EmptyString => if is_empty cur then [] else [cur]
  | String c r =>
      if Ascii.eqb c CR then
        match r with
        | String c' r' =>
            if Ascii.eqb c' LF
            then (if keepends then cur +:+ String c (String c' EmptyString) else cur)
                 :: splitlines_from keepends EmptyString r'
            else (if keepends then cur +:+ String c EmptyString else cur)
                 :: splitlines_from keepends EmptyString r
        | EmptyString => [if keepends then cur +:+ String c EmptyString else cur]
        end
      else if islinebreak c then
        (if keepends then cur +:+ String c EmptyString else cur)
        :: splitlines_from keepends EmptyString r
      else splitlines_from keepends (cur +:+ String c EmptyString) r
  end.

Definition splitlines (keepends : bool) (s : string) : list string :=
  splitlines_from keepends EmptyString s.

(** [s.split(sep)] for a one-character separator. *)
Fixpoint split_from (sep : ascii) (cur : string) (s : string) : list string :=
  match s with
  | EmptyString => [cur]
  | String c r =>
      if Ascii.eqb c sep then cur :: split_from sep EmptyString r
      else split_from sep (cur +:+ String c EmptyString) r
  end.

Definition split (sep : ascii) (s : string) : list string :=
  split_from sep EmptyString s.

Fixpoint join (sep : string) (l : list string) : string :=
  match l with
  | [] => EmptyString
  | [x] => x
  | x :: r => x +:+ sep +:+ join sep r
  end.

End PyStr.

(* ===================================================================== *)
(** ** Values, exceptions and the runtime *)
(* ===================================================================== *)

(** JSON-like Python values ([Any] in the signatures of the program). *)
Inductive value :=
| VNone
| VBool (b : bool)
| VInt (n : Z)
| VStr (s : string)
| VList (l : list value)
| VDict (d : gmap string value).

Abbreviation dict := (gmap string value).

Inductive exn :=
| RuntimeError (msg : string)
| AttributeError
| TypeError
| ValueError
| IndexError
| RegexError (msg : string)
| DecodeError.

(** A computation that returns or raises. *)
Inductive res (A : Type) :=
| Ok (a : A)
| Raise (e : exn).
Arguments Ok {A} a.
Arguments Raise {A} e.

#[global] Instance res_ret : MRet res := @Ok.
#[global] Instance res_bind : MBind res :=
  λ A B f m, match m with Ok a => f a | Raise e => Raise e end.
#[global] Instance res_fmap : FMap res :=
  λ A B f m, match m with Ok a => Ok (f a) | Raise e => Raise e end.

(** Truth value of a Python object ([bool(v)], [if v], [not v]). *)
Definition truthy (v : value) : bool :=
  match v with
  | VNone => false
  | VBool b => b
  | VInt n => negb (n =? 0)%Z
  | VStr s => negb (PyStr.is_empty s)
  | VList l => match l with [] => false | _ => true end
  | VDict d => match map_to_list d with [] => false | _ => true end
  end.

(** [a or b]. *)
Definition por (a b : value) : value := if truthy a then a else b.
Infix "`or`" := por (at level 50, left associativity).

(** [d.get(k)] and [d.get(k, dflt)]. *)
Definition get (d : dict) (k : string) : value := default VNone (d !! k).
Definition get_or (d : dict) (k : string) (dflt : value) : value := default dflt (d !! k).

(** [k in d]. *)
Definition has (d : dict) (k : string) : bool :=
  match d !! k with Some _ => true | None => false end.

(** A [str] method called on [v], and [str + v]. *)
Definition str_attr (v : value) : res string :=
  match v with VStr s => Ok s | _ => Raise AttributeError end.
Definition str_operand (v : value) : res string :=
  match v with VStr s => Ok s | _ => Raise TypeError end.

Definition str_eqb (v : value) (s : string) : bool :=
  match v with VStr s' => String.eqb s' s | _ => false end.

Definition is_dict (v : value) : bool :=
  match v with VDict _ => true | _ => false end.

Record re_flags := { MULTILINE : bool; IGNORECASE : bool }.

(** What the program reads off a [re.Match]: [start()], [end()] and
    [group(i)], group 0 (the matched text) first. *)
Record re_match := { m_start : nat; m_end : nat; m_groups : list (option string) }.

Class Runtime := {
  (** [Some msg] when [re.compile(pattern, flags)] raises [re.error]. *)
  re_error : string → re_flags → option string;
  (** [list(re.finditer(pattern, text, flags))] for a pattern that compiles. *)
  re_matches : string → re_flags → string → list re_match;
  (** [re.sub(pattern, repl, text, count, flags)] for a pattern that compiles. *)
  re_subst : string → string → string → Z → re_flags → res string;
  (** [hashlib.sha256(text.encode("utf-8")).hexdigest()]. *)
  sha256_hexdigest : string → string;
  (** [int(s)] on a string. *)
  int_of_str : string → res Z;
  (** [json.loads]. *)
  json_loads : string → res value;
  (** [base64.b64decode(v).decode("utf-8")]. *)
  b64decode_utf8 : value → res string;
  (** [list(difflib.unified_diff(a, b, fromfile="before", tofile="after", n=n))]. *)
  unified_diff : list string → list string → nat → list string;
  (** [str(v)] on lists and dictionaries, [str(type(v))], and [str(ex)] on
      the exceptions raised by the runtime itself. *)
  repr_container : value → string;
  type_name : value → string;
  builtin_message : exn → string
}.

Section WithRuntime.
Context {rt : Runtime}.

(** [re.finditer(pattern, text, flags)], forced to a list. *)
Definition re_finditer (pattern : string) (text : string) (flags : re_flags) : res (list re_match) :=
  match re_error pattern flags with
  | Some msg => Raise (RegexError msg)
  | None => Ok (re_matches pattern flags text)
  end.

(** [re.sub(pattern, repl, text, count=count, flags=flags)]. *)
Definition re_sub (pattern repl text : string) (count : Z) (flags : re_flags) : res string :=
  match re_error pattern flags with
  | Some msg => Raise (RegexError msg)
  | None => re_subst pattern repl text count flags
  end.

(** [int(v)]. *)
Definition py_int (v : value) : res Z :=
  match v with
  | VInt n => Ok n
  | VBool b => Ok (if b then 1 else 0)%Z
  | VStr s => int_of_str s
  | _ => Raise TypeError
  end.

(** [str(v)], as used by the f-strings of the program. *)
Definition py_str (v : value) : string :=
  match v with
  | VStr s => s
  | VNone => "None"
  | VBool true => "True"
  | VBool false => "False"
  | VInt n => NilZero.string_of_int (Z.to_int n)
  | _ => repr_container v
  end.

(** [str(ex)]. *)
Definition exn_str (e : exn) : string :=
  match e with
  | RuntimeError msg => msg
  | RegexError msg => msg
  | _ => builtin_message e
  end.

(** The expression
    [(e.get("op") or e.get("operation") or e.get("type") or e.get("mode") or "").strip().lower()]. *)
Definition op_of (e : dict) : res string :=
  s ← str_attr (get e "op" `or` get e "operation" `or` get e "type" `or` get e "mode" `or` VStr "");
  Ok (PyStr.lower (PyStr.strip s)).

(* ===================================================================== *)
(** ** utils.py *)
(* ===================================================================== *)

Fixpoint skip_while (p : ascii → bool) (s : string) : string :=
  match s with
  | EmptyString => EmptyString
  | String c r => if p c then skip_while p r else s
  end.

(** The rest of [_METHOD_SIGNATURE_PATTERN] after its keyword:
    [\s+\w+\s*\(].  The three classes and the parenthesis are pairwise
    disjoint, so the greedy reading is the only one that can succeed. *)
Definition signature_tail (s : string) : bool :=
  let s1 := skip_while PyStr.isspace s in
  if Nat.eqb (PyStr.len s1) (PyStr.len s) then false else
  let s2 := skip_while PyStr.isword s1 in
  if Nat.eqb (PyStr.len s2) (PyStr.len s1) then false else
  PyStr.startswith (skip_while PyStr.isspace s2) "(".

Definition signature_keywords : list string := ["void"; "public"; "private"; "protected"].

Definition signature_here (s : string) : bool :=
  existsb (λ k, PyStr.startswith s k && signature_tail (PyStr.drop (PyStr.len k) s))
          signature_keywords.

(** [prev_word] tells whether the character before [s] is a word character;
    a keyword starts with one, so [\b] holds exactly when it is not. *)
Fixpoint signature_search_from (prev_word : bool) (s : string) : bool :=
  match s with
  | EmptyString => false
  | String c r =>
      (negb prev_word && signature_here s) || signature_search_from (PyStr.isword c) r
  end.

(** [_METHOD_SIGNATURE_PATTERN.search(line)] is not [None], for
    [_METHOD_SIGNATURE_PATTERN = re.compile(r'\b(void|public|private|protected)\s+\w+\s*\(')]. *)
Definition _METHOD_SIGNATURE_PATTERN_search (line : string) : bool :=
  signature_search_from false line.

Definition flush_backref (f : string → res string) (pending : option string) : res string :=
  match pending with
  | None => Ok EmptyString
  | Some EmptyString => Ok "$"
  | Some ds => f ds
  end.

(** [pending] holds the digits read after a dollar sign that has not been
    emitted yet. *)
Fixpoint dollar_sub_from (f : string → res string) (pending : option string) (s : string) : res string :=
  match s with
  | EmptyString => flush_backref f pending
  | String c r =>
      match pending with
      | Some ds =>
          if PyStr.isdigit c then dollar_sub_from f (Some (ds +:+ String c EmptyString)) r
          else
            pre ← flush_backref f pending;
            post ← (if Ascii.eqb c "$" then dollar_sub_from f (Some EmptyString) r
                    else String c <$> dollar_sub_from f None r);
            Ok (pre +:+ post)
      | None =>
          if Ascii.eqb c "$" then dollar_sub_from f (Some EmptyString) r
          else String c <$> dollar_sub_from f None r
      end
  end.

(** [_DOLLAR_BACKREF_PATTERN.sub(f, s)] for [_DOLLAR_BACKREF_PATTERN = re.compile(r"\$(\d+)")];
    [f] receives group 1 of each match. *)
Definition _DOLLAR_BACKREF_PATTERN_sub (f : string → res string) (s : string) : res string :=
  dollar_sub_from f None s.

Definition parse_json_payload (payload : value) : value :=
  match payload with
  | VStr s =>
      let stripped := PyStr.strip s in
      if negb (PyStr.startswith stripped "{" || PyStr.startswith stripped "[") then payload
      else match json_loads s with
           | Ok v => v
           | Raise _ => payload
           end
  | _ => payload
  end.

Definition strip_prefix (s : string) : string :=
  if PyStr.startswith s "unity://path/" then PyStr.drop (PyStr.len "unity://path/") s
  else if PyStr.startswith s "file://" then PyStr.drop (PyStr.len "file://") s
  else s.

Definition collapse_duplicate_tail (s : string) : string :=
  let parts := PyStr.split "/" s in
  let parts :=
    if Nat.leb 2 (length parts)
       && String.eqb (List.last parts EmptyString) (List.last (removelast parts) EmptyString)
    then removelast parts else parts in
  PyStr.join "/" parts.

Definition normalize_script_locator (name path : string) : string * string :=
  let n := PyStr.strip name in
  let p := PyStr.strip path in
  let wanted v2 := PyStr.endswith v2 ".cs" || PyStr.startswith v2 "Assets/" in
  let candidate :=
    if wanted (strip_prefix n) then strip_prefix n
    else if wanted (strip_prefix p) then strip_prefix p
    else EmptyString in
  let fallback :=
    (if PyStr.endswith (PyStr.lower n) ".cs" then PyStr.slice_to n (-3) else n,
     if PyStr.is_empty p then "Assets" else p) in
  if PyStr.is_empty candidate then fallback else
  let candidate := collapse_duplicate_tail candidate in
  let candidate :=
    if negb (PyStr.endswith candidate ".cs") && PyStr.endswith n ".cs"
    then PyStr.rstrip_by (Ascii.eqb "/") candidate +:+ "/"
         +:+ List.last (PyStr.split "/" (strip_prefix n)) EmptyString
    else candidate in
  if PyStr.endswith candidate ".cs" then
    let parts := PyStr.split "/" candidate in
    let file_name := List.last parts EmptyString in
    let dir_path := if Nat.ltb 1 (length parts) then PyStr.join "/" (removelast parts) else "Assets" in
    (if PyStr.endswith (PyStr.lower file_name) ".cs" then PyStr.slice_to file_name (-3) else file_name,
     dir_path)
  else fallback.

(** The scoring pass of [_find_best_closing_brace_match]. *)

(** [line_starts]: [0] and the index after every ["\n"]; [i] is the index of
    the first character of [s]. *)
Fixpoint line_starts_from (i : nat) (s : string) : list nat :=
  match s with
  | EmptyString => []
  | String c r =>
      if Ascii.eqb c PyStr.LF then (i + 1)%nat :: line_starts_from (i + 1) r
      else line_starts_from (i + 1) r
  end.

Definition line_starts (text : string) : list nat := 0%nat :: line_starts_from 0 text.

(** [bisect.bisect_right(a, x)] on a sorted list: the number of entries that
    are at most [x]. *)
Fixpoint bisect_right (a : list nat) (x : nat) : nat :=
  match a with
  | [] => 0
  | y :: r => if Nat.leb y x then S (bisect_right r x) else 0
  end.

(** [lines[lo:hi]] for non-negative bounds. *)
Definition slice {A} (l : list A) (lo hi : Z) : list A :=
  List.firstn (Z.to_nat hi - Z.to_nat lo) (List.skipn (Z.to_nat lo) l).

(** [len(line_content) - len(line_content.lstrip())]. *)
Definition indentation_of (line_content : string) : Z :=
  Z.of_nat (PyStr.len line_content) - Z.of_nat (PyStr.len (PyStr.lstrip line_content)).

(** The number of [score -= 5] steps over the context lines. *)
Definition count_signatures (context_lines : list string) : Z :=
  Z.of_nat (length (List.filter _METHOD_SIGNATURE_PATTERN_search context_lines)).

(** The body of the loop over the matches: the score of one match. *)
Definition match_score (lines : list string) (starts : list nat) (m : re_match) : Z :=
  let score := 0%Z in
  let start_pos := m_start m in
  let line_num := (Z.of_nat (bisect_right starts start_pos) - 1)%Z in
  if (line_num <? Z.of_nat (length lines))%Z then
    let line_content := List.nth (Z.to_nat line_num) lines EmptyString in
    let indentation := indentation_of line_content in
    let score := (score + Z.max 0 (20 - indentation))%Z in
    let distance_from_end := (Z.of_nat (length lines) - line_num)%Z in
    let score := (score + Z.max 0 (10 - distance_from_end))%Z in
    let context_start := Z.max 0 (line_num - 3) in
    let context_end := Z.min (Z.of_nat (length lines)) (line_num + 2) in
    let context_lines := slice lines context_start context_end in
    let score := (score - 5 * count_signatures context_lines)%Z in
    let score :=
      if (indentation <=? 4)%Z && (distance_from_end <=? 3)%Z then (score + 15)%Z else score in
    score
  else score.

(** [scored_matches.sort(key=lambda x: x[0], reverse=True)]: the sort is
    stable, also when reversed; [insert_scored] puts an entry that came
    earlier in front of the entries of equal score. *)
Fixpoint insert_scored (x : Z * re_match) (l : list (Z * re_match)) : list (Z * re_match) :=
  match l with
  | [] => [x]
  | y :: r => if (x.1 <? y.1)%Z then y :: insert_scored x r else x :: l
  end.

Definition sort_scored (l : list (Z * re_match)) : list (Z * re_match) :=
  List.fold_right insert_scored [] l.

Definition _find_best_closing_brace_match (matches : list re_match) (text : string) : option re_match :=
  match matches with
  | [] => None
  | _ =>
      let lines := PyStr.splitlines false text in
      let starts := line_starts text in
      let scored_matches := List.map (λ m, (match_score lines starts m, m)) matches in
      snd <$> List.head (sort_scored scored_matches)
  end.

Definition find_best_anchor_match (pattern : string) (text : string) (flags : re_flags)
    (prefer_last : bool) : res (option re_match) :=
  matches ← re_finditer pattern text flags;
  match matches with
  | [] => Ok None
  | [m] => Ok (Some m)
  | _ =>
      let is_closing_brace_pattern :=
        PyStr.contains_char "}" pattern
        && (PyStr.contains_char "$" pattern || PyStr.endswith pattern "\s*") in
      if is_closing_brace_pattern && prefer_last
      then Ok (_find_best_closing_brace_match matches text)
      else Ok (if prefer_last then List.last (Some <$> matches) None else List.head matches)
  end.

Definition allowed_ops : string :=
  "anchor_insert, prepend, append, replace_range, regex_replace".

Definition flags_of (edit : dict) : re_flags :=
  {| MULTILINE := true; IGNORECASE := truthy (get edit "ignore_case") |}.

(** [index_of(line, col)] of the [replace_range] branch. *)
Definition index_of (lines_ref : list string) (line col : Z) : Z :=
  let total l := List.fold_right (λ ln acc, Z.of_nat (PyStr.len ln) + acc)%Z 0%Z l in
  if (line <=? Z.of_nat (length lines_ref))%Z
  then (total (if (line - 1 <? 0)%Z
               then List.firstn (Z.to_nat (Z.of_nat (length lines_ref) + (line - 1))) lines_ref
               else List.firstn (Z.to_nat (line - 1)) lines_ref)
        + (col - 1))%Z
  else total lines_ref.

(** One iteration of the loop of [apply_edits_locally]: the new buffer. *)
Definition apply_edit (text : string) (edit : dict) : res string :=
  op ← op_of edit;
  if PyStr.is_empty op then
    Raise (RuntimeError ("op is required; allowed: " +:+ allowed_ops
      +:+ ". Use 'op' (aliases accepted: type/mode/operation)."))
  else if String.eqb op "prepend" then
    prepend_text ← str_attr (get_or edit "text" (VStr ""));
    Ok ((if PyStr.endswith prepend_text PyStr.NL then prepend_text
         else prepend_text +:+ PyStr.NL) +:+ text)
  else if String.eqb op "append" then
    let append_text := get_or edit "text" (VStr "") in
    let text := if negb (PyStr.endswith text PyStr.NL) then text +:+ PyStr.NL else text in
    append_text ← str_operand append_text;
    let text := text +:+ append_text in
    Ok (if negb (PyStr.endswith text PyStr.NL) then text +:+ PyStr.NL else text)
  else if String.eqb op "anchor_insert" then
    let anchor := get_or edit "anchor" (VStr "") in
    position ← PyStr.lower <$> str_attr (get edit "position" `or` VStr "before");
    let insert_text := get_or edit "text" (VStr "") in
    let flags := flags_of edit in
    anchor ← str_operand anchor;
    match_ ← find_best_anchor_match anchor text flags
               (truthy (get_or edit "prefer_last" (VBool true)));
    match match_ with
    | None =>
        if truthy (get_or edit "allow_noop" (VBool true)) then Ok text
        else Raise (RuntimeError ("anchor not found: " +:+ anchor))
    | Some m =>
        let idx := Z.of_nat (if String.eqb position "before" then m_start m else m_end m) in
        insert_text ← str_operand insert_text;
        Ok (PyStr.slice_to text idx +:+ insert_text +:+ PyStr.slice_from text idx)
    end
  else if String.eqb op "replace_range" then
    start_line ← py_int (get_or edit "startLine" (VInt 1));
    start_col ← py_int (get_or edit "startCol" (VInt 1));
    end_line ← py_int (get_or edit "endLine" (VInt start_line));
    end_col ← py_int (get_or edit "endCol" (VInt 1));
    let replacement := get_or edit "text" (VStr "") in
    let lines := PyStr.splitlines true text in
    let max_line := (Z.of_nat (length lines) + 1)%Z in
    if (start_line <? 1)%Z || (end_line <? start_line)%Z || (max_line <? end_line)%Z
       || (start_col <? 1)%Z || (end_col <? 1)%Z
    then Raise (RuntimeError "replace_range out of bounds")
    else
      let a := index_of lines start_line start_col in
      let b := index_of lines end_line end_col in
      replacement ← str_operand replacement;
      Ok (PyStr.slice_to text a +:+ replacement +:+ PyStr.slice_from text b)
  else if String.eqb op "regex_replace" then
    let pattern := get_or edit "pattern" (VStr "") in
    repl ← str_operand (get_or edit "replacement" (VStr ""));
    repl_py ← _DOLLAR_BACKREF_PATTERN_sub (λ ds, Ok ("\g<" +:+ ds +:+ ">")) repl;
    count ← py_int (get_or edit "count" (VInt 0));
    let flags := flags_of edit in
    pattern ← str_operand pattern;
    re_sub pattern repl_py text count flags
  else
    Raise (RuntimeError ("unknown edit op: " +:+ op +:+ "; allowed: " +:+ allowed_ops
      +:+ ". Use 'op' (aliases accepted: type/mode/operation).")).

(** The loop runs over the edits in order on the progressively updated
    buffer; an exception leaves the loop at once. *)
Fixpoint apply_edits_locally (original_text : string) (edits : list dict) : res string :=
  match edits with
  | [] => Ok original_text
  | edit :: rest =>
      text ← apply_edit original_text edit;
      apply_edits_locally text rest
  end.

(* ===================================================================== *)
(** ** script_apply_edits.py: results and the edit normaliser *)
(* ===================================================================== *)

(** A dictionary display [{k1: v1, ...}] with distinct keys. *)
Definition mk (l : list (string * value)) : dict := list_to_map l.

Definition echo (edits : list dict) : value := VList (VDict <$> edits).

Definition _infer_class_name (script_name : string) : string := PyStr.strip script_name.

Definition _with_norm (resp : value) (edits : list dict) (routing : option string) : res value :=
  match resp with
  | VDict r =>
      data ← match r !! "data" with
             | None => Ok ∅
             | Some (VDict d) => Ok d
             | Some _ => Raise AttributeError
             end;
      let data := if has data "normalizedEdits" then data
                  else <["normalizedEdits" := echo edits]> data in
      let data := match routing with
                  | Some r => if PyStr.is_empty r then data else <["routing" := VStr r]> data
                  | None => data
                  end in
      Ok (VDict (<["data" := VDict data]> r))
  | _ => Ok resp
  end.

Definition _err (code message : string) (expected rewrite : option dict)
    (normalized : option (list dict)) (routing : option string) (extra : option dict) : value :=
  let payload : dict :=
    mk [("success", VBool false); ("code", VStr code); ("message", VStr message)] in
  let data : dict := ∅ in
  let data := match expected with
              | Some x => if truthy (VDict x) then <["expected" := VDict x]> data else data
              | None => data
              end in
  let data := match rewrite with
              | Some x => if truthy (VDict x) then <["rewrite_suggestion" := VDict x]> data else data
              | None => data
              end in
  let data := match normalized with
              | Some x => <["normalizedEdits" := echo x]> data
              | None => data
              end in
  let data := match routing with
              | Some r => if PyStr.is_empty r then data else <["routing" := VStr r]> data
              | None => data
              end in
  let data := match extra with
              | Some x => if truthy (VDict x) then x ∪ data else data
              | None => data
              end in
  VDict (if truthy (VDict data) then <["data" := VDict data]> payload else payload).

Definition wrapper_keys : list string :=
  ["replace_method"; "insert_method"; "delete_method"; "replace_class"; "delete_class";
   "anchor_insert"; "anchor_replace"; "anchor_delete"].

(** The first loop of [_unwrap_and_alias]: the dictionary that [edit] names
    after it. *)
Fixpoint unwrap (keys : list string) (edit : dict) : dict :=
  match keys with
  | [] => edit
  | wrapper_key :: rest =>
      match edit !! wrapper_key with
      | Some (VDict inner) => <["op" := VStr wrapper_key]> inner
      | _ => unwrap rest edit
      end
  end.

(** [if src in e and dst not in e: e[dst] = e.pop(src)]. *)
Definition alias_field (src dst : string) (e : dict) : dict :=
  if has e src && negb (has e dst) then <[dst := get e src]> (delete src e) else e.

(** The block of unconditional field aliases, in the order of the source. *)
Definition common_aliases : list (string * string) :=
  [("class_name", "className"); ("class", "className");
   ("method_name", "methodName"); ("target", "methodName"); ("method", "methodName");
   ("new_content", "replacement"); ("newMethod", "replacement");
   ("new_method", "replacement"); ("content", "replacement");
   ("after", "afterMethodName"); ("after_method", "afterMethodName");
   ("before", "beforeMethodName"); ("before_method", "beforeMethodName")].

Definition apply_aliases (l : list (string * string)) (e : dict) : dict :=
  List.fold_left (λ e a, alias_field a.1 a.2 e) l e.

(** [anchor_method → before/after based on position (default after)]. *)
Definition alias_anchor_method (e : dict) : res dict :=
  match e !! "anchor_method" with
  | Some anchor =>
      let e := delete "anchor_method" e in
      pos ← str_attr (get e "position" `or` VStr "after");
      let pos := PyStr.lower (PyStr.strip pos) in
      if String.eqb pos "before" && negb (has e "beforeMethodName")
      then Ok (<["beforeMethodName" := anchor]> e)
      else if negb (has e "afterMethodName") then Ok (<["afterMethodName" := anchor]> e)
      else Ok e
  | None => Ok e
  end.

Definition alias_pattern (e : dict) : res dict :=
  if has e "pattern" && negb (has e "anchor") && truthy (get e "op") then
    op ← str_attr (get e "op");
    if PyStr.startswith op "anchor_" then Ok (<["anchor" := get e "pattern"]> (delete "pattern" e))
    else Ok e
  else Ok e.

(** [CI compatibility: Accept method-anchored anchor_insert and upgrade to insert_method]. *)
Definition upgrade_anchor_insert (e : dict) : dict :=
  if str_eqb (get e "op") "anchor_insert"
     && negb (truthy (get e "anchor"))
     && truthy (get e "afterMethodName" `or` get e "beforeMethodName")
  then
    let e := <["op" := VStr "insert_method"]> e in
    if negb (has e "replacement") then <["replacement" := get_or e "text" (VStr "")]> e else e
  else e.

Definition dict_attr (v : value) : res dict :=
  match v with VDict d => Ok d | _ => Raise AttributeError end.

(** [LSP-like range edit -> replace_range]; [edit] is the dictionary the
    aliasing started from. *)
Definition lsp_range (edit e : dict) : res dict :=
  match e !! "range" with
  | Some (VDict rng) =>
      let e := delete "range" e in
      let start := get_or rng "start" (VDict ∅) in
      let end_ := get_or rng "end" (VDict ∅) in
      let e := <["op" := VStr "replace_range"]> e in
      start ← dict_attr start;
      sl ← py_int (get_or start "line" (VInt 0));
      let e := <["startLine" := VInt (sl + 1)]> e in
      sc ← py_int (get_or start "character" (VInt 0));
      let e := <["startCol" := VInt (sc + 1)]> e in
      end_ ← dict_attr end_;
      el ← py_int (get_or end_ "line" (VInt 0));
      let e := <["endLine" := VInt (el + 1)]> e in
      ec ← py_int (get_or end_ "character" (VInt 0));
      let e := <["endCol" := VInt (ec + 1)]> e in
      if has edit "newText" && negb (has e "text")
      then Ok (<["text" := get_or edit "newText" (VStr "")]> e)
      else Ok e
  | _ => Ok e
  end.

(** The body of [_unwrap_and_alias] after the unwrapping loop (lines 84 to
    154); [edit] is the dictionary that the loop has left. *)
Definition alias_fields (edit : dict) : res dict :=
  let e := edit in
  op ← op_of e;
  let e := if negb (PyStr.is_empty op) then <["op" := VStr op]> e else e in
  let e := apply_aliases common_aliases e in
  e ← alias_anchor_method e;
  let e := alias_field "anchorText" "anchor" e in
  e ← alias_pattern e;
  let e := alias_field "newText" "text" e in
  let e := upgrade_anchor_insert e in
  lsp_range edit e.

Definition _unwrap_and_alias (edit : dict) : res dict :=
  let edit := unwrap wrapper_keys edit in
  alias_fields edit.

Definition in_list (s : string) (l : list string) : bool := existsb (String.eqb s) l.

(** One iteration of the loop of [_normalize_edits]: the entry appended to
    [normalized_edits].  The annotation [list[dict[str, Any]]] is taken at
    its word: an entry that is not a dictionary is outside the model and
    reported as [TypeError]. *)
Definition normalize_edit (raw : value) (script_name : string) : res dict :=
  match raw with
  | VDict raw =>
      e ← _unwrap_and_alias raw;
      op ← op_of e;
      let e :=
        if in_list op ["replace_class"; "delete_class"; "replace_method"; "delete_method";
                       "insert_method"]
           && negb (truthy (get e "className"))
        then <["className" := VStr script_name]> e else e in
      if in_list op ["text_replace"] then Ok (<["op" := VStr "replace_range"]> e)
      else if in_list op ["regex_delete"] then
        let e := <["op" := VStr "regex_replace"]> e in
        Ok (if has e "text" then e else <["text" := VStr ""]> e)
      else
        let e :=
          if String.eqb op "regex_replace" && negb (has e "replacement") then
            if has e "text" then <["replacement" := get_or e "text" (VStr "")]> e
            else if has e "insert" || has e "content"
            then <["replacement" := get e "insert" `or` get e "content" `or` VStr ""]> e
            else e
          else e in
        if String.eqb op "anchor_insert"
           && negb (truthy (get e "text" `or` get e "insert" `or` get e "content"
                            `or` get e "replacement"))
        then Ok (<["op" := VStr "anchor_delete"]> e)
        else Ok e
  | _ => Raise TypeError
  end.

Fixpoint _normalize_edits (raw_edits : list value) (script_name : string) : res (list dict) :=
  match raw_edits with
  | [] => Ok []
  | raw :: rest =>
      e ← normalize_edit raw script_name;
      normalized_edits ← _normalize_edits rest script_name;
      Ok (e :: normalized_edits)
  end.

(* ===================================================================== *)
(** ** script_apply_edits.py: field-presence validation *)
(* ===================================================================== *)

Definition strs (l : list string) : value := VList (VStr <$> l).

Definition error_with_hint (normalized_for_echo : list dict) (message : string)
    (expected suggestion : dict) : value :=
  _err "missing_field" message (Some expected) (Some suggestion)
       (Some normalized_for_echo) None None.

(** The body of the validation loop: [Some] result when the function
    returns from it. *)
Definition validate_edit (echo_ : list dict) (e : dict) : res (option value) :=
  let op := get_or e "op" (VStr "") in
  if str_eqb op "replace_method" then
    if negb (truthy (get e "methodName")) then
      Ok (Some (error_with_hint echo_ "replace_method requires 'methodName'."
        (mk [("op", VStr "replace_method");
             ("required", strs ["className"; "methodName"; "replacement"])])
        (mk [("edits[0].methodName", VStr "HasTarget")])))
    else if negb (truthy (get e "replacement" `or` get e "text")) then
      Ok (Some (error_with_hint echo_ "replace_method requires 'replacement' (inline or base64)."
        (mk [("op", VStr "replace_method");
             ("required", strs ["className"; "methodName"; "replacement"])])
        (mk [("edits[0].replacement", VStr "public bool X(){ return true; }")])))
    else Ok None
  else if str_eqb op "insert_method" then
    if negb (truthy (get e "replacement" `or` get e "text")) then
      Ok (Some (error_with_hint echo_ "insert_method requires a non-empty 'replacement'."
        (mk [("op", VStr "insert_method");
             ("required", strs ["className"; "replacement"]);
             ("position", VDict (mk [("after_requires", VStr "afterMethodName");
                                     ("before_requires", VStr "beforeMethodName")]))])
        (mk [("edits[0].replacement",
              VStr ("public void PrintSeries(){ Debug.Log(" +:+ String (ascii_of_nat 34) "1,2,3"
                    +:+ String (ascii_of_nat 34) "); }"))])))
    else
      pos ← PyStr.lower <$> str_attr (get e "position" `or` VStr "");
      if String.eqb pos "after" && negb (truthy (get e "afterMethodName")) then
        Ok (Some (error_with_hint echo_
          "insert_method with position='after' requires 'afterMethodName'."
          (mk [("op", VStr "insert_method");
               ("position", VDict (mk [("after_requires", VStr "afterMethodName")]))])
          (mk [("edits[0].afterMethodName", VStr "GetCurrentTarget")])))
      else if String.eqb pos "before" && negb (truthy (get e "beforeMethodName")) then
        Ok (Some (error_with_hint echo_
          "insert_method with position='before' requires 'beforeMethodName'."
          (mk [("op", VStr "insert_method");
               ("position", VDict (mk [("before_requires", VStr "beforeMethodName")]))])
          (mk [("edits[0].beforeMethodName", VStr "GetCurrentTarget")])))
      else Ok None
  else if str_eqb op "delete_method" then
    if negb (truthy (get e "methodName")) then
      Ok (Some (error_with_hint echo_ "delete_method requires 'methodName'."
        (mk [("op", VStr "delete_method"); ("required", strs ["className"; "methodName"])])
        (mk [("edits[0].methodName", VStr "PrintSeries")])))
    else Ok None
  else if str_eqb op "anchor_insert" || str_eqb op "anchor_replace" || str_eqb op "anchor_delete" then
    if negb (truthy (get e "anchor")) then
      Ok (Some (error_with_hint echo_ (py_str op +:+ " requires 'anchor' (regex).")
        (mk [("op", op); ("required", strs ["anchor"])])
        (mk [("edits[0].anchor", VStr "(?m)^\s*public\s+bool\s+HasTarget\s*\(")])))
    else if (str_eqb op "anchor_insert" || str_eqb op "anchor_replace")
            && negb (truthy (get e "text" `or` get e "replacement")) then
      Ok (Some (error_with_hint echo_ (py_str op +:+ " requires 'text'.")
        (mk [("op", op); ("required", strs ["anchor"; "text"])])
        (mk [("edits[0].text", VStr ("/* comment */" +:+ PyStr.NL))])))
    else Ok None
  else Ok None.

Fixpoint validate_edits (echo_ : list dict) (edits : list dict) : res (option value) :=
  match edits with
  | [] => Ok None
  | e :: rest =>
      r ← validate_edit echo_ e;
      match r with
      | Some failure => Ok (Some failure)
      | None => validate_edits echo_ rest
      end
  end.

(* ===================================================================== *)
(** ** script_apply_edits.py: conversion of text operations to spans *)
(* ===================================================================== *)

Definition STRUCT : list string :=
  ["replace_class"; "delete_class"; "replace_method"; "delete_method";
   "insert_method"; "anchor_delete"; "anchor_replace"; "anchor_insert"].

Definition TEXT : list string := ["prepend"; "append"; "replace_range"; "regex_replace"].

(** [(e.get("op") or "").lower()]. *)
Definition op_tag (e : dict) : res string :=
  PyStr.lower <$> str_attr (get e "op" `or` VStr "").

(** The result of a loop body: go on with the next entry, or return from
    the function. *)
Inductive flow (A : Type) :=
| Next (a : A)
| Return (v : value).
#[global] Arguments Next {A} a.
#[global] Arguments Return {A} v.

Definition line_col_from_index (base_text : string) (idx : nat) : Z * Z :=
  let line := (Z.of_nat (PyStr.count_char PyStr.LF idx base_text) + 1)%Z in
  let last_nl := PyStr.rfind_char PyStr.LF idx base_text in
  let col := if (0 <=? last_nl)%Z then (Z.of_nat idx - (last_nl + 1) + 1)%Z
             else (Z.of_nat idx + 1)%Z in
  (line, col).

(** A [TextSpanEdit] as sent to the editor. *)
Definition span (sl sc el ec : Z) (new_text : value) : dict :=
  mk [("startLine", VInt sl); ("startCol", VInt sc); ("endLine", VInt el);
      ("endCol", VInt ec); ("newText", new_text)].

Fixpoint digits_value (acc : nat) (ds : string) : nat :=
  match ds with
  | EmptyString => acc
  | String c r => digits_value (10 * acc + (PyStr.ord c - 48)) r
  end.

(** [_m.group(int(g.group(1))) or ""]. *)
Definition group_or_empty (m : re_match) (ds : string) : res string :=
  match List.nth_error (m_groups m) (digits_value 0 ds) with
  | Some (Some s) => Ok s
  | Some None => Ok EmptyString
  | None => Raise IndexError
  end.

Definition _expand_dollars (m : re_match) (rep : value) : res string :=
  rep ← str_operand rep;
  _DOLLAR_BACKREF_PATTERN_sub (group_or_empty m) rep.

(** [re.compile(pattern, flags)]; the compiled object is represented by its
    pattern. *)
Definition re_compile (pattern : value) (flags : re_flags) : res string :=
  pattern ← str_operand pattern;
  match re_error pattern flags with
  | Some msg => Raise (RegexError msg)
  | None => Ok pattern
  end.

(** [regex_obj.search(text)]: the first match of the scan. *)
Definition re_search (pattern : string) (flags : re_flags) (text : string) : option re_match :=
  List.head (re_matches pattern flags text).

Definition bad_regex (echo_ : list dict) (routing message hint : string) : res value :=
  _with_norm (_err "bad_regex" message None None (Some echo_) (Some routing)
                   (Some (mk [("hint", VStr hint)])))
             echo_ (Some routing).

Definition failure (code message : string) : value :=
  VDict (mk [("success", VBool false); ("code", VStr code); ("message", VStr message)]).

(** The body of the loop over [text_edits] in the mixed path (lines 409 to
    485); [at_edits] is the list built so far. *)
Definition mixed_step (base_text : string) (echo_ : list dict) (at_edits : list dict)
    (e : dict) : res (flow (list dict)) :=
  let routing := "mixed/text-first" in
  opx ← op_of e;
  let text_field :=
    get e "text" `or` get e "insert" `or` get e "content" `or` get e "replacement" `or` VStr "" in
  if String.eqb opx "anchor_insert" then
    let anchor := get e "anchor" `or` VStr "" in
    position ← PyStr.lower <$> str_attr (get e "position" `or` VStr "after");
    let flags := flags_of e in
    match (a ← str_operand anchor; find_best_anchor_match a base_text flags true) with
    | Raise ex =>
        Return <$> bad_regex echo_ routing ("Invalid anchor regex: " +:+ exn_str ex)
                     "Escape parentheses/braces or use a simpler anchor."
    | Ok None =>
        Return <$> _with_norm (failure "anchor_not_found" ("anchor not found: " +:+ py_str anchor))
                     echo_ (Some routing)
    | Ok (Some m) =>
        let idx := if String.eqb position "before" then m_start m else m_end m in
        text_field_norm ← str_attr text_field;
        let text_field_norm :=
          if negb (PyStr.startswith text_field_norm PyStr.NL)
          then PyStr.NL +:+ text_field_norm else text_field_norm in
        let text_field_norm :=
          if negb (PyStr.endswith text_field_norm PyStr.NL)
          then text_field_norm +:+ PyStr.NL else text_field_norm in
        let '(sl, sc) := line_col_from_index base_text idx in
        Ok (Next (at_edits ++ [span sl sc sl sc (VStr text_field_norm)]))
    end
  else if String.eqb opx "replace_range" then
    if forallb (has e) ["startLine"; "startCol"; "endLine"; "endCol"] then
      sl ← py_int (get_or e "startLine" (VInt 1));
      sc ← py_int (get_or e "startCol" (VInt 1));
      el ← py_int (get_or e "endLine" (VInt 1));
      ec ← py_int (get_or e "endCol" (VInt 1));
      Ok (Next (at_edits ++ [span sl sc el ec text_field]))
    else
      Return <$> _with_norm
        (_err "missing_field" "replace_range requires startLine/startCol/endLine/endCol"
              None None (Some echo_) (Some routing) None)
        echo_ (Some routing)
  else if String.eqb opx "regex_replace" then
    let pattern := get e "pattern" `or` VStr "" in
    match re_compile pattern (flags_of e) with
    | Raise ex =>
        Return <$> bad_regex echo_ routing ("Invalid regex pattern: " +:+ exn_str ex)
                     "Escape special chars or prefer structured delete for methods."
    | Ok regex_obj =>
        match re_search regex_obj (flags_of e) base_text with
        | None => Ok (Next at_edits)
        | Some m =>
            repl ← _expand_dollars m text_field;
            let '(sl, sc) := line_col_from_index base_text (m_start m) in
            let '(el, ec) := line_col_from_index base_text (m_end m) in
            Ok (Next (at_edits ++ [span sl sc el ec (VStr repl)]))
        end
    end
  else if in_list opx ["prepend"; "append"] then
    if String.eqb opx "prepend" then
      Ok (Next (at_edits ++ [span 1 1 1 1 text_field]))
    else
      let eof_idx := PyStr.len base_text in
      let '(sl, sc) := line_col_from_index base_text eof_idx in
      text_field ← str_operand text_field;
      let new_text :=
        (if negb (PyStr.endswith base_text PyStr.NL) then PyStr.NL else EmptyString)
        +:+ text_field in
      Ok (Next (at_edits ++ [span sl sc sl sc (VStr new_text)]))
  else
    Return <$> _with_norm
      (_err "unknown_op" ("Unsupported text edit op: " +:+ opx)
            None None (Some echo_) (Some routing) None)
      echo_ (Some routing).

(** A conversion loop: [step] is its body. *)
Fixpoint span_loop (step : list dict → dict → res (flow (list dict)))
    (at_edits : list dict) (edits : list dict) : res (flow (list dict)) :=
  match edits with
  | [] => Ok (Next at_edits)
  | e :: rest =>
      r ← step at_edits e;
      match r with
      | Next at_edits => span_loop step at_edits rest
      | Return v => Ok (Return v)
      end
  end.

(** The body of the conversion loop of the text path (lines 557 to 636). *)
Definition text_step (base_text : string) (echo_ : list dict) (at_edits : list dict)
    (e : dict) : res (flow (list dict)) :=
  let routing := "text" in
  op ← op_of e;
  let text_field := get e "text" `or` get e "insert" `or` get e "content" `or` VStr "" in
  if String.eqb op "anchor_insert" then
    let anchor := get e "anchor" `or` VStr "" in
    position ← PyStr.lower <$> str_attr (get e "position" `or` VStr "after");
    match (a ← str_operand anchor; find_best_anchor_match a base_text (flags_of e) true) with
    | Raise ex =>
        Return <$> bad_regex echo_ routing ("Invalid anchor regex: " +:+ exn_str ex)
                     "Escape parentheses/braces or use a simpler anchor."
    | Ok None =>
        Return <$> _with_norm (failure "anchor_not_found" ("anchor not found: " +:+ py_str anchor))
                     echo_ (Some routing)
    | Ok (Some m) =>
        let idx := if String.eqb position "before" then m_start m else m_end m in
        text_field ←
          (if truthy text_field then
             s ← str_attr text_field;
             Ok (if negb (PyStr.startswith s PyStr.NL) then VStr (PyStr.NL +:+ s) else text_field)
           else Ok text_field);
        text_field ←
          (if truthy text_field then
             s ← str_attr text_field;
             Ok (if negb (PyStr.endswith s PyStr.NL) then VStr (s +:+ PyStr.NL) else text_field)
           else Ok text_field);
        let '(sl, sc) := line_col_from_index base_text idx in
        Ok (Next (at_edits ++ [span sl sc sl sc (text_field `or` VStr "")]))
    end
  else if String.eqb op "replace_range" then
    if has e "startLine" then
      sl ← py_int (get_or e "startLine" (VInt 1));
      sc ← py_int (get_or e "startCol" (VInt 1));
      el ← py_int (get_or e "endLine" (VInt 1));
      ec ← py_int (get_or e "endCol" (VInt 1));
      Ok (Next (at_edits ++ [span sl sc el ec text_field]))
    else
      Return <$> _with_norm
        (failure "missing_field" "replace_range requires startLine/startCol/endLine/endCol")
        echo_ (Some routing)
  else if String.eqb op "regex_replace" then
    let pattern := get e "pattern" `or` VStr "" in
    let repl := text_field in
    let flags := flags_of e in
    match re_compile pattern flags with
    | Raise ex =>
        Return <$> bad_regex echo_ routing ("Invalid regex pattern: " +:+ exn_str ex)
                     "Escape special chars or prefer structured delete for methods."
    | Ok regex_obj =>
        m ← find_best_anchor_match regex_obj base_text flags true;
        match m with
        | None => Ok (Next at_edits)
        | Some m =>
            repl_expanded ← _expand_dollars m repl;
            let '(sl, sc) := line_col_from_index base_text (m_start m) in
            let '(el, ec) := line_col_from_index base_text (m_end m) in
            Ok (Next (at_edits ++ [span sl sc el ec (VStr repl_expanded)]))
        end
    end
  else
    Return <$> _with_norm
      (failure "unsupported_op"
               ("Unsupported text edit op for server-side apply_text_edits: " +:+ op))
      echo_ (Some routing).

(* ===================================================================== *)
(** ** script_apply_edits.py: routing and dispatch *)
(* ===================================================================== *)

(** The remote editor: its reply to a command, given the commands sent to it
    before.  Every command goes to the tool ["manage_script"]; a command is
    represented by its parameters. *)
Definition remote := list dict → dict → value.

(** The outcome of a call: the commands sent, in order, and the value
    returned or the exception raised. *)
Definition outcome := (list dict * res value)%type.

Definition locator (action name path : string) (namespace : value) (script_type : string)
    : list (string * value) :=
  [("action", VStr action); ("name", VStr name); ("path", VStr path);
   ("namespace", namespace); ("scriptType", VStr script_type)].

(** [resp if isinstance(resp, dict) else {"success": False, "message": str(resp)}]. *)
Definition as_result (resp : value) : value :=
  if is_dict resp then resp
  else VDict (mk [("success", VBool false); ("message", VStr (py_str resp))]).

(** [isinstance(resp, dict) and resp.get("success")], as a condition. *)
Definition succeeded (resp : value) : bool :=
  match resp with VDict r => truthy (get r "success") | _ => false end.

(** [d.setdefault(k, v)] used as a statement. *)
Definition setdefault (k : string) (v : value) (d : dict) : dict :=
  if has d k then d else <[k := v]> d.

(** The options of an [apply_text_edits] command built from spans. *)
Definition span_options (options : dict) (at_edits : list dict) : value :=
  VDict (mk [("refresh", get_or options "refresh" (VStr "debounced"));
             ("validate", get_or options "validate" (VStr "standard"));
             ("applyMode", if Nat.ltb 1 (length at_edits) then VStr "atomic"
                           else get_or options "applyMode" (VStr "sequential"))]).

Definition text_command (name path : string) (namespace : value) (script_type : string)
    (at_edits : list dict) (sha : string) (options : value) : dict :=
  mk (locator "apply_text_edits" name path namespace script_type
      ++ [("edits", echo at_edits); ("precondition_sha256", VStr sha); ("options", options)]).

Definition edit_command (name path : string) (namespace : value) (script_type : string)
    (edits : list dict) (options : dict) : dict :=
  mk (locator "edit" name path namespace script_type
      ++ [("edits", echo edits); ("options", VDict options)]).

(** Lines 346 to 367: the whole batch goes to the structured editor. *)
Definition structured_path (unity : remote) (name path : string) (namespace : value)
    (script_type : string) (options : dict) (edits : list dict) : outcome :=
  let opts2 := setdefault "refresh" (VStr "immediate") options in
  let params_struct := edit_command name path namespace script_type edits opts2 in
  let resp_struct := unity [] params_struct in
  ([params_struct], _with_norm (as_result resp_struct) edits (Some "structured")).

(** Lines 380 to 387: the snapshot carried by a successful reply to the read
    command; [Return] when the function gives up.  The editor delivers the
    contents as a string; a reply with contents of another type is outside
    the model and reported as [TypeError]. *)
Definition read_contents (read_resp : dict) : res (flow string) :=
  data ←
    (if truthy (get read_resp "data") then Ok (get read_resp "data")
     else
       result ← dict_attr (get_or read_resp "result" (VDict ∅));
       Ok (get result "data" `or` VDict ∅));
  data ← dict_attr data;
  let contents := get data "contents" in
  contents ←
    (match contents with
     | VNone =>
         if truthy (get data "contentsEncoded") && truthy (get data "encodedContents")
         then VStr <$> b64decode_utf8 (get data "encodedContents")
         else Ok contents
     | _ => Ok contents
     end);
  match contents with
  | VNone =>
      Ok (Return (VDict (mk [("success", VBool false);
                             ("message", VStr "No contents returned from Unity read.")])))
  | VStr s => Ok (Next s)
  | _ => Raise TypeError
  end.

(** The entries of [edits] whose tag lies in [kinds].  The tag of every
    entry has been computed without an exception when the routing was
    decided. *)
Definition filter_ops (kinds : list string) (edits : list dict) : list dict :=
  List.filter (λ e, match op_tag e with Ok t => in_list t kinds | Raise _ => false end) edits.

(** Lines 393 to 534: text operations first, then the structured ones. *)
Definition mixed_path (unity : remote) (sent : list dict) (name path : string)
    (namespace : value) (script_type : string) (options : dict) (edits : list dict)
    (contents : string) : outcome :=
  let routing := Some "mixed/text-first" in
  let text_edits := filter_ops TEXT edits in
  let struct_edits := filter_ops STRUCT edits in
  let base_text := contents in
  (* the [try] block: what was sent, and [Some] value when it returns *)
  let '(sent, attempt) :=
    match span_loop (mixed_step base_text edits) [] text_edits with
    | Raise ex => (sent, Raise ex)
    | Ok (Return v) => (sent, Ok (Some v))
    | Ok (Next at_edits) =>
        let sha := sha256_hexdigest base_text in
        match at_edits with
        | [] => (sent, Ok None)
        | _ =>
            let params_text :=
              text_command name path namespace script_type at_edits sha
                           (span_options options at_edits) in
            let resp_text := unity sent params_text in
            let sent := sent ++ [params_text] in
            if negb (succeeded resp_text)
            then (sent, Some <$> _with_norm (as_result resp_text) edits routing)
            else (sent, Ok None)
        end
    end in
  match attempt with
  | Raise ex =>
      (sent, _with_norm (VDict (mk [("success", VBool false);
                                    ("message", VStr ("Text edit conversion failed: "
                                                      +:+ exn_str ex))]))
                        edits routing)
  | Ok (Some v) => (sent, Ok v)
  | Ok None =>
      match struct_edits with
      | [] =>
          (sent, _with_norm (VDict (mk [("success", VBool true);
                                        ("message", VStr "Applied text edits (no structured ops)")]))
                            edits routing)
      | _ =>
          let opts2 := setdefault "refresh" (VStr "debounced") options in
          let params_struct := edit_command name path namespace script_type struct_edits opts2 in
          let resp_struct := unity sent params_struct in
          (sent ++ [params_struct], _with_norm (as_result resp_struct) edits routing)
      end
  end.

(** Lines 544 to 671: the batch is converted to spans and sent as one
    [apply_text_edits] command. *)
Definition convert_path (unity : remote) (sent : list dict) (name path : string)
    (namespace : value) (script_type : string) (options : dict) (edits : list dict)
    (contents : string) : outcome :=
  let routing := Some "text" in
  let base_text := contents in
  let '(sent, attempt) :=
    match span_loop (text_step base_text edits) [] edits with
    | Raise ex => (sent, Raise ex)
    | Ok (Return v) => (sent, Ok v)
    | Ok (Next at_edits) =>
        match at_edits with
        | [] =>
            (sent, _with_norm
               (failure "no_spans"
                  "No applicable text edit spans computed (anchor not found or zero-length).")
               edits routing)
        | _ =>
            let sha := sha256_hexdigest base_text in
            let params :=
              text_command name path namespace script_type at_edits sha
                           (span_options options at_edits) in
            let resp := unity sent params in
            (sent ++ [params], _with_norm (as_result resp) edits routing)
        end
    end in
  match attempt with
  | Raise ex =>
      (sent, _with_norm (failure "conversion_failed" ("Edit conversion failed: " +:+ exn_str ex))
                        edits routing)
  | Ok v => (sent, Ok v)
  end.

Definition diff_text (diff : list string) : value := VStr (PyStr.join PyStr.NL diff).

Definition truncate (cap : nat) (diff : list string) : list string :=
  if Nat.ltb cap (length diff) then List.firstn cap diff ++ ["... (diff truncated) ..."]
  else diff.

Definition preview_result (diff : list string) (edits : list dict) : value :=
  VDict (mk [("success", VBool true); ("message", VStr "Preview only (no write)");
             ("data", VDict (mk [("diff", diff_text diff); ("normalizedEdits", echo edits)]))]).

(** Lines 673 to 758: confirmation gate, local application, no-op check,
    preview, and the whole-file write. *)
Definition local_path (unity : remote) (sent : list dict) (name path : string)
    (namespace : value) (script_type : string) (options : dict) (edits : list dict)
    (text_ops : list string) (preview : bool) (contents : string) : outcome :=
  let routing := Some "text" in
  if in_list "regex_replace" text_ops && (preview || negb (truthy (get options "confirm"))) then
    match
      (preview_text ← apply_edits_locally contents edits;
       let diff := unified_diff (PyStr.splitlines false contents)
                                (PyStr.splitlines false preview_text) 2 in
       let diff := truncate 800 diff in
       if preview then Ok (preview_result diff edits)
       else _with_norm (VDict (mk [("success", VBool false);
                                   ("message", VStr "Preview diff; set options.confirm=true to apply.");
                                   ("data", VDict (mk [("diff", diff_text diff)]))]))
                       edits routing)
    with
    | Ok v => (sent, Ok v)
    | Raise ex =>
        (sent, _with_norm (failure "preview_failed" ("Preview failed: " +:+ exn_str ex))
                          edits routing)
    end
  else
    match apply_edits_locally contents edits with
    | Raise ex =>
        (sent, Ok (VDict (mk [("success", VBool false);
                              ("message", VStr ("Edit application failed: " +:+ exn_str ex))])))
    | Ok new_contents =>
        if String.eqb new_contents contents then
          (sent, _with_norm
             (VDict (mk [("success", VBool true);
                         ("message", VStr "No-op: contents unchanged");
                         ("data", VDict (mk [("no_op", VBool true);
                                             ("evidence",
                                              VDict (mk [("reason", VStr "identical_content")]))]))]))
             edits routing)
        else if preview then
          let diff := unified_diff (PyStr.splitlines false contents)
                                   (PyStr.splitlines false new_contents) 3 in
          (sent, Ok (preview_result (truncate 2000 diff) edits))
        else
          let options := setdefault "refresh" (VStr "debounced")
                           (setdefault "validate" (VStr "standard") options) in
          let old_lines := PyStr.splitlines true contents in
          let end_line := (Z.of_nat (length old_lines) + 1)%Z in
          let sha := sha256_hexdigest contents in
          let params :=
            text_command name path namespace script_type
              [span 1 1 end_line 1 (VStr new_contents)] sha (VDict options) in
          let write_resp := unity sent params in
          (sent ++ [params], _with_norm (as_result write_resp) edits routing)
    end.

Definition structured_kinds : list string :=
  ["replace_class"; "delete_class"; "replace_method"; "delete_method"; "insert_method";
   "anchor_insert"].

(** The tool itself.  [options] is [None] or a dictionary; [namespace] is
    [None] or a string.  The progress message to the client carries no
    state and is left out. *)
Definition script_apply_edits (unity : remote) (name path : string) (edits : value)
    (options : option dict) (script_type : string) (namespace : value) : outcome :=
  let edits := parse_json_payload edits in
  match edits with
  | VList raw_edits =>
      let '(name, path) := normalize_script_locator name path in
      match _normalize_edits raw_edits name with
      | Raise ex => ([], Raise ex)
      | Ok edits =>
          let normalized_for_echo := edits in
          match validate_edits normalized_for_echo edits with
          | Raise ex => ([], Raise ex)
          | Ok (Some missing) => ([], Ok missing)
          | Ok None =>
              match mapM op_tag edits with
              | Raise ex => ([], Raise ex)
              | Ok ops_set =>
                  let all_struct := forallb (λ t, in_list t STRUCT) ops_set in
                  let all_text := forallb (λ t, in_list t TEXT) ops_set in
                  let mixed := negb (all_struct || all_text) in
                  let options := default ∅ options in
                  if all_struct then
                    structured_path unity name path namespace script_type options edits
                  else
                    let read_params := mk (locator "read" name path namespace script_type) in
                    let read_resp := unity [] read_params in
                    let sent := [read_params] in
                    match read_resp with
                    | VDict r =>
                        if negb (truthy (get r "success")) then (sent, Ok read_resp)
                        else
                          match read_contents r with
                          | Raise ex => (sent, Raise ex)
                          | Ok (Return v) => (sent, Ok v)
                          | Ok (Next contents) =>
                              let preview := truthy (get options "preview") in
                              if mixed then
                                mixed_path unity sent name path namespace script_type options
                                           edits contents
                              else
                                match mapM op_of edits with
                                | Raise ex => (sent, Raise ex)
                                | Ok text_ops =>
                                    if negb (forallb (λ t, in_list t structured_kinds) text_ops)
                                    then convert_path unity sent name path namespace script_type
                                                      options edits contents
                                    else local_path unity sent name path namespace script_type
                                                    options edits text_ops preview contents
                                end
                          end
                    | _ => (sent, Ok (as_result read_resp))
                    end
              end
          end
      end
  | _ =>
      ([], Ok (VDict (mk [("success", VBool false);
                          ("message", VStr ("Edits must be a list or JSON string of a list, got "
                                            +:+ type_name edits))])))
  end.

End WithRuntime.

(* ===================================================================== *)
(** ** utils.py: coercion of flags *)
(* ===================================================================== *)

(** [coerce_bool(value, default)]; floating point numbers are outside the
    model. *)
Definition coerce_bool (value : value) (default : bool) : bool :=
  match value with
  | VBool b => b
  | VStr s => in_list (PyStr.lower s) ["true"; "1"; "yes"; "on"; "y"]
  | VInt n => negb (n =? 0)%Z
  | _ => default
  end.

(* ===================================================================== *)
(** ** logging_setup.py: the loggers of the stdio mode *)
(* ===================================================================== *)

(** What the program sets on a [logging.Logger]; a handler is represented
    by its identity. *)
Record logger := { level : Z; propagate : bool; handlers : list nat }.

(** The loggers that [logging.getLogger] knows, by name. *)
Abbreviation registry := (gmap string logger).

Definition NOTSET : Z := 0.
Definition WARNING : Z := 30.

(** [logging.getLogger(name)]: the logger of that name, created on first
    use. *)
Definition getLogger (name : string) (reg : registry) : logger :=
  default {| level := NOTSET; propagate := true; handlers := [] |} (reg !! name).

Definition stdio_loggers : list string :=
  ["uvicorn"; "uvicorn.error"; "uvicorn.access"; "starlette"; "docket"; "docket.worker";
   "fastmcp"].

(** The body of the loop of [silence_stdio_loggers]: [lg.setLevel],
    [lg.propagate = False], and [lg.addHandler] behind its guard;
    [file_handler] is [None] or a handler. *)
Definition silence_logger (file_handler : option nat) (reg : registry) (name : string)
    : registry :=
  let lg := getLogger name reg in
  let lg := {| level := WARNING; propagate := propagate lg; handlers := handlers lg |} in
  let lg := {| level := level lg; propagate := false; handlers := handlers lg |} in
  let lg :=
    match file_handler with
    | Some h =>
        if negb (existsb (Nat.eqb h) (handlers lg))
        then {| level := level lg; propagate := propagate lg; handlers := handlers lg ++ [h] |}
        else lg
    | None => lg
    end in
  <[name := lg]> reg.

Definition silence_stdio_loggers (file_handler : option nat) (reg : registry) : registry :=
  List.fold_left (silence_logger file_handler) stdio_loggers reg.

(* ===================================================================== *)
(** ** SHA-256 *)
(* ===================================================================== *)

(** The digest of [hashlib.sha256], on the UTF-8 encoding of a text whose
    characters are code points below 256 (FIPS 180-4). *)
Module Sha256.

Local Open Scope Z_scope.

Definition w32 (x : Z) : Z := Z.land x 4294967295.

Definition rotr (n x : Z) : Z := Z.lor (Z.shiftr x n) (w32 (Z.shiftl x (32 - n))).

Definition ch (x y z : Z) : Z := Z.lxor (Z.land x y) (Z.land (Z.lxor x 4294967295) z).

Definition maj (x y z : Z) : Z :=
  Z.lxor (Z.lxor (Z.land x y) (Z.land x z)) (Z.land y z).

Definition big_sigma0 (x : Z) : Z := Z.lxor (Z.lxor (rotr 2 x) (rotr 13 x)) (rotr 22 x).
Definition big_sigma1 (x : Z) : Z := Z.lxor (Z.lxor (rotr 6 x) (rotr 11 x)) (rotr 25 x).
Definition small_sigma0 (x : Z) : Z := Z.lxor (Z.lxor (rotr 7 x) (rotr 18 x)) (Z.shiftr x 3).
Definition small_sigma1 (x : Z) : Z := Z.lxor (Z.lxor (rotr 17 x) (rotr 19 x)) (Z.shiftr x 10).

Definition round_constants : list Z :=
  [   1116352408; 1899447441; 3049323471; 3921009573; 961987163; 1508970993;
   2453635748; 2870763221; 3624381080; 310598401; 607225278; 1426881987;
   1925078388; 2162078206; 2614888103; 3248222580; 3835390401; 4022224774;
   264347078; 604807628; 770255983; 1249150122; 1555081692; 1996064986;
   2554220882; 2821834349; 2952996808; 3210313671; 3336571891; 3584528711;
   113926993; 338241895; 666307205; 773529912; 1294757372; 1396182291;
   1695183700; 1986661051; 2177026350; 2456956037; 2730485921; 2820302411;
   3259730800; 3345764771; 3516065817; 3600352804; 4094571909; 275423344;
   430227734; 506948616; 659060556; 883997877; 958139571; 1322822218;
   1537002063; 1747873779; 1955562222; 2024104815; 2227730452; 2361852424;
   2428436474; 2756734187; 3204031479; 3329325298].

Definition initial_hash : list Z :=
  [   1779033703; 3144134277; 1013904242; 2773480762; 1359893119; 2600822924;
   528734635; 1541459225].

(** The UTF-8 encoding of a code point below 256. *)
Definition utf8 (c : ascii) : list Z :=
  let n := Z.of_nat (nat_of_ascii c) in
  if n <? 128 then [n] else [Z.lor 192 (Z.shiftr n 6); Z.lor 128 (Z.land n 63)].

Fixpoint encode (s : string) : list Z :=
  match s with
  | EmptyString => []
  | String c r => utf8 c ++ encode r
  end.

(** The eight bytes of a 64-bit length, most significant first. *)
Definition length_bytes (bits : Z) : list Z :=
  List.map (λ i, Z.land (Z.shiftr bits (8 * i)) 255) [7; 6; 5; 4; 3; 2; 1; 0].

Definition pad (message : list Z) : list Z :=
  let l := Z.of_nat (length message) in
  let zeros := Z.to_nat ((55 - l) mod 64) in
  message ++ [128] ++ List.repeat 0 zeros ++ length_bytes (8 * l).

(** Big-endian 32-bit words of a list of bytes whose length is a multiple
    of four. *)
Fixpoint words (bytes : list Z) : list Z :=
  match bytes with
  | b0 :: b1 :: b2 :: b3 :: r =>
      (Z.shiftl b0 24 + Z.shiftl b1 16 + Z.shiftl b2 8 + b3) :: words r
  | _ => []
  end.

(** The message schedule: [n] further words after the words of [w], which
    is kept with the latest word first. *)
Fixpoint schedule (n : nat) (w : list Z) : list Z :=
  match n with
  | O => w
  | S n' =>
      let at_ i := List.nth i w 0 in
      schedule n' (w32 (small_sigma1 (at_ 1%nat) + at_ 6%nat + small_sigma0 (at_ 14%nat)
                        + at_ 15%nat) :: w)
  end.

Definition round (state : list Z) (kw : Z * Z) : list Z :=
  match state with
  | [a; b; c; d; e; f; g; h] =>
      let t1 := h + big_sigma1 e + ch e f g + kw.1 + kw.2 in
      let t2 := big_sigma0 a + maj a b c in
      [w32 (t1 + t2); a; b; c; w32 (d + t1); e; f; g]
  | _ => state
  end.

Definition compress (hash : list Z) (block : list Z) : list Z :=
  let w := List.rev (schedule 48 (List.rev block)) in
  let final := List.fold_left round (List.combine round_constants w) hash in
  List.map (λ p : Z * Z, w32 (p.1 + p.2)) (List.combine hash final).

(** The blocks of sixteen words; [n] bounds their number. *)
Fixpoint blocks (n : nat) (ws : list Z) : list (list Z) :=
  match n, ws with
  | S n', _ :: _ => List.firstn 16 ws :: blocks n' (List.skipn 16 ws)
  | _, _ => []
  end.

Definition hex_digit (n : Z) : ascii :=
  ascii_of_nat (Z.to_nat (if n <? 10 then 48 + n else 87 + n)).

Fixpoint hex (ws : list Z) : string :=
  match ws with
  | [] => EmptyString
  | w :: r =>
      List.fold_right (λ i s, String (hex_digit (Z.land (Z.shiftr w (4 * i)) 15)) s)
                      (hex r) [7; 6; 5; 4; 3; 2; 1; 0]
  end.

Definition hexdigest (text : string) : string :=
  let ws := words (pad (encode text)) in
  hex (List.fold_left compress (blocks (length ws) ws) initial_hash).

End Sha256.

(* ===================================================================== *)
(** ** A runtime for evaluating the model on concrete inputs *)
(* ===================================================================== *)

(** The instance [Plain.runtime] covers what the examples below exercise:
    regular expressions that are a non-empty literal, optionally followed by
    a final [$]; replacement templates without a backslash; [int] on decimal
    strings.  Patterns and templates outside this fragment are reported as
    [RegexError].  The parts of the standard library that the examples never
    reach ([json], [base64], [difflib], [repr] of containers) are represented
    by placeholders, and no statement below depends on what they return. *)
Module Plain.

Definition metachars : string := ".^$*+?{[]\|()".

Definition parse (pattern : string) : option (string * bool) :=
  let dollar := PyStr.endswith pattern "$" in
  let body := if dollar then PyStr.take (PyStr.len pattern - 1) pattern else pattern in
  if PyStr.is_empty body
     || existsb (λ c, PyStr.contains_char c body) (list_ascii_of_string metachars)
  then None else Some (body, dollar).

Definition char_eqb (ignorecase : bool) (a b : ascii) : bool :=
  if ignorecase then Ascii.eqb (PyStr.lower_char a) (PyStr.lower_char b) else Ascii.eqb a b.

Fixpoint matches_here (ignorecase : bool) (lit s : string) : bool :=
  match lit, s with
  | EmptyString, _ => true
  | String a lit', String b s' => char_eqb ignorecase a b && matches_here ignorecase lit' s'
  | _, _ => false
  end.

(** [$]: before a line feed or at the end with [MULTILINE]; at the end or
    before a final line feed without. *)
Definition at_dollar (multiline : bool) (rest : string) : bool :=
  match rest with
  | EmptyString => true
  | String c r => Ascii.eqb c PyStr.LF && (multiline || PyStr.is_empty r)
  end.

Definition found (flags : re_flags) (lit : string) (dollar : bool) (s : string) : bool :=
  matches_here (IGNORECASE flags) lit s
  && (negb dollar || at_dollar (MULTILINE flags) (PyStr.drop (PyStr.len lit) s)).

(** Left-to-right scan for non-overlapping matches; [i] is the index of the
    first character of [s], [skip] the number of characters still covered by
    the previous match. *)
Fixpoint scan (flags : re_flags) (lit : string) (dollar : bool) (i skip : nat) (s : string)
    : list re_match :=
  match s with
  | EmptyString => []
  | String _ r =>
      match skip with
      | S k => scan flags lit dollar (i + 1) k r
      | O =>
          if found flags lit dollar s
          then {| m_start := i; m_end := i + PyStr.len lit;
                  m_groups := [Some (PyStr.take (PyStr.len lit) s)] |}
               :: scan flags lit dollar (i + 1) (PyStr.len lit - 1) r
          else scan flags lit dollar (i + 1) 0 r
      end
  end.

Definition error (pattern : string) (flags : re_flags) : option string :=
  match parse pattern with
  | Some _ => None
  | None => Some "pattern outside the literal fragment"
  end.

Definition finditer (pattern : string) (flags : re_flags) (text : string) : list re_match :=
  match parse pattern with
  | Some (lit, dollar) => scan flags lit dollar 0 0 text
  | None => []
  end.

(** Replacement of the first [limit] matches; [None] stands for no limit. *)
Fixpoint replace (flags : re_flags) (lit : string) (dollar : bool) (repl : string)
    (limit : option nat) (skip : nat) (s : string) : string :=
  match s with
  | EmptyString => EmptyString
  | String c r =>
      match skip with
      | S k => replace flags lit dollar repl limit k r
      | O =>
          match limit with
          | Some O => s
          | _ =>
              if found flags lit dollar s
              then repl +:+ replace flags lit dollar repl (Nat.pred <$> limit)
                                    (PyStr.len lit - 1) r
              else String c (replace flags lit dollar repl limit 0 r)
          end
      end
  end.

Definition subst (pattern repl text : string) (count : Z) (flags : re_flags) : res string :=
  match parse pattern with
  | Some (lit, dollar) =>
      if PyStr.contains_char "\" repl then Raise (RegexError "template outside the plain fragment")
      else if (count <? 0)%Z then Ok text
      else Ok (replace flags lit dollar repl
                       (if (count =? 0)%Z then None else Some (Z.to_nat count)) 0 text)
  | None => Raise (RegexError "pattern outside the literal fragment")
  end.

(** Digits with single underscores between them. *)
Fixpoint digits (acc : Z) (after_digit : bool) (s : string) : option Z :=
  match s with
  | EmptyString => if after_digit then Some acc else None
  | String c r =>
      if PyStr.isdigit c then digits (10 * acc + Z.of_nat (PyStr.ord c - 48)) true r
      else if Ascii.eqb c "_" && after_digit then
        match r with
        | EmptyString => None
        | String c' _ => if PyStr.isdigit c' then digits acc false r else None
        end
      else None
  end.

Definition int_str (s : string) : res Z :=
  let body := PyStr.strip s in
  let parsed :=
    match body with
    | String "-" r => Z.opp <$> digits 0 false r
    | String "+" r => digits 0 false r
    | _ => digits 0 false body
    end in
  match parsed with
  | Some n => Ok n
  | None => Raise ValueError
  end.

Definition runtime : Runtime := {|
  re_error := error;
  re_matches := finditer;
  re_subst := subst;
  sha256_hexdigest := Sha256.hexdigest;
  int_of_str := int_str;
  json_loads := λ _, Raise ValueError;
  b64decode_utf8 := λ _, Raise DecodeError;
  unified_diff := λ _ _ _, [];
  repr_container := λ _, "<container>";
  type_name := λ _, "<class>";
  builtin_message := λ _, "<message>"
|}.

End Plain.

(* ===================================================================== *)
(** ** Vocabulary of the statements *)
(* ===================================================================== *)

(** No character of [s] is white space. *)
Fixpoint nospace (s : string) : bool :=
  match s with
  | EmptyString => true
  | String c r => negb (PyStr.isspace c) && nospace r
  end.

(** The label that goes with the tags of a batch (lines 341 to 343 and the
    [routing=] arguments of the three paths). *)
Definition routing_label (ops_set : list string) : string :=
  if forallb (λ t, in_list t STRUCT) ops_set then "structured"
  else if forallb (λ t, in_list t TEXT) ops_set then "text"
  else "mixed/text-first".

(** [result["data"]["routing"]], when present. *)
Definition routing_of (result : value) : option value :=
  match result with
  | VDict r => match r !! "data" with Some (VDict d) => d !! "routing" | _ => None end
  | _ => None
  end.

(** [result["data"][k]], when present. *)
Definition data_of (k : string) (result : value) : option value :=
  match result with
  | VDict r => match r !! "data" with Some (VDict d) => d !! k | _ => None end
  | _ => None
  end.

(** [result["success"]], when present. *)
Definition success_of (result : value) : option value :=
  match result with VDict r => r !! "success" | _ => None end.

(** The [action] of every command sent, in order. *)
Definition actions (sent : list dict) : list value := (λ c, get c "action") <$> sent.


(** [result[k]], when present. *)
Definition field_of (k : string) (result : value) : option value :=
  match result with VDict r => r !! k | _ => None end.

(** The value that a call returned, if it returned. *)
Definition result_of (out : outcome) : option value :=
  match out.2 with Ok v => Some v | Raise _ => None end.


(** The line on which a match starts, as the scoring pass computes it. *)
Definition line_of (starts : list nat) (m : re_match) : Z :=
  (Z.of_nat (bisect_right starts (m_start m)) - 1)%Z.

(** The number of lines that look like a method signature among the lines
    with index between [lo] and [hi], both included; [i] is the index of the
    first line of [lines]. *)
Fixpoint windowed (lo hi i : Z) (lines : list string) : Z :=
  match lines with
  | [] => 0%Z
  | ln :: r =>
      ((if (lo <=? i)%Z && (i <=? hi)%Z && _METHOD_SIGNATURE_PATTERN_search ln then 1 else 0)
       + windowed lo hi (i + 1) r)%Z
  end.

(** The score of a match that starts on line [ln], with a window of three
    lines before the line, the line itself and [after] lines after it. *)
Definition score_formula (after : Z) (lines : list string) (ln : Z) : Z :=
  let indentation := indentation_of (List.nth (Z.to_nat ln) lines EmptyString) in
  let distance_from_end := (Z.of_nat (length lines) - ln)%Z in
  (Z.max 0 (20 - indentation) + Z.max 0 (10 - distance_from_end)
   - 5 * windowed (ln - 3) (ln + after) 0 lines
   + (if (indentation <=? 4)%Z && (distance_from_end <=? 3)%Z then 15 else 0))%Z.

(** The score in the words of the specification: two lines after. *)
Definition score_as_claimed (lines : list string) (ln : Z) : Z := score_formula 2 lines ln.

(** [m] is the first of [matches] with the highest score. *)
Definition first_best (score : re_match → Z) (matches : list re_match) (m : re_match) : Prop :=
  ∃ pre post, matches = pre ++ m :: post
              ∧ (∀ x, In x pre → (score x < score m)%Z)
              ∧ (∀ x, In x post → (score x ≤ score m)%Z).

(** The test of lines 305 and 306. *)
Definition is_closing_brace_pattern (pattern : string) : bool :=
  PyStr.contains_char "}" pattern
  && (PyStr.contains_char "$" pattern || PyStr.endswith pattern "\s*").


(** The unconditional field aliases of [_unwrap_and_alias], in the order in
    which it resolves them: spelling and canonical name. *)
Definition field_aliases : list (string * string) :=
  common_aliases ++ [("anchorText", "anchor"); ("newText", "text")].

(** The canonical name [canon] and its other spellings. *)
Definition spellings (canon : string) : list string :=
  canon :: List.map fst (List.filter (λ a, String.eqb a.2 canon) field_aliases).

Definition canonical_fields : list string :=
  ["className"; "methodName"; "replacement"; "afterMethodName"; "beforeMethodName";
   "anchor"; "text"].

(** [e] has none of the keys. *)
Definition lacks (e : dict) (keys : list string) : Prop :=
  ∀ k, In k keys → e !! k = None.

(** Two dictionaries that carry the same value, one under the spelling [a]
    and one under the canonical name [c], and agree elsewhere, neither
    having another spelling of the field. *)
Definition twin (a c : string) (v : value) (X Y : dict) : Prop :=
  ∃ s, lacks s (spellings c) ∧ X = <[a := v]> s ∧ Y = <[c := v]> s.

(** The aliases of [l] can be passed by a twin pair under [a] and [c]: each
    belongs to another field, or to the same field under another spelling. *)
Definition passable (a c : string) (l : list (string * string)) : bool :=
  forallb (λ p, (negb (in_list p.1 (spellings c)) && negb (in_list p.2 (spellings c)))
                || (in_list p.1 (spellings c) && negb (String.eqb p.1 a)
                    && negb (String.eqb p.1 c)))
          l.


(** None of [keys] is a spelling of the field [c]. *)
Definition avoids (c : string) (keys : list string) : bool :=
  forallb (λ k, negb (in_list k (spellings c))) keys.


(** The edit [inner] in wrapper form under the operation name [k]; [outer]
    is what else the wrapper carries. *)
Definition wrapped (k : string) (inner outer : dict) : dict := <[k := VDict inner]> outer.

(** No wrapper key of [e] holds a dictionary: [e] is not in wrapper form. *)
Definition flat (e : dict) : Prop := ∀ k d, In k wrapper_keys → e !! k ≠ Some (VDict d).

(** The other spellings of [op] (line 85). *)
Definition op_aliases : list string := ["operation"; "type"; "mode"].

(** The canonical name that [anchor_method] resolves to, by the position. *)
Definition anchor_method_field (pos : string) : string :=
  if String.eqb (PyStr.lower (PyStr.strip pos)) "before"
  then "beforeMethodName" else "afterMethodName".

(** The keys that [alias_fields] removes or writes whatever is there. *)
Definition rewritten_keys : list string :=
  List.map fst field_aliases
  ++ ["op"; "anchor_method"; "pattern"; "range"; "startLine"; "startCol"; "endLine"; "endCol"].


(** A result that reports a failure. *)
Definition failed (v : value) : Prop := success_of v = Some (VBool false).

(** What every [return] inside the conversion loops yields. *)
Definition labelled_failure (l : string) (v : value) : Prop :=
  routing_of v = Some (VStr l) ∧ failed v.

(** Two outcomes of a step that are twins, or the same exception. *)
Definition twin_res (a c : string) (v : value) (x y : res dict) : Prop :=
  match x, y with
  | Ok X, Ok Y => twin a c v X Y
  | Raise e1, Raise e2 => e1 = e2
  | _, _ => False
  end.

(** [s] has a dollar sign followed by a digit: a match of
    [_DOLLAR_BACKREF_PATTERN]. *)
Fixpoint has_backref (s : string) : bool :=
  match s with
  | EmptyString => false
  | String c r =>
      (Ascii.eqb c "$" && match r with String d _ => PyStr.isdigit d | EmptyString => false end)
      || has_backref r
  end.

(** The fields that the validation loop asks of a normalised edit. *)
Definition requirements_met (e : dict) : Prop :=
  let op := get_or e "op" (VStr "") in
  (str_eqb op "replace_method" = true →
     truthy (get e "methodName") = true
     ∧ truthy (get e "replacement" `or` get e "text") = true)
  ∧ (str_eqb op "insert_method" = true →
     truthy (get e "replacement" `or` get e "text") = true
     ∧ ∃ pos, PyStr.lower <$> str_attr (get e "position" `or` VStr "") = Ok pos
              ∧ (pos = "after" → truthy (get e "afterMethodName") = true)
              ∧ (pos = "before" → truthy (get e "beforeMethodName") = true))
  ∧ (str_eqb op "delete_method" = true → truthy (get e "methodName") = true)
  ∧ (str_eqb op "anchor_insert" || str_eqb op "anchor_replace" || str_eqb op "anchor_delete" = true →
     truthy (get e "anchor") = true)
  ∧ (str_eqb op "anchor_insert" || str_eqb op "anchor_replace" = true →
     truthy (get e "text" `or` get e "replacement") = true).

(** What [silence_stdio_loggers] leaves of a logger: the level
    [logging.WARNING], no propagation, and the handlers there were, with
    the file handler after them unless it was among them. *)
Definition silenced (file_handler : option nat) (before after : logger) : Prop :=
  level after = WARNING
  ∧ propagate after = false
  ∧ match file_handler with
    | Some h =>
        (In h (handlers before) → handlers after = handlers before)
        ∧ (¬ In h (handlers before) → handlers after = handlers before ++ [h])
    | None => handlers after = handlers before
    end.

Section Vocabulary.
Context {rt : Runtime}.

(** The spans that the mixed path computes for the text operation [e] taken
    alone against the snapshot [base_text]. *)
Definition own_spans (base_text : string) (e : dict) : list dict :=
  match mixed_step base_text [] [] e with
  | Ok (Next at_edits) => at_edits
  | _ => []
  end.

End Vocabulary.

(** The guard of the [replace_range] branch, as a proposition. *)
Definition in_bounds (line_count : nat) (sl sc el ec : Z) : Prop :=
  (1 ≤ sl ∧ sl ≤ el ∧ el ≤ Z.of_nat line_count + 1 ∧ 1 ≤ sc ∧ 1 ≤ ec)%Z.

(** The sum of the lengths of the lines before line [line]. *)
Definition offset_before (lines : list string) (line : Z) : Z :=
  List.fold_right (λ ln acc, Z.of_nat (PyStr.len ln) + acc)%Z 0%Z
                  (List.firstn (Z.to_nat (line - 1)) lines).

(* ===================================================================== *)
(** ** Concrete inputs *)
(* ===================================================================== *)

Module Sample.

Definition flags : re_flags := {| MULTILINE := true; IGNORECASE := false |}.

(** [{"op": "anchor_insert", "anchor": "zzz", "text": "x"}] *)
Definition absent_anchor : dict :=
  mk [("op", VStr "anchor_insert"); ("anchor", VStr "zzz"); ("text", VStr "x")].

(** [{"op": "replace_range", "startLine": 1, "startCol": 1, "endLine": 1,
      "endCol": 1, "text": "A"}] *)
Definition insert_A : dict :=
  mk [("op", VStr "replace_range"); ("startLine", VInt 1); ("startCol", VInt 1);
      ("endLine", VInt 1); ("endCol", VInt 1); ("text", VStr "A")].

(** [{"op": "prepend", "text": "// header"}] *)
Definition prepend_header : dict := mk [("op", VStr "prepend"); ("text", VStr "// header")].

(** [{"op": "delete_method", "className": "X", "methodName": "F"}] *)
Definition delete_F : dict :=
  mk [("op", VStr "delete_method"); ("className", VStr "X"); ("methodName", VStr "F")].

(** [{"op": "replace_range", "startLine": 1, "startCol": 1, "endLine": 1,
      "endCol": 1, "text": ""}]: an edit that changes nothing. *)
Definition insert_nothing : dict :=
  mk [("op", VStr "replace_range"); ("startLine", VInt 1); ("startCol", VInt 1);
      ("endLine", VInt 1); ("endCol", VInt 1); ("text", VStr "")].

(** [{"op": "regex_replace", "pattern": "foo", "replacement": "bar"}] *)
Definition foo_to_bar : dict :=
  mk [("op", VStr "regex_replace"); ("pattern", VStr "foo"); ("replacement", VStr "bar")].

(** An editor that holds a file with the given contents and accepts every
    command. *)
Definition editor (contents : string) : remote :=
  λ sent params,
    if str_eqb (get params "action") "read"
    then VDict (mk [("success", VBool true);
                    ("data", VDict (mk [("contents", VStr contents)]))])
    else VDict (mk [("success", VBool true); ("message", VStr "ok")]).

(** An editor that cannot be reached. *)
Definition offline : remote :=
  λ sent params, VDict (mk [("success", VBool false); ("message", VStr "not connected")]).

(** [{"preview": True}] *)
Definition preview_on : option dict := Some (mk [("preview", VBool true)]).

Definition read_Foo : dict :=
  mk (locator "read" "Foo" "Assets" VNone "MonoBehaviour").


(** A closing brace found at index [start]. *)
Definition brace (start : nat) : re_match :=
  {| m_start := start; m_end := start + 1; m_groups := [Some "}"] |}.

(** Two closing braces on two lines. *)
Definition two_braces : string := PyStr.join PyStr.NL ["}"; "}"].

(** Two closing braces at indentation 8, three signature lines between. *)
Definition deep_braces : string :=
  PyStr.join PyStr.NL
    ["class C {"; "        }"; "public void A("; "public void B("; "public void D(";
     "        }"].

(** A closing brace with a signature on the second line after it. *)
Definition trailing_signature : string := PyStr.join PyStr.NL ["}"; "x"; "public void F("].


(** [{"op": "replace_method", "methodName": "F"}] *)
Definition replace_F : dict := mk [("op", VStr "replace_method"); ("methodName", VStr "F")].

(** [{"op": "replace_method", "methodName": "F", "replacement": "A",
      "new_content": "B"}] *)
Definition both_spellings : dict :=
  mk [("op", VStr "replace_method"); ("methodName", VStr "F"); ("replacement", VStr "A");
      ("new_content", VStr "B")].


(** A match of [\s*}\s*$] that begins with the line break before the second
    brace of [two_braces]. *)
Definition brace_after_newline : re_match :=
  {| m_start := 1; m_end := 3; m_groups := [Some (PyStr.NL +:+ "}")] |}.

(** [{"op": "replace_range", "text": "A"}]: no coordinates. *)
Definition replace_nowhere : dict := mk [("op", VStr "replace_range"); ("text", VStr "A")].

(** [{"type": "prepend", "text": "x"}] and [{"op": "prepend", "text": "x"}] *)
Definition typed_prepend : dict := mk [("type", VStr "prepend"); ("text", VStr "x")].
Definition op_prepend : dict := mk [("op", VStr "prepend"); ("text", VStr "x")].

(** [{"op": "append", "text": "x"}] *)
Definition append_x : dict := mk [("op", VStr "append"); ("text", VStr "x")].

(** [{"op": "frobnicate"}]: an operation that no family knows. *)
Definition frobnicate : dict := mk [("op", VStr "frobnicate")].

(** [{"delete_method": {"methodName": "F"}, "note": "x"}] *)
Definition wrapped_delete_F : dict :=
  mk [("delete_method", VDict (mk [("methodName", VStr "F")])); ("note", VStr "x")].

(** A match of ["b"] at index [start]. *)
Definition letter_b (start : nat) : re_match :=
  {| m_start := start; m_end := start + 1; m_groups := [Some "b"] |}.

(** [{"success": True}] *)
Definition accepted : value := VDict (mk [("success", VBool true)]).

End Sample.


(* ===================================================================== *)
(** * Properties *)
(* ===================================================================== *)

Section LocalApplier.
Context {rt : Runtime}.

Lemma bind_Ok {A B} (a : A) (f : A → res B) : (Ok a ≫= f) = f a.
Proof. reflexivity. Qed.

Lemma bind_Raise {A B} (e : exn) (f : A → res B) : (Raise e ≫= f) = Raise e.
Proof. reflexivity. Qed.

Lemma fmap_Ok {A B} (a : A) (f : A → B) : f <$> Ok a = Ok (f a).
Proof. reflexivity. Qed.

Lemma apply_edits_locally_nil (text : string) : apply_edits_locally text [] = Ok text.
Proof. reflexivity. Qed.

Lemma apply_edits_locally_cons (text : string) (edit : dict) (rest : list dict) :
  apply_edits_locally text (edit :: rest)
  = apply_edit text edit ≫= λ text', apply_edits_locally text' rest.
Proof. reflexivity. Qed.

Lemma find_best_anchor_match_none (pattern text : string) (flags : re_flags) (prefer_last : bool) :
  re_finditer pattern text flags = Ok [] →
  find_best_anchor_match pattern text flags prefer_last = Ok None.
Proof. intros H. unfold find_best_anchor_match. rewrite H. reflexivity. Qed.

(** The anchor_insert branch when the anchor compiles and matches nothing. *)
Lemma apply_edit_anchor_absent (text : string) (edit : dict) (anchor position : string) :
  op_of edit = Ok "anchor_insert" →
  get_or edit "anchor" (VStr "") = VStr anchor →
  str_attr (get edit "position" `or` VStr "before") = Ok position →
  re_finditer anchor text (flags_of edit) = Ok [] →
  apply_edit text edit
  = if truthy (get_or edit "allow_noop" (VBool true)) then Ok text
    else Raise (RuntimeError ("anchor not found: " +:+ anchor)).
Proof.
  intros Hop Hanchor Hpos Hre. unfold apply_edit.
  rewrite Hop, bind_Ok. cbn [PyStr.is_empty String.eqb Ascii.eqb Bool.eqb].
  rewrite Hpos, Hanchor. cbn [fmap res_fmap str_operand mbind res_bind].
  rewrite (find_best_anchor_match_none _ _ _ _ Hre). reflexivity.
Qed.

(** C10.  An [anchor_insert] edit whose anchor pattern compiles and matches
    nothing in the buffer leaves the buffer as it is, and
    [apply_edits_locally] goes on with the remaining edits, unless the edit
    carries an [allow_noop] that is false (in Python's sense of truth); then
    the call raises ["anchor not found: <anchor>"] and no further edit is
    applied, whatever the remaining edits are. *)
Theorem anchor_insert_without_match (text : string) (edit : dict) (rest : list dict)
    (anchor position : string) :
  op_of edit = Ok "anchor_insert" →
  get_or edit "anchor" (VStr "") = VStr anchor →
  str_attr (get edit "position" `or` VStr "before") = Ok position →
  re_finditer anchor text (flags_of edit) = Ok [] →
  (truthy (get_or edit "allow_noop" (VBool true)) = true →
     apply_edit text edit = Ok text
     ∧ apply_edits_locally text (edit :: rest) = apply_edits_locally text rest)
  ∧ (truthy (get_or edit "allow_noop" (VBool true)) = false →
     apply_edits_locally text (edit :: rest)
     = Raise (RuntimeError ("anchor not found: " +:+ anchor))).
Proof.
  intros Hop Hanchor Hpos Hre.
  pose proof (apply_edit_anchor_absent text edit anchor position Hop Hanchor Hpos Hre) as Hstep.
  split; intros Hnoop; rewrite Hnoop in Hstep.
  - split; [exact Hstep|]. rewrite apply_edits_locally_cons, Hstep. reflexivity.
  - rewrite apply_edits_locally_cons, Hstep. reflexivity.
Qed.

Lemma take_0 (s : string) : PyStr.take 0 s = EmptyString.
Proof. destruct s; reflexivity. Qed.

Lemma drop_0 (s : string) : PyStr.drop 0 s = s.
Proof. destruct s; reflexivity. Qed.

Lemma out_of_bounds_test (line_count : nat) (sl sc el ec : Z) :
  (sl <? 1)%Z || (el <? sl)%Z || (Z.of_nat line_count + 1 <? el)%Z
  || (sc <? 1)%Z || (ec <? 1)%Z = false
  ↔ in_bounds line_count sl sc el ec.
Proof.
  unfold in_bounds. rewrite !orb_false_iff, !Z.ltb_ge. lia.
Qed.

Lemma index_of_inside (lines : list string) (line col : Z) :
  (1 ≤ line)%Z → (line ≤ Z.of_nat (length lines))%Z →
  index_of lines line col = (offset_before lines line + (col - 1))%Z.
Proof.
  intros H1 H2. unfold index_of, offset_before.
  destruct (Z.leb_spec line (Z.of_nat (length lines))) as [_|?]; [|lia].
  destruct (Z.ltb_spec (line - 1) 0) as [?|_]; [lia|]. reflexivity.
Qed.

Lemma index_of_past_end (lines : list string) (line col : Z) :
  (Z.of_nat (length lines) < line)%Z →
  index_of lines line col
  = List.fold_right (λ ln acc, Z.of_nat (PyStr.len ln) + acc)%Z 0%Z lines.
Proof.
  intros H. unfold index_of.
  destruct (Z.leb_spec line (Z.of_nat (length lines))) as [?|_]; [lia|]. reflexivity.
Qed.

Lemma index_of_origin (lines : list string) : index_of lines 1 1 = 0%Z.
Proof.
  destruct lines as [|ln lines].
  - reflexivity.
  - rewrite index_of_inside; [reflexivity | lia | cbn [length]; lia].
Qed.

(** The [replace_range] branch on integer coordinates. *)
Lemma apply_edit_replace_range (text : string) (edit : dict) (sl sc el ec : Z)
    (replacement : string) :
  op_of edit = Ok "replace_range" →
  get_or edit "startLine" (VInt 1) = VInt sl →
  get_or edit "startCol" (VInt 1) = VInt sc →
  get_or edit "endLine" (VInt sl) = VInt el →
  get_or edit "endCol" (VInt 1) = VInt ec →
  get_or edit "text" (VStr "") = VStr replacement →
  let lines := PyStr.splitlines true text in
  apply_edit text edit
  = if (sl <? 1)%Z || (el <? sl)%Z || (Z.of_nat (length lines) + 1 <? el)%Z
       || (sc <? 1)%Z || (ec <? 1)%Z
    then Raise (RuntimeError "replace_range out of bounds")
    else Ok (PyStr.slice_to text (index_of lines sl sc) +:+ replacement
             +:+ PyStr.slice_from text (index_of lines el ec)).
Proof.
  intros Hop Hsl Hsc Hel Hec Htext lines. unfold apply_edit.
  rewrite Hop, bind_Ok. cbn [PyStr.is_empty String.eqb Ascii.eqb Bool.eqb].
  rewrite Hsl. cbn [py_int mbind res_bind].
  rewrite Hsc. cbn [py_int mbind res_bind].
  rewrite Hel. cbn [py_int mbind res_bind].
  rewrite Hec. cbn [py_int mbind res_bind].
  rewrite Htext. reflexivity.
Qed.

Lemma app_cons (c : ascii) (s t : string) : String c s +:+ t = String c (s +:+ t).
Proof. reflexivity. Qed.

Lemma len_app (s t : string) : PyStr.len (s +:+ t) = (PyStr.len s + PyStr.len t)%nat.
Proof.
  unfold PyStr.len. induction s as [|c s IH]; [reflexivity|].
  rewrite app_cons. cbn [String.length]. rewrite IH. reflexivity.
Qed.

Lemma app_empty_r (s : string) : s +:+ EmptyString = s.
Proof. induction s as [|c s IH]; [reflexivity|]. rewrite app_cons, IH. reflexivity. Qed.

(** The lines that [splitlines(keepends=True)] returns add up to the text. *)
Lemma splitlines_from_total (n : nat) :
  ∀ s cur, (String.length s ≤ n)%nat →
    List.fold_right (λ ln acc, Z.of_nat (PyStr.len ln) + acc)%Z 0%Z
                    (PyStr.splitlines_from true cur s)
    = Z.of_nat (PyStr.len cur + String.length s).
Proof.
  induction n as [|n IH]; intros s cur Hn.
  - destruct s as [|c r]; [|cbn in Hn; lia]. cbn [PyStr.splitlines_from].
    destruct cur; cbn [PyStr.is_empty List.fold_right PyStr.len String.length]; lia.
  - destruct s as [|c r].
    + cbn [PyStr.splitlines_from].
      destruct cur; cbn [PyStr.is_empty List.fold_right PyStr.len String.length]; lia.
    + cbn [String.length] in Hn. cbn [PyStr.splitlines_from].
      destruct (Ascii.eqb c PyStr.CR).
      * destruct r as [|c' r'].
        -- cbn [List.fold_right]. rewrite len_app. cbn [PyStr.len String.length]. lia.
        -- cbn [String.length] in Hn. destruct (Ascii.eqb c' PyStr.LF).
           ++ cbn [List.fold_right]. rewrite IH by lia. rewrite len_app.
              cbn [PyStr.len String.length]. lia.
           ++ cbn [List.fold_right]. rewrite IH by (cbn [String.length]; lia). rewrite len_app.
              cbn [PyStr.len String.length]. lia.
      * destruct (PyStr.islinebreak c).
        -- cbn [List.fold_right]. rewrite IH by lia. rewrite len_app.
           cbn [PyStr.len String.length]. lia.
        -- rewrite IH by lia. rewrite len_app. cbn [PyStr.len String.length]. lia.
Qed.

Lemma splitlines_total (text : string) :
  List.fold_right (λ ln acc, Z.of_nat (PyStr.len ln) + acc)%Z 0%Z (PyStr.splitlines true text)
  = Z.of_nat (String.length text).
Proof.
  unfold PyStr.splitlines. rewrite (splitlines_from_total (String.length text)) by lia.
  reflexivity.
Qed.

Lemma take_substring (n : nat) (s : string) : PyStr.take n s = String.substring 0 n s.
Proof.
  revert s. induction n as [|n IH]; intros [|c r]; try reflexivity.
  cbn [PyStr.take String.substring]. rewrite IH. reflexivity.
Qed.

Lemma substring_all (s : string) : String.substring 0 (String.length s) s = s.
Proof. induction s as [|c r IH]; [reflexivity|]. cbn. rewrite IH. reflexivity. Qed.

Lemma drop_substring (n : nat) (s : string) :
  PyStr.drop n s = String.substring n (String.length s - n) s.
Proof.
  revert n. induction s as [|c r IH]; intros [|n]; try reflexivity.
  - rewrite drop_0, Nat.sub_0_r, substring_all. reflexivity.
  - cbn [PyStr.drop String.substring String.length Nat.sub]. apply IH.
Qed.

Lemma substring_none (s : string) : String.substring (String.length s) 0 s = EmptyString.
Proof. induction s as [|c r IH]; [reflexivity|]. exact IH. Qed.

Lemma offset_before_nonneg (lines : list string) (line : Z) : (0 ≤ offset_before lines line)%Z.
Proof.
  unfold offset_before. induction (List.firstn _ lines) as [|ln l IH]; cbn [List.fold_right]; lia.
Qed.

Lemma offset_before_first (lines : list string) : offset_before lines 1 = 0%Z.
Proof. reflexivity. Qed.

(** C9.  On a [replace_range] edit with integer coordinates,
    [apply_edits_locally] raises the out-of-bounds error exactly when
    [1 <= startLine <= endLine <= lineCount + 1], [startCol >= 1] and
    [endCol >= 1] fails.  When the condition holds, the result is the buffer
    up to the start offset, the text, and the buffer from the end offset on,
    the offset of a position on an existing line being the sum of the
    lengths of the lines before it plus the column less one, and the offset
    of a position on line [lineCount + 1] the length of the buffer.  In
    particular the range [(1,1)-(1,1)] puts the text in front of the buffer
    and consumes none of it, and a range on line [lineCount + 1] puts the
    text behind the buffer. *)
Theorem replace_range_bounds (text : string) (edit : dict) (sl sc el ec : Z)
    (replacement : string) :
  op_of edit = Ok "replace_range" →
  get_or edit "startLine" (VInt 1) = VInt sl →
  get_or edit "startCol" (VInt 1) = VInt sc →
  get_or edit "endLine" (VInt sl) = VInt el →
  get_or edit "endCol" (VInt 1) = VInt ec →
  get_or edit "text" (VStr "") = VStr replacement →
  let lines := PyStr.splitlines true text in
  let line_count := Z.of_nat (length lines) in
  (apply_edits_locally text [edit] = Raise (RuntimeError "replace_range out of bounds")
   ↔ ¬ in_bounds (length lines) sl sc el ec)
  ∧ (in_bounds (length lines) sl sc el ec →
     ∃ a b : nat,
       apply_edits_locally text [edit]
       = Ok (String.substring 0 a text +:+ replacement
             +:+ String.substring b (String.length text - b) text)
       ∧ (sl ≤ line_count → Z.of_nat a = offset_before lines sl + (sc - 1))%Z
       ∧ (sl = line_count + 1 → a = String.length text)%Z
       ∧ (el ≤ line_count → Z.of_nat b = offset_before lines el + (ec - 1))%Z
       ∧ (el = line_count + 1 → b = String.length text)%Z)
  ∧ (sl = 1%Z → sc = 1%Z → el = 1%Z → ec = 1%Z →
     apply_edits_locally text [edit] = Ok (replacement +:+ text))
  ∧ (sl = (line_count + 1)%Z → el = sl → (1 ≤ sc)%Z → (1 ≤ ec)%Z →
     apply_edits_locally text [edit] = Ok (text +:+ replacement)).
Proof.
  intros Hop Hsl Hsc Hel Hec Htext lines line_count.
  pose proof (apply_edit_replace_range text edit sl sc el ec replacement
                Hop Hsl Hsc Hel Hec Htext) as Hstep.
  cbv zeta in Hstep. fold lines in Hstep.
  pose proof (out_of_bounds_test (length lines) sl sc el ec) as Htest.
  assert (Hrun : apply_edits_locally text [edit] = apply_edit text edit).
  { rewrite apply_edits_locally_cons. destruct (apply_edit text edit); reflexivity. }
  assert (Hidx : ∀ line col, (1 ≤ line ≤ line_count + 1)%Z → (1 ≤ col)%Z →
            ∃ k : nat, index_of lines line col = Z.of_nat k
              ∧ (line ≤ line_count → Z.of_nat k = offset_before lines line + (col - 1))%Z
              ∧ (line = line_count + 1 → k = String.length text)%Z).
  { intros line col Hline Hcol. unfold line_count in *.
    destruct (Z.le_gt_cases line (Z.of_nat (length lines))) as [Hin|Hpast].
    - pose proof (offset_before_nonneg lines line) as Hnn.
      exists (Z.to_nat (offset_before lines line + (col - 1))).
      rewrite index_of_inside by lia. rewrite Z2Nat.id by lia.
      split; [reflexivity|]. split; [reflexivity | lia].
    - exists (String.length text). rewrite index_of_past_end by lia.
      unfold lines. rewrite splitlines_total.
      split; [reflexivity|]. split; [fold lines; lia | reflexivity]. }
  assert (Hslice : ∀ k : nat,
            PyStr.slice_to text (Z.of_nat k) = String.substring 0 k text
            ∧ PyStr.slice_from text (Z.of_nat k)
              = String.substring k (String.length text - k) text).
  { intros k. unfold PyStr.slice_to, PyStr.slice_from.
    destruct (Z.ltb_spec (Z.of_nat k) 0) as [?|_]; [lia|]. rewrite Nat2Z.id.
    split; [apply take_substring | apply drop_substring]. }
  rewrite Hrun, Hstep.
  destruct ((sl <? 1)%Z || (el <? sl)%Z || (Z.of_nat (length lines) + 1 <? el)%Z
            || (sc <? 1)%Z || (ec <? 1)%Z) eqn:Hguard.
  - assert (Hout : ¬ in_bounds (length lines) sl sc el ec).
    { intros Hin. apply Htest in Hin. discriminate. }
    split; [split; [intros _; exact Hout | reflexivity]|].
    split; [intros Hin; contradiction|]. split.
    + intros -> -> -> ->. exfalso. apply Hout. unfold in_bounds. lia.
    + intros -> -> ? ?. exfalso. apply Hout. unfold in_bounds, line_count. lia.
  - assert (Hin : in_bounds (length lines) sl sc el ec) by (apply Htest; reflexivity).
    destruct Hin as (H1 & H2 & H3 & H4 & H5).
    destruct (Hidx sl sc ltac:(unfold line_count; lia) H4) as (a & Ha & Ha1 & Ha2).
    destruct (Hidx el ec ltac:(unfold line_count; lia) H5) as (b & Hb & Hb1 & Hb2).
    rewrite Ha, Hb.
    destruct (Hslice a) as [-> _]. destruct (Hslice b) as [_ ->].
    split; [split; [discriminate | intros Hout; exfalso; apply Hout; unfold in_bounds; lia]|].
    split; [|split].
    + intros _. exists a, b. split; [reflexivity|]. repeat split; assumption.
    + intros -> -> -> ->.
      assert (Hzero : ∀ k : nat,
                ((1 ≤ line_count)%Z → Z.of_nat k = (offset_before lines 1 + (1 - 1))%Z) →
                (1%Z = (line_count + 1)%Z → k = String.length text) → k = 0%nat).
      { intros k Hk1 Hk2.
        assert (Hlc : (0 ≤ line_count)%Z) by (unfold line_count; lia).
        destruct (Z.le_gt_cases 1 line_count).
        - specialize (Hk1 ltac:(lia)). rewrite offset_before_first in Hk1. lia.
        - rewrite Hk2 by lia. unfold line_count in *.
          pose proof (splitlines_total text) as Ht. fold lines in Ht.
          destruct lines; [cbn in Ht; lia | cbn [length] in *; lia]. }
      rewrite (Hzero a Ha1 Ha2), (Hzero b Hb1 Hb2).
      cbn [String.substring]. rewrite Nat.sub_0_r, substring_all.
      destruct text; reflexivity.
    + intros Hs He _ _. rewrite Ha2 by exact Hs. rewrite Hb2 by congruence.
      rewrite substring_all, Nat.sub_diag, substring_none, app_empty_r. reflexivity.
Qed.

End LocalApplier.

Section MixedSpans.
Context {rt : Runtime}.

Lemma fmap_Return_not_Next {A} (x : res value) (a : A) : Return <$> x ≠ Ok (Next a).
Proof. destruct x; discriminate. Qed.

(** A step of the mixed conversion that goes on has appended to the list
    built so far exactly the spans of its own operation, which depend on the
    snapshot and on the operation only. *)
Lemma mixed_step_appends (base_text : string) (echo_ : list dict) (at_edits at_edits' : list dict)
    (e : dict) :
  mixed_step base_text echo_ at_edits e = Ok (Next at_edits') →
  at_edits' = at_edits ++ own_spans base_text e.
Proof.
  unfold own_spans, mixed_step.
  destruct (op_of e) as [opx|]; [|discriminate]. rewrite !bind_Ok.
  destruct (String.eqb opx "anchor_insert").
  { destruct (PyStr.lower <$> str_attr (get e "position" `or` VStr "after")) as [position|];
      [|discriminate].
    rewrite !bind_Ok.
    destruct (str_operand (get e "anchor" `or` VStr "") ≫= _) as [[m|]|].
    - destruct (str_attr _) as [t|]; [|discriminate]. rewrite !bind_Ok.
      destruct (line_col_from_index _ _) as [sl sc].
      intros [= <-]. reflexivity.
    - intros H. exfalso. exact (fmap_Return_not_Next _ _ H).
    - intros H. exfalso. exact (fmap_Return_not_Next _ _ H). }
  destruct (String.eqb opx "replace_range").
  { destruct (forallb (has e) _).
    - destruct (py_int (get_or e "startLine" _)) as [sl|]; [|discriminate]. rewrite !bind_Ok.
      destruct (py_int (get_or e "startCol" _)) as [sc|]; [|discriminate]. rewrite !bind_Ok.
      destruct (py_int (get_or e "endLine" _)) as [el|]; [|discriminate]. rewrite !bind_Ok.
      destruct (py_int (get_or e "endCol" _)) as [ec|]; [|discriminate]. rewrite !bind_Ok.
      intros [= <-]. reflexivity.
    - intros H. exfalso. exact (fmap_Return_not_Next _ _ H). }
  destruct (String.eqb opx "regex_replace").
  { destruct (re_compile _ _) as [regex_obj|].
    - destruct (re_search _ _ _) as [m|].
      + destruct (_expand_dollars _ _) as [repl|]; [|discriminate]. rewrite !bind_Ok.
        destruct (line_col_from_index _ (m_start m)) as [sl sc].
        destruct (line_col_from_index _ (m_end m)) as [el ec].
        intros [= <-]. reflexivity.
      + intros [= <-]. symmetry. apply app_nil_r.
    - intros H. exfalso. exact (fmap_Return_not_Next _ _ H). }
  destruct (in_list opx _).
  { destruct (String.eqb opx "prepend").
    - intros [= <-]. reflexivity.
    - destruct (line_col_from_index _ _) as [sl sc].
      destruct (str_operand _) as [t|]; [|discriminate]. rewrite !bind_Ok.
      intros [= <-]. reflexivity. }
  intros H. exfalso. exact (fmap_Return_not_Next _ _ H).
Qed.

(** A step that goes on does so for every list built so far and every
    batch it is part of. *)
Lemma mixed_step_goes_on (base_text : string) (echo1 echo2 : list dict)
    (acc1 acc1' acc2 : list dict) (e : dict) :
  mixed_step base_text echo1 acc1 e = Ok (Next acc1') →
  mixed_step base_text echo2 acc2 e = Ok (Next (acc2 ++ own_spans base_text e)).
Proof.
  intros H. pose proof (mixed_step_appends _ _ _ _ _ H) as Hown. revert H Hown.
  unfold own_spans, mixed_step.
  destruct (op_of e) as [opx|]; [|discriminate]. rewrite !bind_Ok.
  destruct (String.eqb opx "anchor_insert").
  { destruct (PyStr.lower <$> str_attr (get e "position" `or` VStr "after")) as [position|];
      [|discriminate].
    rewrite !bind_Ok.
    destruct (str_operand (get e "anchor" `or` VStr "") ≫= _) as [[m|]|].
    - destruct (str_attr _) as [t|]; [|discriminate]. rewrite !bind_Ok.
      destruct (line_col_from_index _ _) as [sl sc]. reflexivity.
    - intros H. exfalso. exact (fmap_Return_not_Next _ _ H).
    - intros H. exfalso. exact (fmap_Return_not_Next _ _ H). }
  destruct (String.eqb opx "replace_range").
  { destruct (forallb (has e) _).
    - destruct (py_int (get_or e "startLine" _)) as [sl|]; [|discriminate]. rewrite !bind_Ok.
      destruct (py_int (get_or e "startCol" _)) as [sc|]; [|discriminate]. rewrite !bind_Ok.
      destruct (py_int (get_or e "endLine" _)) as [el|]; [|discriminate]. rewrite !bind_Ok.
      destruct (py_int (get_or e "endCol" _)) as [ec|]; [|discriminate]. rewrite !bind_Ok.
      reflexivity.
    - intros H. exfalso. exact (fmap_Return_not_Next _ _ H). }
  destruct (String.eqb opx "regex_replace").
  { destruct (re_compile _ _) as [regex_obj|].
    - destruct (re_search _ _ _) as [m|].
      + destruct (_expand_dollars _ _) as [repl|]; [|discriminate]. rewrite !bind_Ok.
        destruct (line_col_from_index _ (m_start m)) as [sl sc].
        destruct (line_col_from_index _ (m_end m)) as [el ec]. reflexivity.
      + intros _ _. rewrite app_nil_r. reflexivity.
    - intros H. exfalso. exact (fmap_Return_not_Next _ _ H). }
  destruct (in_list opx _).
  { destruct (String.eqb opx "prepend").
    - reflexivity.
    - destruct (line_col_from_index _ _) as [sl sc].
      destruct (str_operand _) as [t|]; [|discriminate]. rewrite !bind_Ok. reflexivity. }
  intros H. exfalso. exact (fmap_Return_not_Next _ _ H).
Qed.

Lemma span_loop_appends (base_text : string) (echo_ : list dict) (edits : list dict) :
  ∀ at_edits sp,
    span_loop (mixed_step base_text echo_) at_edits edits = Ok (Next sp) →
    sp = at_edits ++ concat (own_spans base_text <$> edits).
Proof.
  induction edits as [|e rest IH]; intros at_edits sp H.
  - injection H as <-. cbn. symmetry. apply app_nil_r.
  - cbn [span_loop] in H.
    destruct (mixed_step base_text echo_ at_edits e) as [[acc|v]|] eqn:Hstep;
      cbn in H; try discriminate.
    apply mixed_step_appends in Hstep. apply IH in H. subst.
    cbn. rewrite <- app_assoc. reflexivity.
Qed.

Lemma span_loop_goes_on (base_text : string) (echo_ : list dict) (pre post : list dict) (e : dict) :
  ∀ at_edits sp,
    span_loop (mixed_step base_text echo_) at_edits (pre ++ e :: post) = Ok (Next sp) →
    ∃ acc, mixed_step base_text echo_ acc e = Ok (Next (acc ++ own_spans base_text e)).
Proof.
  induction pre as [|x pre IH]; intros at_edits sp H.
  - cbn [app span_loop] in H.
    destruct (mixed_step base_text echo_ at_edits e) as [[acc|v]|] eqn:Hstep;
      cbn in H; try discriminate.
    exists at_edits. eapply mixed_step_goes_on. exact Hstep.
  - cbn [app span_loop] in H.
    destruct (mixed_step base_text echo_ at_edits x) as [[acc|v]|] eqn:Hstep;
      cbn in H; try discriminate.
    eapply IH. exact H.
Qed.

(** What the mixed path sends first once the conversion has produced spans:
    one [apply_text_edits] command that carries them, guarded by the digest
    of the snapshot. *)
Lemma mixed_path_sends_spans (unity : remote) (sent : list dict) (name path : string)
    (namespace : value) (script_type : string) (options : dict) (edits : list dict)
    (contents : string) (sp : list dict) :
  span_loop (mixed_step contents edits) [] (filter_ops TEXT edits) = Ok (Next sp) →
  sp ≠ [] →
  ∃ later,
    (mixed_path unity sent name path namespace script_type options edits contents).1
    = sent ++ text_command name path namespace script_type sp (sha256_hexdigest contents)
                           (span_options options sp) :: later.
Proof.
  intros Hloop Hne. unfold mixed_path. rewrite Hloop.
  destruct sp as [|s sp]; [contradiction|].
  set (cmd := text_command _ _ _ _ _ _ _).
  destruct (negb (succeeded (unity sent cmd))).
  - exists []. destruct (_with_norm (as_result (unity sent cmd)) edits _) as [?|?]; reflexivity.
  - destruct (filter_ops STRUCT edits).
    + exists []. reflexivity.
    + eexists [_]. cbn [fst]. rewrite <- app_assoc. reflexivity.
Qed.

(** C6.  In a mixed batch the span of every text operation is computed
    against the original snapshot and from that operation alone: when the
    conversion of two batches over the same snapshot goes through, the spans
    sent for each of them are the concatenation, in order, of [own_spans] of
    its text operations, so an operation that occurs in both contributes the
    same spans to both, whatever comes before or after it, and its step goes
    on with those spans after any list built so far.  These are the spans
    that the mixed path sends. *)
Theorem mixed_spans_independent (base_text : string) (batch1 batch2 : list dict)
    (sp1 sp2 : list dict) :
  span_loop (mixed_step base_text batch1) [] (filter_ops TEXT batch1) = Ok (Next sp1) →
  span_loop (mixed_step base_text batch2) [] (filter_ops TEXT batch2) = Ok (Next sp2) →
  sp1 = concat (own_spans base_text <$> filter_ops TEXT batch1)
  ∧ sp2 = concat (own_spans base_text <$> filter_ops TEXT batch2)
  ∧ (∀ e pre1 post1 pre2 post2,
       filter_ops TEXT batch1 = pre1 ++ e :: post1 →
       filter_ops TEXT batch2 = pre2 ++ e :: post2 →
       sp1 = concat (own_spans base_text <$> pre1) ++ own_spans base_text e
             ++ concat (own_spans base_text <$> post1)
       ∧ sp2 = concat (own_spans base_text <$> pre2) ++ own_spans base_text e
               ++ concat (own_spans base_text <$> post2)
       ∧ ∀ echo_ acc,
           mixed_step base_text echo_ acc e = Ok (Next (acc ++ own_spans base_text e)))
  ∧ (∀ unity sent name path namespace script_type options,
       sp1 ≠ [] →
       ∃ later,
         (mixed_path unity sent name path namespace script_type options batch1 base_text).1
         = sent ++ text_command name path namespace script_type sp1
                      (sha256_hexdigest base_text) (span_options options sp1) :: later).
Proof.
  intros H1 H2.
  pose proof (span_loop_appends _ _ _ _ _ H1) as E1.
  pose proof (span_loop_appends _ _ _ _ _ H2) as E2.
  cbn [app] in E1, E2.
  split; [exact E1|]. split; [exact E2|]. split.
  - intros e pre1 post1 pre2 post2 F1 F2.
    rewrite F1 in E1, H1. rewrite F2 in E2.
    rewrite fmap_app, concat_app in E1, E2. cbn [fmap list_fmap concat] in E1, E2.
    split; [exact E1|]. split; [exact E2|].
    intros echo_ acc.
    destruct (span_loop_goes_on _ _ _ _ _ _ _ H1) as [acc0 Hacc0].
    eapply mixed_step_goes_on. exact Hacc0.
  - intros unity sent name path namespace script_type options Hne.
    eapply mixed_path_sends_spans; eassumption.
Qed.

End MixedSpans.

Section Routing.
Context {rt : Runtime}.

Lemma isspace_lower_char (c : ascii) : PyStr.isspace (PyStr.lower_char c) = PyStr.isspace c.
Proof. destruct c as [[] [] [] [] [] [] [] []]; reflexivity. Qed.

Lemma nospace_lower (s : string) : nospace (PyStr.lower s) = nospace s.
Proof.
  induction s as [|c r IH]; [reflexivity|].
  cbn [PyStr.lower nospace]. rewrite isspace_lower_char, IH. reflexivity.
Qed.

Lemma lstrip_nospace (s : string) : nospace s = true → PyStr.lstrip s = s.
Proof.
  destruct s as [|c r]; [reflexivity|]. cbn [nospace PyStr.lstrip].
  intros [Hc _]%andb_true_iff. apply negb_true_iff in Hc. rewrite Hc. reflexivity.
Qed.

Lemma rstrip_nospace (s : string) : nospace s = true → PyStr.rstrip s = s.
Proof.
  unfold PyStr.rstrip. induction s as [|c r IH]; [reflexivity|].
  cbn [nospace PyStr.rstrip_by]. intros [Hc Hr]%andb_true_iff.
  apply negb_true_iff in Hc. rewrite (IH Hr), Hc. destruct r; reflexivity.
Qed.

Lemma strip_nospace (s : string) : nospace s = true → PyStr.strip s = s.
Proof.
  intros H. unfold PyStr.strip. rewrite (rstrip_nospace s H). apply lstrip_nospace, H.
Qed.

Lemma in_list_In (s : string) (l : list string) : in_list s l = true ↔ In s l.
Proof.
  unfold in_list. rewrite existsb_exists. split.
  - intros (x & Hx & Heq). apply String.eqb_eq in Heq. subst. exact Hx.
  - intros H. exists s. split; [exact H | apply String.eqb_refl].
Qed.

Lemma text_tag_nospace (t : string) : in_list t TEXT = true → nospace t = true ∧ t ≠ EmptyString.
Proof.
  intros H. apply in_list_In in H. cbn in H.
  destruct H as [<-|[<-|[<-|[<-|[]]]]]; split; (reflexivity || discriminate).
Qed.

Lemma por_left (a b : value) : truthy a = true → a `or` b = a.
Proof. intros H. unfold por. rewrite H. reflexivity. Qed.

Lemma por_right (a b : value) : truthy a = false → a `or` b = b.
Proof. intros H. unfold por. rewrite H. reflexivity. Qed.

(** On an entry whose tag is a text tag, the operation name resolved with
    the aliases [operation], [type] and [mode] is that same tag. *)
Lemma op_of_text_tag (e : dict) (t : string) :
  op_tag e = Ok t → in_list t TEXT = true → op_of e = Ok t.
Proof.
  unfold op_tag, op_of. intros Htag Hin.
  destruct (text_tag_nospace t Hin) as [Hns Hne].
  destruct (truthy (get e "op")) eqn:Htruthy.
  - rewrite !(por_left _ _ Htruthy). rewrite (por_left _ _ Htruthy) in Htag.
    destruct (get e "op") as [| | |s| |]; try discriminate.
    cbn in Htag |- *. injection Htag as <-.
    rewrite nospace_lower in Hns. rewrite (strip_nospace s Hns). reflexivity.
  - rewrite (por_right _ _ Htruthy) in Htag.
    cbn in Htag. injection Htag as <-. contradiction.
Qed.

Lemma mapM_cons_Ok {A B} (f : A → res B) (x : A) (l : list A) (ys : list B) :
  mapM f (x :: l) = Ok ys → ∃ y ys', ys = y :: ys' ∧ f x = Ok y ∧ mapM f l = Ok ys'.
Proof.
  cbn. destruct (f x) as [y|]; cbn; [|discriminate].
  destruct (mapM f l) as [ys'|]; cbn; [|discriminate].
  intros [= <-]. eauto.
Qed.

Lemma op_of_text_batch (edits : list dict) :
  ∀ ops_set,
    mapM op_tag edits = Ok ops_set →
    forallb (λ t, in_list t TEXT) ops_set = true →
    mapM op_of edits = Ok ops_set.
Proof.
  induction edits as [|e rest IH]; intros ops_set Hm Hall.
  - cbn in Hm. injection Hm as <-. reflexivity.
  - apply mapM_cons_Ok in Hm as (t & ts & -> & Ht & Hts).
    cbn [forallb] in Hall. apply andb_true_iff in Hall as [Hin Hall].
    cbn. rewrite (op_of_text_tag e t Ht Hin). cbn. rewrite (IH ts Hts Hall). reflexivity.
Qed.

(** A text tag is not one of [structured_kinds]: on a batch of text
    operations that is not empty the test of line 543 succeeds. *)
Lemma text_batch_is_converted (ops_set : list string) :
  forallb (λ t, in_list t STRUCT) ops_set = false →
  forallb (λ t, in_list t TEXT) ops_set = true →
  negb (forallb (λ t, in_list t structured_kinds) ops_set) = true.
Proof.
  intros Hs Ht. apply negb_true_iff.
  destruct ops_set as [|t ts]; [discriminate|].
  cbn [forallb] in Ht |- *. apply andb_true_iff in Ht as [Hin _].
  apply in_list_In in Hin. cbn in Hin.
  destruct Hin as [<-|[<-|[<-|[<-|[]]]]]; reflexivity.
Qed.

(** *** The label on the results *)

Lemma with_norm_dict (r : dict) (edits : list dict) (routing : option string) (v : value) :
  _with_norm (VDict r) edits routing = Ok v →
  ∃ data, v = VDict (<["data" := VDict data]> r)
          ∧ (∀ l, routing = Some l → PyStr.is_empty l = false → data !! "routing" = Some (VStr l)).
Proof.
  unfold _with_norm.
  destruct (match r !! "data" with
            | Some (VDict d) => Ok d | Some _ => Raise AttributeError | None => Ok ∅
            end) as [data|] eqn:Hdata; rewrite ?bind_Ok, ?bind_Raise; [|discriminate].
  intros [= <-]. eexists. split; [reflexivity|].
  intros l -> Hl. rewrite Hl. apply lookup_insert_eq.
Qed.

Lemma with_norm_routing (r : dict) (edits : list dict) (l : string) (v : value) :
  _with_norm (VDict r) edits (Some l) = Ok v →
  PyStr.is_empty l = false →
  routing_of v = Some (VStr l).
Proof.
  intros H Hl. apply with_norm_dict in H as (data & -> & Hdata).
  unfold routing_of. rewrite lookup_insert_eq. apply Hdata; [reflexivity | exact Hl].
Qed.

Lemma with_norm_success (r : dict) (edits : list dict) (routing : option string) (v : value) :
  _with_norm (VDict r) edits routing = Ok v → success_of v = r !! "success".
Proof.
  intros H. apply with_norm_dict in H as (data & -> & _).
  unfold success_of. apply lookup_insert_ne. discriminate.
Qed.

(** [_with_norm] returns on a dictionary without [data]. *)
Lemma with_norm_fresh (r : dict) (edits : list dict) (routing : option string) :
  r !! "data" = None → ∃ v, _with_norm (VDict r) edits routing = Ok v.
Proof. intros H. unfold _with_norm. rewrite H. rewrite bind_Ok. eauto. Qed.

Lemma with_norm_data (r d : dict) (edits : list dict) (routing : option string) :
  r !! "data" = Some (VDict d) → ∃ v, _with_norm (VDict r) edits routing = Ok v.
Proof. intros H. unfold _with_norm. rewrite H. rewrite bind_Ok. eauto. Qed.

Lemma err_shape (code message : string) (expected rewrite : option dict)
    (normalized : option (list dict)) (routing : option string) (extra : option dict) :
  ∃ r, _err code message expected rewrite normalized routing extra = VDict r
       ∧ r !! "success" = Some (VBool false)
       ∧ (r !! "data" = None ∨ ∃ d, r !! "data" = Some (VDict d)).
Proof.
  unfold _err. eexists. split; [reflexivity|].
  match goal with |- context [if ?b then _ else _] => destruct b end.
  - split; [rewrite lookup_insert_ne by discriminate; reflexivity|].
    right. eexists. apply lookup_insert_eq.
  - split; [reflexivity|]. left. reflexivity.
Qed.

Lemma failure_shape (code message : string) :
  ∃ r, failure code message = VDict r ∧ r !! "success" = Some (VBool false)
       ∧ r !! "data" = None.
Proof. eexists. split; [reflexivity|]. split; reflexivity. Qed.

Lemma with_norm_err_labelled (code message : string) (expected rewrite extra : option dict)
    (normalized : option (list dict)) (edits : list dict) (l : string) (v : value) :
  PyStr.is_empty l = false →
  _with_norm (_err code message expected rewrite normalized (Some l) extra) edits (Some l) = Ok v →
  labelled_failure l v.
Proof.
  intros Hl H.
  destruct (err_shape code message expected rewrite normalized (Some l) extra)
    as (r & Hr & Hs & _).
  rewrite Hr in H. split.
  - eapply with_norm_routing; eassumption.
  - unfold failed. rewrite (with_norm_success _ _ _ _ H). exact Hs.
Qed.

Lemma with_norm_failure_labelled (code message : string) (edits : list dict) (l : string)
    (v : value) :
  PyStr.is_empty l = false →
  _with_norm (failure code message) edits (Some l) = Ok v →
  labelled_failure l v.
Proof.
  intros Hl H. destruct (failure_shape code message) as (r & Hr & Hs & _).
  rewrite Hr in H. split.
  - eapply with_norm_routing; eassumption.
  - unfold failed. rewrite (with_norm_success _ _ _ _ H). exact Hs.
Qed.

Lemma fmap_Return_inv {A} (x : res value) (v : value) :
  (Return <$> x : res (flow A)) = Ok (Return v) → x = Ok v.
Proof. destruct x; cbn; [intros [= ->]; reflexivity | discriminate]. Qed.

Lemma bad_regex_labelled (echo_ : list dict) (l message hint : string) (v : value) :
  PyStr.is_empty l = false →
  bad_regex echo_ l message hint = Ok v → labelled_failure l v.
Proof. intros Hl H. unfold bad_regex in H. eapply with_norm_err_labelled; eassumption. Qed.


Ltac returned_labelled :=
  lazymatch goal with
  | |- Return <$> bad_regex _ _ _ _ = Ok (Return _) → _ =>
      intros ?%fmap_Return_inv; eapply bad_regex_labelled; [reflexivity | eassumption]
  | |- Return <$> _with_norm (_err _ _ _ _ _ _ _) _ _ = Ok (Return _) → _ =>
      intros ?%fmap_Return_inv; eapply with_norm_err_labelled; [reflexivity | eassumption]
  | |- Return <$> _with_norm (failure _ _) _ _ = Ok (Return _) → _ =>
      intros ?%fmap_Return_inv; eapply with_norm_failure_labelled; [reflexivity | eassumption]
  end.

(** Every [return] in the body of the conversion loop of the text path
    yields a failure labelled ["text"]. *)
Lemma text_step_returns (base_text : string) (echo_ : list dict) (at_edits : list dict)
    (e : dict) (v : value) :
  text_step base_text echo_ at_edits e = Ok (Return v) → labelled_failure "text" v.
Proof.
  unfold text_step.
  destruct (op_of e) as [op|]; [|discriminate]. rewrite !bind_Ok.
  destruct (String.eqb op "anchor_insert").
  { destruct (PyStr.lower <$> str_attr (get e "position" `or` VStr "after")) as [position|];
      [|discriminate].
    rewrite !bind_Ok.
    destruct (str_operand (get e "anchor" `or` VStr "") ≫= _) as [[m|]|];
      [|returned_labelled|returned_labelled].
    match goal with |- context [mbind _ ?x] => destruct x as [t1|] end; [|discriminate].
    rewrite !bind_Ok.
    match goal with |- context [mbind _ ?x] => destruct x as [t2|] end; [|discriminate].
    rewrite !bind_Ok.
    destruct (line_col_from_index _ _) as [sl sc]. discriminate. }
  destruct (String.eqb op "replace_range").
  { destruct (has e "startLine"); [|returned_labelled].
    destruct (py_int (get_or e "startLine" _)) as [sl|]; [|discriminate]. rewrite !bind_Ok.
    destruct (py_int (get_or e "startCol" _)) as [sc|]; [|discriminate]. rewrite !bind_Ok.
    destruct (py_int (get_or e "endLine" _)) as [el|]; [|discriminate]. rewrite !bind_Ok.
    destruct (py_int (get_or e "endCol" _)) as [ec|]; [|discriminate]. rewrite !bind_Ok.
    discriminate. }
  destruct (String.eqb op "regex_replace").
  { destruct (re_compile _ _) as [regex_obj|]; [|returned_labelled].
    destruct (find_best_anchor_match _ _ _ _) as [[m|]|]; rewrite ?bind_Ok;
      [|discriminate|discriminate].
    destruct (_expand_dollars _ _) as [repl|]; [|discriminate]. rewrite !bind_Ok.
    destruct (line_col_from_index _ (m_start m)) as [sl sc].
    destruct (line_col_from_index _ (m_end m)) as [el ec]. discriminate. }
  returned_labelled.
Qed.

(** The same for the mixed path and the label ["mixed/text-first"]. *)
Lemma mixed_step_returns (base_text : string) (echo_ : list dict) (at_edits : list dict)
    (e : dict) (v : value) :
  mixed_step base_text echo_ at_edits e = Ok (Return v) → labelled_failure "mixed/text-first" v.
Proof.
  unfold mixed_step.
  destruct (op_of e) as [opx|]; [|discriminate]. rewrite !bind_Ok.
  destruct (String.eqb opx "anchor_insert").
  { destruct (PyStr.lower <$> str_attr (get e "position" `or` VStr "after")) as [position|];
      [|discriminate].
    rewrite !bind_Ok.
    destruct (str_operand (get e "anchor" `or` VStr "") ≫= _) as [[m|]|];
      [|returned_labelled|returned_labelled].
    destruct (str_attr _) as [t|]; [|discriminate]. rewrite !bind_Ok.
    destruct (line_col_from_index _ _) as [sl sc]. discriminate. }
  destruct (String.eqb opx "replace_range").
  { destruct (forallb (has e) _); [|returned_labelled].
    destruct (py_int (get_or e "startLine" _)) as [sl|]; [|discriminate]. rewrite !bind_Ok.
    destruct (py_int (get_or e "startCol" _)) as [sc|]; [|discriminate]. rewrite !bind_Ok.
    destruct (py_int (get_or e "endLine" _)) as [el|]; [|discriminate]. rewrite !bind_Ok.
    destruct (py_int (get_or e "endCol" _)) as [ec|]; [|discriminate]. rewrite !bind_Ok.
    discriminate. }
  destruct (String.eqb opx "regex_replace").
  { destruct (re_compile _ _) as [regex_obj|]; [|returned_labelled].
    destruct (re_search _ _ _) as [m|]; [|discriminate].
    destruct (_expand_dollars _ _) as [repl|]; [|discriminate]. rewrite !bind_Ok.
    destruct (line_col_from_index _ (m_start m)) as [sl sc].
    destruct (line_col_from_index _ (m_end m)) as [el ec]. discriminate. }
  destruct (in_list opx _).
  { destruct (String.eqb opx "prepend"); [discriminate|].
    destruct (line_col_from_index _ _) as [sl sc].
    destruct (str_operand _) as [t|]; [|discriminate]. rewrite !bind_Ok. discriminate. }
  returned_labelled.
Qed.

Lemma span_loop_returns (step : list dict → dict → res (flow (list dict))) (P : value → Prop) :
  (∀ acc e v, step acc e = Ok (Return v) → P v) →
  ∀ edits acc v, span_loop step acc edits = Ok (Return v) → P v.
Proof.
  intros Hstep. induction edits as [|e rest IH]; intros acc v H; [discriminate|].
  cbn [span_loop] in H.
  destruct (step acc e) as [[acc'|v']|] eqn:Hs; cbn in H; try discriminate.
  - eapply IH. exact H.
  - injection H as <-. eapply Hstep. exact Hs.
Qed.

Lemma as_result_dict (resp : value) : ∃ r, as_result resp = VDict r.
Proof. unfold as_result. destruct resp; cbn; eauto. Qed.

(** Every result of the structured path carries the label ["structured"]. *)
Lemma structured_path_labelled (unity : remote) (name path : string) (namespace : value)
    (script_type : string) (options : dict) (edits : list dict) (v : value) :
  (structured_path unity name path namespace script_type options edits).2 = Ok v →
  routing_of v = Some (VStr "structured").
Proof.
  unfold structured_path. cbn [snd]. intros H.
  destruct (as_result_dict (unity [] (edit_command name path namespace script_type edits
     (setdefault "refresh" (VStr "immediate") options)))) as [r Hr].
  rewrite Hr in H. eapply with_norm_routing; [exact H | reflexivity].
Qed.

(** The conversion path always returns, and every result carries the label
    ["text"]. *)
Lemma convert_path_labelled (unity : remote) (sent : list dict) (name path : string)
    (namespace : value) (script_type : string) (options : dict) (edits : list dict)
    (contents : string) :
  ∃ v, (convert_path unity sent name path namespace script_type options edits contents).2 = Ok v
       ∧ routing_of v = Some (VStr "text").
Proof.
  unfold convert_path.
  assert (Hhandler : ∀ ex, ∃ v,
    _with_norm (failure "conversion_failed" ("Edit conversion failed: " +:+ exn_str ex))
               edits (Some "text") = Ok v ∧ routing_of v = Some (VStr "text")).
  { intros ex. destruct (failure_shape "conversion_failed"
                           ("Edit conversion failed: " +:+ exn_str ex)) as (r & Hr & _ & Hd).
    rewrite Hr. destruct (with_norm_fresh r edits (Some "text") Hd) as [v Hv].
    exists v. split; [exact Hv|]. eapply with_norm_routing; [exact Hv | reflexivity]. }
  destruct (span_loop (text_step contents edits) [] edits) as [[at_edits|v]|ex] eqn:Hloop.
  - destruct at_edits as [|s at_edits].
    + destruct (failure_shape "no_spans"
        "No applicable text edit spans computed (anchor not found or zero-length).")
        as (r & Hr & _ & Hd).
      rewrite Hr. destruct (with_norm_fresh r edits (Some "text") Hd) as [v Hv].
      rewrite Hv. cbn [snd]. exists v. split; [reflexivity|].
      eapply with_norm_routing; [exact Hv | reflexivity].
    + set (cmd := text_command _ _ _ _ _ _ _).
      destruct (as_result_dict (unity sent cmd)) as [r Hr]. rewrite Hr.
      destruct (_with_norm (VDict r) edits (Some "text")) as [v|ex] eqn:Hv; cbn [snd].
      * exists v. split; [reflexivity|]. eapply with_norm_routing; [exact Hv | reflexivity].
      * apply Hhandler.
  - cbn [snd]. exists v. split; [reflexivity|].
    eapply (span_loop_returns _ (labelled_failure "text")) in Hloop; [apply Hloop|].
    intros acc e v'. apply text_step_returns.
  - cbn [snd]. apply Hhandler.
Qed.

(** Every result of the mixed path carries the label ["mixed/text-first"]. *)
Lemma mixed_path_labelled (unity : remote) (sent : list dict) (name path : string)
    (namespace : value) (script_type : string) (options : dict) (edits : list dict)
    (contents : string) (v : value) :
  (mixed_path unity sent name path namespace script_type options edits contents).2 = Ok v →
  routing_of v = Some (VStr "mixed/text-first").
Proof.
  unfold mixed_path.
  assert (Hlit : ∀ r v', _with_norm (VDict r) edits (Some "mixed/text-first") = Ok v' →
                         routing_of v' = Some (VStr "mixed/text-first")).
  { intros r v' H. eapply with_norm_routing; [exact H | reflexivity]. }
  assert (Htail : ∀ sent',
    (match filter_ops STRUCT edits with
     | [] => (sent', _with_norm (VDict (mk [("success", VBool true);
                                           ("message", VStr "Applied text edits (no structured ops)")]))
                               edits (Some "mixed/text-first"))
     | _ :: _ =>
         (sent' ++ [edit_command name path namespace script_type (filter_ops STRUCT edits)
                      (setdefault "refresh" (VStr "debounced") options)],
          _with_norm (as_result (unity sent' (edit_command name path namespace script_type
                        (filter_ops STRUCT edits)
                        (setdefault "refresh" (VStr "debounced") options))))
                     edits (Some "mixed/text-first"))
     end).2 = Ok v → routing_of v = Some (VStr "mixed/text-first")).
  { intros sent'. destruct (filter_ops STRUCT edits) as [|d l]; cbn [snd].
    - apply Hlit.
    - destruct (as_result_dict (unity sent' (edit_command name path namespace script_type
        (d :: l) (setdefault "refresh" (VStr "debounced") options)))) as [r ->]. apply Hlit. }
  destruct (span_loop (mixed_step contents edits) [] (filter_ops TEXT edits))
    as [[at_edits|v']|ex] eqn:Hloop.
  - destruct at_edits as [|s at_edits]; [apply Htail|].
    set (cmd := text_command _ _ _ _ _ _ _).
    destruct (negb (succeeded (unity sent cmd))); [|apply Htail].
    destruct (as_result_dict (unity sent cmd)) as [r ->].
    destruct (_with_norm (VDict r) edits (Some "mixed/text-first")) as [v'|ex] eqn:Hv; cbn.
    + intros [= <-]. eapply Hlit. exact Hv.
    + apply Hlit.
  - cbn. intros [= <-].
    eapply (span_loop_returns _ (labelled_failure "mixed/text-first")) in Hloop; [apply Hloop|].
    intros acc e v''. apply mixed_step_returns.
  - cbn. apply Hlit.
Qed.


(** *** The router *)

Lemma text_tags_not_struct (ops_set : list string) :
  ops_set ≠ [] → forallb (λ t, in_list t TEXT) ops_set = true →
  forallb (λ t, in_list t STRUCT) ops_set = false.
Proof.
  destruct ops_set as [|t ts]; [contradiction|]. intros _ H.
  cbn [forallb] in H |- *. apply andb_true_iff in H as [Hin _].
  apply in_list_In in Hin. cbn in Hin.
  destruct Hin as [<-|[<-|[<-|[<-|[]]]]]; reflexivity.
Qed.

(** The three branches of the router, for a batch that has been normalised
    and validated. *)
Lemma router_structured (unity : remote) (name path : string) (raw : list value)
    (options : option dict) (script_type : string) (namespace : value)
    (name' path' : string) (edits : list dict) (ops_set : list string) :
  normalize_script_locator name path = (name', path') →
  _normalize_edits raw name' = Ok edits →
  validate_edits edits edits = Ok None →
  mapM op_tag edits = Ok ops_set →
  forallb (λ t, in_list t STRUCT) ops_set = true →
  script_apply_edits unity name path (VList raw) options script_type namespace
  = structured_path unity name' path' namespace script_type (default ∅ options) edits.
Proof.
  intros Hloc Hnorm Hval Hops Hs. unfold script_apply_edits. cbn [parse_json_payload].
  rewrite Hloc, Hnorm, Hval, Hops, Hs. reflexivity.
Qed.

Lemma router_read (unity : remote) (name path : string) (raw : list value)
    (options : option dict) (script_type : string) (namespace : value)
    (name' path' : string) (edits : list dict) (ops_set : list string)
    (r : dict) (contents : string) :
  normalize_script_locator name path = (name', path') →
  _normalize_edits raw name' = Ok edits →
  validate_edits edits edits = Ok None →
  mapM op_tag edits = Ok ops_set →
  forallb (λ t, in_list t STRUCT) ops_set = false →
  let read := mk (locator "read" name' path' namespace script_type) in
  unity [] read = VDict r →
  truthy (get r "success") = true →
  read_contents r = Ok (Next contents) →
  script_apply_edits unity name path (VList raw) options script_type namespace
  = if forallb (λ t, in_list t TEXT) ops_set
    then convert_path unity [read] name' path' namespace script_type (default ∅ options)
                      edits contents
    else mixed_path unity [read] name' path' namespace script_type (default ∅ options)
                    edits contents.
Proof.
  intros Hloc Hnorm Hval Hops Hs read Hread Hsucc Hcont.
  unfold script_apply_edits. cbn [parse_json_payload].
  rewrite Hloc, Hnorm, Hval, Hops, Hs. fold read. rewrite Hread, Hsucc. cbn [negb].
  rewrite Hcont. cbn [orb].
  destruct (forallb (λ t, in_list t TEXT) ops_set) eqn:Ht; cbn [negb]; [|reflexivity].
  rewrite (op_of_text_batch edits ops_set Hops Ht).
  rewrite (text_batch_is_converted ops_set Hs Ht). reflexivity.
Qed.

(** A failed read is handed back as the editor sent it. *)
Lemma router_read_failed (unity : remote) (name path : string) (raw : list value)
    (options : option dict) (script_type : string) (namespace : value)
    (name' path' : string) (edits : list dict) (ops_set : list string) (r : dict) :
  normalize_script_locator name path = (name', path') →
  _normalize_edits raw name' = Ok edits →
  validate_edits edits edits = Ok None →
  mapM op_tag edits = Ok ops_set →
  forallb (λ t, in_list t STRUCT) ops_set = false →
  let read := mk (locator "read" name' path' namespace script_type) in
  unity [] read = VDict r →
  truthy (get r "success") = false →
  script_apply_edits unity name path (VList raw) options script_type namespace
  = ([read], Ok (VDict r)).
Proof.
  intros Hloc Hnorm Hval Hops Hs read Hread Hsucc.
  unfold script_apply_edits. cbn [parse_json_payload].
  rewrite Hloc, Hnorm, Hval, Hops, Hs. fold read. rewrite Hread, Hsucc. reflexivity.
Qed.

(** C4 (amended).  For a normalised and validated batch the router selects
    the structured path when every tag is a structured tag (the empty batch
    included), the conversion path of the text route when the batch is not
    empty and every tag is a text tag, and the mixed path otherwise, once
    the snapshot has been read; the label of the selected route,
    ["structured"], ["text"] or ["mixed/text-first"], is in the [data] of
    every result returned by the structured path, and of every result
    returned by the other two after a successful read. *)
Theorem routing_label_attached (unity : remote) (name path : string) (raw : list value)
    (options : option dict) (script_type : string) (namespace : value)
    (name' path' : string) (edits : list dict) (ops_set : list string) :
  normalize_script_locator name path = (name', path') →
  _normalize_edits raw name' = Ok edits →
  validate_edits edits edits = Ok None →
  mapM op_tag edits = Ok ops_set →
  let out := script_apply_edits unity name path (VList raw) options script_type namespace in
  let read := mk (locator "read" name' path' namespace script_type) in
  let all_struct := forallb (λ t, in_list t STRUCT) ops_set in
  let all_text := forallb (λ t, in_list t TEXT) ops_set in
  (all_struct = true →
     routing_label ops_set = "structured"
     ∧ out = structured_path unity name' path' namespace script_type (default ∅ options) edits
     ∧ ∀ v, out.2 = Ok v → routing_of v = Some (VStr "structured"))
  ∧ (∀ r contents,
       unity [] read = VDict r → truthy (get r "success") = true →
       read_contents r = Ok (Next contents) →
       (ops_set ≠ [] → all_text = true →
          routing_label ops_set = "text"
          ∧ out = convert_path unity [read] name' path' namespace script_type
                               (default ∅ options) edits contents
          ∧ ∃ v, out.2 = Ok v ∧ routing_of v = Some (VStr "text"))
       ∧ (all_struct = false → all_text = false →
          routing_label ops_set = "mixed/text-first"
          ∧ out = mixed_path unity [read] name' path' namespace script_type
                             (default ∅ options) edits contents
          ∧ ∀ v, out.2 = Ok v → routing_of v = Some (VStr "mixed/text-first"))).
Proof.
  intros Hloc Hnorm Hval Hops out read all_struct all_text.
  subst all_struct all_text. split.
  - intros Hs. unfold routing_label. rewrite Hs.
    split; [reflexivity|].
    assert (Hout : out = structured_path unity name' path' namespace script_type
                           (default ∅ options) edits)
      by (eapply router_structured; eassumption).
    split; [exact Hout|]. rewrite Hout. apply structured_path_labelled.
  - intros r contents Hread Hsucc Hcont. split.
    + intros Hne Ht.
      pose proof (text_tags_not_struct ops_set Hne Ht) as Hs.
      unfold routing_label. rewrite Hs, Ht.
      split; [reflexivity|].
      assert (Hout : out = convert_path unity [read] name' path' namespace script_type
                             (default ∅ options) edits contents).
      { unfold out. erewrite router_read by eassumption. rewrite Ht. reflexivity. }
      split; [exact Hout|]. rewrite Hout. apply convert_path_labelled.
    + intros Hs Ht. unfold routing_label. rewrite Hs, Ht.
      split; [reflexivity|].
      assert (Hout : out = mixed_path unity [read] name' path' namespace script_type
                             (default ∅ options) edits contents).
      { unfold out. erewrite router_read by eassumption. rewrite Ht. reflexivity. }
      split; [exact Hout|]. rewrite Hout. apply mixed_path_labelled.
Qed.


(** *** The conversion path of the text route *)

(** [prepend] and [append] have no conversion on this path: their step
    never goes on. *)
Lemma text_step_unsupported (base_text : string) (echo_ : list dict) (at_edits : list dict)
    (e : dict) (op : string) :
  op_of e = Ok op → op = "prepend" ∨ op = "append" →
  ∀ a, text_step base_text echo_ at_edits e ≠ Ok (Next a).
Proof.
  intros Hop Hcase a. unfold text_step. rewrite Hop, bind_Ok.
  destruct Hcase as [-> | ->]; cbn [String.eqb Ascii.eqb Bool.eqb];
    apply fmap_Return_not_Next.
Qed.

Lemma span_loop_blocked (step : list dict → dict → res (flow (list dict))) (e : dict) :
  (∀ acc a, step acc e ≠ Ok (Next a)) →
  ∀ edits, In e edits → ∀ acc a, span_loop step acc edits ≠ Ok (Next a).
Proof.
  intros Hblock. induction edits as [|x rest IH]; intros Hin acc a; [destruct Hin|].
  cbn [span_loop].
  destruct (step acc x) as [[acc'|v]|] eqn:Hs; cbn; try discriminate.
  destruct Hin as [-> | Hin].
  - exfalso. exact (Hblock _ _ Hs).
  - apply IH. exact Hin.
Qed.

(** The conversion of a [replace_range] entry that names its start line and
    has integer coordinates. *)
Lemma text_step_replace_range (base_text : string) (echo_ : list dict) (at_edits : list dict)
    (e : dict) (sl sc el ec : Z) :
  op_of e = Ok "replace_range" →
  has e "startLine" = true →
  py_int (get_or e "startLine" (VInt 1)) = Ok sl →
  py_int (get_or e "startCol" (VInt 1)) = Ok sc →
  py_int (get_or e "endLine" (VInt 1)) = Ok el →
  py_int (get_or e "endCol" (VInt 1)) = Ok ec →
  text_step base_text echo_ at_edits e
  = Ok (Next (at_edits
              ++ [span sl sc el ec
                       (get e "text" `or` get e "insert" `or` get e "content" `or` VStr "")])).
Proof.
  intros Hop Hhas Hsl Hsc Hel Hec. unfold text_step. rewrite Hop, bind_Ok.
  cbn [String.eqb Ascii.eqb Bool.eqb]. rewrite Hhas, Hsl, bind_Ok, Hsc, bind_Ok, Hel, bind_Ok, Hec.
  reflexivity.
Qed.

(** The conversion of a [regex_replace] entry whose pattern compiles. *)
Lemma text_step_regex_replace (base_text : string) (echo_ : list dict) (at_edits : list dict)
    (e : dict) (regex_obj : string) :
  op_of e = Ok "regex_replace" →
  re_compile (get e "pattern" `or` VStr "") (flags_of e) = Ok regex_obj →
  (find_best_anchor_match regex_obj base_text (flags_of e) true = Ok None →
     text_step base_text echo_ at_edits e = Ok (Next at_edits))
  ∧ (∀ m repl,
       find_best_anchor_match regex_obj base_text (flags_of e) true = Ok (Some m) →
       _expand_dollars m (get e "text" `or` get e "insert" `or` get e "content" `or` VStr "")
       = Ok repl →
       text_step base_text echo_ at_edits e
       = Ok (Next (at_edits
                   ++ [span (line_col_from_index base_text (m_start m)).1
                            (line_col_from_index base_text (m_start m)).2
                            (line_col_from_index base_text (m_end m)).1
                            (line_col_from_index base_text (m_end m)).2
                            (VStr repl)]))).
Proof.
  intros Hop Hre. unfold text_step. rewrite Hop, bind_Ok.
  cbn [String.eqb Ascii.eqb Bool.eqb]. rewrite Hre. split.
  - intros ->. reflexivity.
  - intros m repl -> Hrepl. rewrite bind_Ok, Hrepl, bind_Ok.
    destruct (line_col_from_index base_text (m_start m)) as [sl sc].
    destruct (line_col_from_index base_text (m_end m)) as [el ec]. reflexivity.
Qed.

Lemma convert_path_sent (unity : remote) (sent : list dict) (name path : string)
    (namespace : value) (script_type : string) (options : dict) (edits : list dict)
    (contents : string) :
  (∀ s at_edits,
     span_loop (text_step contents edits) [] edits = Ok (Next (s :: at_edits)) →
     (convert_path unity sent name path namespace script_type options edits contents).1
     = sent ++ [text_command name path namespace script_type (s :: at_edits)
                             (sha256_hexdigest contents) (span_options options (s :: at_edits))])
  ∧ ((∀ s at_edits,
        span_loop (text_step contents edits) [] edits ≠ Ok (Next (s :: at_edits))) →
     (convert_path unity sent name path namespace script_type options edits contents).1 = sent).
Proof.
  unfold convert_path. split.
  - intros s at_edits ->.
    destruct (_with_norm _ edits (Some "text")); reflexivity.
  - intros Hnone.
    destruct (span_loop (text_step contents edits) [] edits) as [[[|s at_edits]|v]|ex] eqn:Hloop.
    + destruct (_with_norm _ edits (Some "text")); reflexivity.
    + exfalso. exact (Hnone s at_edits eq_refl).
    + reflexivity.
    + reflexivity.
Qed.

(** When the conversion does not go through, the path reports a failure. *)
Lemma convert_path_failed (unity : remote) (sent : list dict) (name path : string)
    (namespace : value) (script_type : string) (options : dict) (edits : list dict)
    (contents : string) :
  (∀ a, span_loop (text_step contents edits) [] edits ≠ Ok (Next a)) →
  ∃ v, (convert_path unity sent name path namespace script_type options edits contents).2 = Ok v
       ∧ failed v.
Proof.
  intros Hnone. unfold convert_path.
  destruct (span_loop (text_step contents edits) [] edits) as [[a|v]|ex] eqn:Hloop.
  - exfalso. exact (Hnone a eq_refl).
  - cbn [snd]. exists v. split; [reflexivity|].
    eapply (span_loop_returns _ (labelled_failure "text")) in Hloop; [apply Hloop|].
    intros acc e v'. apply text_step_returns.
  - cbn [snd].
    destruct (failure_shape "conversion_failed" ("Edit conversion failed: " +:+ exn_str ex))
      as (r & Hr & Hs & Hd).
    rewrite Hr. destruct (with_norm_fresh r edits (Some "text") Hd) as [v Hv].
    exists v. split; [exact Hv|]. unfold failed.
    rewrite (with_norm_success _ _ _ _ Hv). exact Hs.
Qed.


Lemma span_loop_app (step : list dict → dict → res (flow (list dict))) (pre rest : list dict) :
  ∀ acc acc',
    span_loop step acc pre = Ok (Next acc') →
    span_loop step acc (pre ++ rest) = span_loop step acc' rest.
Proof.
  induction pre as [|x pre IH]; intros acc acc' H.
  - injection H as <-. reflexivity.
  - cbn [app span_loop] in H |- *.
    destruct (step acc x) as [[a|v]|]; cbn in H |- *; try discriminate.
    apply IH. exact H.
Qed.

(** What the text path answers to a [prepend] or an [append]. *)
Lemma text_step_unsupported_op (base_text : string) (echo_ : list dict) (at_edits : list dict)
    (e : dict) (op : string) :
  op_of e = Ok op → op = "prepend" ∨ op = "append" →
  ∃ v, text_step base_text echo_ at_edits e = Ok (Return v)
       ∧ field_of "code" v = Some (VStr "unsupported_op")
       ∧ field_of "message" v
         = Some (VStr ("Unsupported text edit op for server-side apply_text_edits: " +:+ op)).
Proof.
  intros Hop Hcase. unfold text_step. rewrite Hop, bind_Ok.
  set (msg := "Unsupported text edit op for server-side apply_text_edits: " +:+ op).
  assert (Hstep : ∃ v, @Return (list dict)
                         <$> _with_norm (failure "unsupported_op" msg) echo_ (Some "text")
                       = Ok (Return v)
                       ∧ field_of "code" v = Some (VStr "unsupported_op")
                       ∧ field_of "message" v = Some (VStr msg)).
  { destruct (failure_shape "unsupported_op" msg) as (r & Hr & _ & Hd).
    destruct (with_norm_fresh r echo_ (Some "text") Hd) as [v Hv].
    rewrite Hr, Hv. exists v. split; [reflexivity|].
    apply with_norm_dict in Hv as (data & -> & _).
    injection Hr as <-. unfold field_of.
    rewrite !lookup_insert_ne by discriminate. split; reflexivity. }
  destruct Hcase as [-> | ->]; cbn [String.eqb Ascii.eqb Bool.eqb]; exact Hstep.
Qed.

Lemma por_truthy (a b : value) : truthy a = true → a `or` b = a.
Proof. intros H. unfold por. rewrite H. reflexivity. Qed.

Lemma por_falsy (a b : value) : truthy a = false → a `or` b = b.
Proof. intros H. unfold por. rewrite H. reflexivity. Qed.

(** The text that the two conversion loops read agrees unless the edit
    gives it under [replacement] alone. *)
Lemma text_field_agrees (e : dict) :
  truthy (get e "text" `or` get e "insert" `or` get e "content") = true
  ∨ truthy (get e "replacement") = false →
  get e "text" `or` get e "insert" `or` get e "content" `or` get e "replacement" `or` VStr ""
  = get e "text" `or` get e "insert" `or` get e "content" `or` VStr "".
Proof.
  intros [H|H].
  - rewrite (por_truthy _ (get e "replacement")) by exact H. reflexivity.
  - destruct (truthy (get e "text" `or` get e "insert" `or` get e "content")) eqn:Ht.
    + rewrite (por_truthy _ (get e "replacement")) by exact Ht. reflexivity.
    + rewrite (por_falsy _ (get e "replacement")) by exact Ht.
      rewrite (por_falsy _ (VStr "")) by exact H.
      rewrite (por_falsy _ (VStr "")) by exact Ht. reflexivity.
Qed.

(** C5 (amended).  For a batch that is not empty and whose operations all
    belong to the text family, once the snapshot has been read the engine
    sends at most one further command: when the conversion of the whole
    batch goes through and yields at least one span, one [apply_text_edits]
    command with the list of spans and the [precondition_sha256] of the
    snapshot; otherwise nothing.  [replace_range] and [regex_replace] are
    the members of the family that convert: a [replace_range] that names its
    start line, to the span of its coordinates with its text; a
    [regex_replace] whose pattern matches, to the span of the selected match
    with the replacement text expanded; both for an edit that gives the text
    under [text], [insert] or [content], or that has no [replacement].  A
    batch that contains a
    [prepend] or an [append] is answered with a failure labelled ["text"]
    and nothing is written; when the entries before the first [prepend] or
    [append] convert, the failure is [unsupported_op] and its message names
    the operation. *)
Theorem text_batch_dispatch (unity : remote) (name path : string) (raw : list value)
    (options : option dict) (script_type : string) (namespace : value)
    (name' path' : string) (edits : list dict) (ops_set : list string)
    (r : dict) (contents : string) :
  normalize_script_locator name path = (name', path') →
  _normalize_edits raw name' = Ok edits →
  validate_edits edits edits = Ok None →
  mapM op_tag edits = Ok ops_set →
  ops_set ≠ [] →
  forallb (λ t, in_list t TEXT) ops_set = true →
  let read := mk (locator "read" name' path' namespace script_type) in
  unity [] read = VDict r →
  truthy (get r "success") = true →
  read_contents r = Ok (Next contents) →
  let out := script_apply_edits unity name path (VList raw) options script_type namespace in
  (∀ s at_edits,
     span_loop (text_step contents edits) [] edits = Ok (Next (s :: at_edits)) →
     out.1 = [read;
              text_command name' path' namespace script_type (s :: at_edits)
                           (sha256_hexdigest contents)
                           (span_options (default ∅ options) (s :: at_edits))])
  ∧ ((∀ s at_edits,
        span_loop (text_step contents edits) [] edits ≠ Ok (Next (s :: at_edits))) →
     out.1 = [read])
  ∧ (∀ e op,
       In e edits → op_of e = Ok op → op = "prepend" ∨ op = "append" →
       out.1 = [read] ∧ ∃ v, out.2 = Ok v ∧ failed v ∧ routing_of v = Some (VStr "text"))
  ∧ (∀ pre e post acc op,
       edits = pre ++ e :: post →
       span_loop (text_step contents edits) [] pre = Ok (Next acc) →
       op_of e = Ok op → op = "prepend" ∨ op = "append" →
       ∃ v, out = ([read], Ok v)
            ∧ failed v
            ∧ field_of "code" v = Some (VStr "unsupported_op")
            ∧ field_of "message" v
              = Some (VStr ("Unsupported text edit op for server-side apply_text_edits: "
                            +:+ op))
            ∧ routing_of v = Some (VStr "text"))
  ∧ (∀ acc e sl sc el ec,
       op_of e = Ok "replace_range" → has e "startLine" = true →
       py_int (get_or e "startLine" (VInt 1)) = Ok sl →
       py_int (get_or e "startCol" (VInt 1)) = Ok sc →
       py_int (get_or e "endLine" (VInt 1)) = Ok el →
       py_int (get_or e "endCol" (VInt 1)) = Ok ec →
       truthy (get e "text" `or` get e "insert" `or` get e "content") = true
       ∨ truthy (get e "replacement") = false →
       text_step contents edits acc e
       = Ok (Next (acc ++ [span sl sc el ec
                             (get e "text" `or` get e "insert" `or` get e "content"
                              `or` get e "replacement" `or` VStr "")])))
  ∧ (∀ acc e regex_obj m repl,
       op_of e = Ok "regex_replace" →
       re_compile (get e "pattern" `or` VStr "") (flags_of e) = Ok regex_obj →
       find_best_anchor_match regex_obj contents (flags_of e) true = Ok (Some m) →
       truthy (get e "text" `or` get e "insert" `or` get e "content") = true
       ∨ truthy (get e "replacement") = false →
       _expand_dollars m (get e "text" `or` get e "insert" `or` get e "content"
                          `or` get e "replacement" `or` VStr "")
       = Ok repl →
       text_step contents edits acc e
       = Ok (Next (acc ++ [span (line_col_from_index contents (m_start m)).1
                                (line_col_from_index contents (m_start m)).2
                                (line_col_from_index contents (m_end m)).1
                                (line_col_from_index contents (m_end m)).2
                                (VStr repl)]))).
Proof.
  intros Hloc Hnorm Hval Hops Hne Ht read Hread Hsucc Hcont out.
  pose proof (text_tags_not_struct ops_set Hne Ht) as Hs.
  assert (Hout : out = convert_path unity [read] name' path' namespace script_type
                         (default ∅ options) edits contents).
  { unfold out. erewrite router_read by eassumption. rewrite Ht. reflexivity. }
  destruct (convert_path_sent unity [read] name' path' namespace script_type
              (default ∅ options) edits contents) as [Hsome Hnone].
  split; [|split; [|split; [|split; [|split]]]].
  - intros s at_edits Hloop. rewrite Hout. apply Hsome. exact Hloop.
  - intros Hno. rewrite Hout. apply Hnone. exact Hno.
  - intros e op Hin Hop Hcase.
    assert (Hblocked : ∀ a, span_loop (text_step contents edits) [] edits ≠ Ok (Next a)).
    { intros a. apply (span_loop_blocked _ e); [|exact Hin].
      intros acc a'. eapply text_step_unsupported; eassumption. }
    rewrite Hout. split.
    + apply Hnone. intros s at_edits. apply Hblocked.
    + destruct (convert_path_failed unity [read] name' path' namespace script_type
                  (default ∅ options) edits contents Hblocked) as (v & Hv & Hf).
      exists v. split; [exact Hv|]. split; [exact Hf|].
      destruct (convert_path_labelled unity [read] name' path' namespace script_type
                  (default ∅ options) edits contents) as (v' & Hv' & Hl).
      rewrite Hv in Hv'. injection Hv' as <-. exact Hl.
  - intros pre e post acc op Hsplit Hpre Hop Hcase.
    destruct (text_step_unsupported_op contents edits acc e op Hop Hcase)
      as (v & Hstep & Hcode & Hmsg).
    assert (Hloop : span_loop (text_step contents edits) [] edits = Ok (Return v)).
    { rewrite Hsplit at 2. rewrite (span_loop_app _ pre (e :: post) [] acc Hpre).
      cbn [span_loop]. rewrite Hstep. reflexivity. }
    assert (Hconv : convert_path unity [read] name' path' namespace script_type
                      (default ∅ options) edits contents = ([read], Ok v)).
    { unfold convert_path. rewrite Hloop. reflexivity. }
    exists v. split; [rewrite Hout; exact Hconv|].
    apply text_step_returns in Hstep as [Hl Hf].
    split; [exact Hf|]. split; [exact Hcode|]. split; [exact Hmsg | exact Hl].
  - intros acc e sl sc el ec Hop Hhas Hsl Hsc Hel Hec Hagree.
    rewrite (text_field_agrees e Hagree). apply text_step_replace_range; assumption.
  - intros acc e regex_obj m repl Hop Hre Hm Hagree Hrepl.
    destruct (text_step_regex_replace contents edits acc e regex_obj Hop Hre) as [_ H].
    apply H; [exact Hm|]. rewrite <- (text_field_agrees e Hagree). exact Hrepl.
Qed.


End Routing.


Section AnchorMatcher.
Context {rt : Runtime}.

Lemma count_signatures_cons (ln : string) (l : list string) :
  count_signatures (ln :: l)
  = ((if _METHOD_SIGNATURE_PATTERN_search ln then 1 else 0) + count_signatures l)%Z.
Proof.
  unfold count_signatures. cbn [List.filter].
  destruct (_METHOD_SIGNATURE_PATTERN_search ln); cbn [length]; lia.
Qed.

Lemma count_signatures_nil : count_signatures [] = 0%Z.
Proof. reflexivity. Qed.

(** The window as a slice of the list of lines. *)
Lemma windowed_slice (lines : list string) :
  ∀ lo hi i,
    windowed lo hi i lines
    = count_signatures (List.firstn (Z.to_nat (hi + 1 - i) - Z.to_nat (lo - i))
                                    (List.skipn (Z.to_nat (lo - i)) lines)).
Proof.
  induction lines as [|ln r IH]; intros lo hi i.
  - cbn [windowed]. rewrite List.skipn_nil, List.firstn_nil. reflexivity.
  - cbn [windowed]. rewrite (IH lo hi (i + 1)%Z).
    destruct (Z.leb_spec lo i) as [Hlo|Hlo].
    + replace (Z.to_nat (lo - i)) with 0%nat by lia.
      replace (Z.to_nat (lo - (i + 1))) with 0%nat by lia.
      cbn [List.skipn]. rewrite !Nat.sub_0_r.
      destruct (Z.leb_spec i hi) as [Hhi|Hhi].
      * replace (Z.to_nat (hi + 1 - i)) with (S (Z.to_nat (hi + 1 - (i + 1)))) by lia.
        cbn [List.firstn andb]. rewrite count_signatures_cons. reflexivity.
      * replace (Z.to_nat (hi + 1 - i)) with 0%nat by lia.
        replace (Z.to_nat (hi + 1 - (i + 1))) with 0%nat by lia.
        cbn [List.firstn andb]. reflexivity.
    + replace (Z.to_nat (lo - i)) with (S (Z.to_nat (lo - (i + 1)))) by lia.
      cbn [List.skipn andb].
      replace (Z.to_nat (hi + 1 - i) - S (Z.to_nat (lo - (i + 1))))%nat
        with (Z.to_nat (hi + 1 - (i + 1)) - Z.to_nat (lo - (i + 1)))%nat by lia.
      lia.
Qed.

Lemma firstn_clip {A} (n : nat) (l : list A) :
  List.firstn n l = List.firstn (Nat.min n (length l)) l.
Proof.
  destruct (Nat.le_ge_cases n (length l)) as [H|H].
  - rewrite Nat.min_l by exact H. reflexivity.
  - rewrite Nat.min_r by exact H. rewrite !List.firstn_all2 by lia. reflexivity.
Qed.

(** The context lines of the scoring pass are the lines of the window
    [line_num - 3 .. line_num + 1]. *)
Lemma context_lines_window (lines : list string) (line_num : Z) :
  (0 ≤ line_num)%Z →
  count_signatures (slice lines (Z.max 0 (line_num - 3))
                          (Z.min (Z.of_nat (length lines)) (line_num + 2)))
  = windowed (line_num - 3) (line_num + 1) 0 lines.
Proof.
  intros Hln. rewrite windowed_slice. unfold slice.
  replace (Z.to_nat (Z.max 0 (line_num - 3))) with (Z.to_nat (line_num - 3 - 0)) by lia.
  set (s := Z.to_nat (line_num - 3 - 0)).
  rewrite (firstn_clip (Z.to_nat (line_num + 1 + 1 - 0) - s)).
  rewrite (firstn_clip (Z.to_nat (Z.min (Z.of_nat (length lines)) (line_num + 2)) - s)).
  rewrite List.length_skipn. f_equal. f_equal. lia.
Qed.

Lemma line_of_nonneg (text : string) (m : re_match) : (0 ≤ line_of (line_starts text) m)%Z.
Proof. unfold line_of, line_starts. cbn [bisect_right Nat.leb]. lia. Qed.

(** The score of a match, by the line on which it starts. *)
Lemma match_score_formula (text : string) (m : re_match) :
  let lines := PyStr.splitlines false text in
  let starts := line_starts text in
  match_score lines starts m
  = if (line_of starts m <? Z.of_nat (length lines))%Z
    then score_formula 1 lines (line_of starts m)
    else 0%Z.
Proof.
  intros lines starts. unfold match_score. fold (line_of starts m).
  destruct (line_of starts m <? Z.of_nat (length lines))%Z; [|reflexivity].
  unfold score_formula.
  rewrite (context_lines_window lines (line_of starts m) (line_of_nonneg text m)).
  destruct ((indentation_of _ <=? 4)%Z && (_ <=? 3)%Z); lia.
Qed.

(** *** The window *)

Lemma windowed_nonneg (lines : list string) : ∀ lo hi i, (0 ≤ windowed lo hi i lines)%Z.
Proof.
  induction lines as [|ln r IH]; intros lo hi i; cbn [windowed]; [lia|].
  specialize (IH lo hi (i + 1)%Z).
  destruct ((lo <=? i)%Z && (i <=? hi)%Z && _METHOD_SIGNATURE_PATTERN_search ln); lia.
Qed.

Lemma windowed_mono (lines : list string) :
  ∀ lo hi lo' hi' i,
    (lo' ≤ lo)%Z → (hi ≤ hi')%Z → (windowed lo hi i lines ≤ windowed lo' hi' i lines)%Z.
Proof.
  induction lines as [|ln r IH]; intros lo hi lo' hi' i Hlo Hhi; cbn [windowed]; [lia|].
  specialize (IH lo hi lo' hi' (i + 1)%Z Hlo Hhi).
  destruct (Z.leb_spec lo i), (Z.leb_spec i hi), (Z.leb_spec lo' i), (Z.leb_spec i hi'),
           (_METHOD_SIGNATURE_PATTERN_search ln); cbn [andb]; lia.
Qed.

Lemma windowed_bound (lines : list string) :
  ∀ lo hi i, (windowed lo hi i lines ≤ Z.max 0 (hi - Z.max lo i + 1))%Z.
Proof.
  induction lines as [|ln r IH]; intros lo hi i; cbn [windowed]; [lia|].
  specialize (IH lo hi (i + 1)%Z).
  destruct (Z.leb_spec lo i), (Z.leb_spec i hi), (_METHOD_SIGNATURE_PATTERN_search ln);
    cbn [andb]; lia.
Qed.

(** Lines above [hi'] that are past the end or do not look like a signature
    can be left out of the window. *)
Lemma windowed_drop_top (lines : list string) :
  ∀ lo hi hi' i,
    (hi' ≤ hi)%Z →
    (∀ k, (k < length lines)%nat → (hi' < i + Z.of_nat k ≤ hi)%Z →
          _METHOD_SIGNATURE_PATTERN_search (List.nth k lines EmptyString) = false) →
    windowed lo hi i lines = windowed lo hi' i lines.
Proof.
  induction lines as [|ln r IH]; intros lo hi hi' i Hle Hout; cbn [windowed]; [reflexivity|].
  assert (Hsig : (hi' < i ≤ hi)%Z → _METHOD_SIGNATURE_PATTERN_search ln = false).
  { intros Hrange. apply (Hout 0%nat); cbn [length]; lia. }
  rewrite (IH lo hi hi' (i + 1)%Z Hle).
  - destruct (Z.leb_spec i hi'), (Z.leb_spec i hi), (Z.leb_spec lo i);
      cbn [andb]; try lia.
    rewrite Hsig by lia. reflexivity.
  - intros k Hk Hrange. apply (Hout (S k)); cbn [length]; lia.
Qed.

(** *** The selection *)

Lemma sort_scored_head (score : re_match → Z) (matches : list re_match) :
  match List.head (sort_scored (List.map (λ m, (score m, m)) matches)) with
  | None => matches = []
  | Some y => y.1 = score y.2 ∧ first_best score matches y.2
  end.
Proof.
  induction matches as [|x l IH]; [reflexivity|].
  cbn [List.map sort_scored List.fold_right]. fold (sort_scored (List.map (λ m, (score m, m)) l)).
  destruct (sort_scored (List.map (λ m, (score m, m)) l)) as [|y s].
  - cbn in IH. subst l. cbn. split; [reflexivity|].
    exists [], []. split; [reflexivity|]. split; intros ? [].
  - cbn [List.head] in IH. destruct IH as [Hy (pre & post & Hl & Hpre & Hpost)].
    cbn [insert_scored fst]. destruct (Z.ltb_spec (score x) y.1) as [Hlt|Hge]; cbn [List.head].
    + split; [exact Hy|]. exists (x :: pre), post. rewrite Hl. split; [reflexivity|].
      split; [|exact Hpost].
      intros z [<-|Hz]; [lia | apply Hpre, Hz].
    + cbn [fst snd]. split; [reflexivity|]. exists [], l. split; [reflexivity|].
      split; [intros ? []|].
      intros z Hz. rewrite Hl in Hz. apply in_app_or in Hz as [Hz|[<-|Hz]].
      * specialize (Hpre z Hz). lia.
      * lia.
      * specialize (Hpost z Hz). lia.
Qed.

(** The scoring pass returns the first match of the highest score. *)
Lemma best_match_is_first_best (matches : list re_match) (text : string) :
  matches ≠ [] →
  ∃ m, _find_best_closing_brace_match matches text = Some m
       ∧ first_best (match_score (PyStr.splitlines false text) (line_starts text)) matches m.
Proof.
  intros Hne. unfold _find_best_closing_brace_match.
  destruct matches as [|x l]; [contradiction|].
  pose proof (sort_scored_head (match_score (PyStr.splitlines false text) (line_starts text))
                (x :: l)) as H.
  destruct (List.head _) as [y|]; [|discriminate].
  exists y.2. split; [reflexivity | apply H].
Qed.

Lemma best_of_two (mA mB : re_match) (text : string) :
  (match_score (PyStr.splitlines false text) (line_starts text) mA
   < match_score (PyStr.splitlines false text) (line_starts text) mB)%Z →
  _find_best_closing_brace_match [mA; mB] text = Some mB.
Proof.
  intros Hlt. unfold _find_best_closing_brace_match.
  cbn [List.map sort_scored List.fold_right insert_scored fst].
  destruct (Z.ltb_spec (match_score (PyStr.splitlines false text) (line_starts text) mA)
                       (match_score (PyStr.splitlines false text) (line_starts text) mB));
    [reflexivity | lia].
Qed.

(** *** The brace on the last line *)

Lemma last_line_brace_scores_higher (lines : list string) (lnA lnB : Z) :
  (0 ≤ lnA)%Z → (lnA < lnB)%Z → lnB = (Z.of_nat (length lines) - 1)%Z →
  indentation_of (List.nth (Z.to_nat lnA) lines EmptyString)
  = indentation_of (List.nth (Z.to_nat lnB) lines EmptyString) →
  (indentation_of (List.nth (Z.to_nat lnB) lines EmptyString) ≤ 4)%Z →
  _METHOD_SIGNATURE_PATTERN_search (List.nth (Z.to_nat lnB) lines EmptyString) = false →
  (score_formula 1 lines lnA < score_formula 1 lines lnB)%Z.
Proof.
  intros HA Hlt HB Hind Hle Hsig. unfold score_formula. rewrite Hind.
  set (ind := indentation_of (List.nth (Z.to_nat lnB) lines EmptyString)) in *.
  assert (HpB : windowed (lnB - 3) (lnB + 1) 0 lines = windowed (lnB - 3) (lnB - 1) 0 lines).
  { apply windowed_drop_top; [lia|]. intros k Hk Hrange.
    assert (k = Z.to_nat lnB) as -> by lia. exact Hsig. }
  rewrite HpB.
  pose proof (windowed_bound lines (lnB - 3) (lnB - 1) 0) as Hbound.
  pose proof (windowed_nonneg lines (lnA - 3) (lnA + 1) 0) as HpA.
  pose proof (windowed_nonneg lines (lnB - 3) (lnB - 1) 0) as HpB0.
  destruct (Z.leb_spec ind 4) as [_|?]; [|lia]. cbn [andb].
  destruct (Z.leb_spec (Z.of_nat (length lines) - lnB) 3) as [_|?]; [|lia].
  destruct (Z.leb_spec (Z.of_nat (length lines) - lnA) 3) as [Hnear|Hfar].
  - pose proof (windowed_mono lines (lnB - 3) (lnB - 1) (lnA - 3) (lnA + 1) 0) as Hmono.
    lia.
  - lia.
Qed.


Lemma find_best_anchor_match_many (pattern text : string) (flags : re_flags)
    (matches : list re_match) (prefer_last : bool) :
  re_finditer pattern text flags = Ok matches →
  (2 ≤ length matches)%nat →
  is_closing_brace_pattern pattern = true →
  find_best_anchor_match pattern text flags prefer_last
  = Ok (if prefer_last then _find_best_closing_brace_match matches text
        else List.head matches).
Proof.
  intros Hre Hlen Hshape. unfold find_best_anchor_match. rewrite Hre, bind_Ok.
  destruct matches as [|m1 [|m2 l]]; cbn [length] in Hlen; try lia.
  unfold is_closing_brace_pattern in Hshape. rewrite Hshape.
  destruct prefer_last; reflexivity.
Qed.

(** C7 (amended).  When at least two matches exist for a closing-brace-shaped
    anchor pattern and the caller prefers the last match, each match that
    starts on a line of the buffer is scored as
    [max(0, 20 - indentation) + max(0, 10 - distanceFromEnd)], minus 5 for
    each line that looks like a method signature in the window of 3 lines
    before the match line, the match line itself and 1 line after it, plus
    15 when [indentation <= 4] and [distanceFromEnd <= 3] (a match that
    starts past the last line scores 0); the first match of the highest
    score is returned.  When the caller does not prefer the last match, the
    first match is returned without scoring.  Consequently, when there are
    exactly two matches, the later starts on the last line of the buffer,
    the earlier on a line before it, the two lines have the same indentation
    of at most 4 and the last line does not itself look like a method
    signature, the later match is returned.  The line of a match is the line
    of its first character, which for a pattern that begins with white space
    can be the line above the brace. *)
Theorem closing_brace_scoring (pattern text : string) (flags : re_flags)
    (matches : list re_match) :
  re_finditer pattern text flags = Ok matches →
  (2 ≤ length matches)%nat →
  is_closing_brace_pattern pattern = true →
  let lines := PyStr.splitlines false text in
  let starts := line_starts text in
  let score := match_score lines starts in
  find_best_anchor_match pattern text flags true
  = Ok (_find_best_closing_brace_match matches text)
  ∧ find_best_anchor_match pattern text flags false = Ok (List.head matches)
  ∧ (∀ m, score m = if (line_of starts m <? Z.of_nat (length lines))%Z
                    then score_formula 1 lines (line_of starts m)
                    else 0%Z)
  ∧ (∃ m, _find_best_closing_brace_match matches text = Some m
          ∧ first_best score matches m)
  ∧ (∀ mA mB,
       matches = [mA; mB] →
       (line_of starts mA < line_of starts mB)%Z →
       line_of starts mB = (Z.of_nat (length lines) - 1)%Z →
       indentation_of (List.nth (Z.to_nat (line_of starts mA)) lines EmptyString)
       = indentation_of (List.nth (Z.to_nat (line_of starts mB)) lines EmptyString) →
       (indentation_of (List.nth (Z.to_nat (line_of starts mB)) lines EmptyString) ≤ 4)%Z →
       _METHOD_SIGNATURE_PATTERN_search
         (List.nth (Z.to_nat (line_of starts mB)) lines EmptyString) = false →
       find_best_anchor_match pattern text flags true = Ok (Some mB)).
Proof.
  intros Hre Hlen Hshape lines starts score.
  pose proof (find_best_anchor_match_many pattern text flags matches true Hre Hlen Hshape)
    as Hlast.
  pose proof (find_best_anchor_match_many pattern text flags matches false Hre Hlen Hshape)
    as Hfirst.
  cbv iota in Hlast, Hfirst.
  split; [exact Hlast|]. split; [exact Hfirst|]. split; [|split].
  - intros m. apply match_score_formula.
  - apply best_match_is_first_best. destruct matches; [cbn in Hlen; lia | discriminate].
  - intros mA mB -> Hlt HB Hind Hle Hsig. rewrite Hlast. f_equal.
    apply best_of_two. fold lines starts.
    rewrite !(match_score_formula text). fold lines starts.
    pose proof (line_of_nonneg text mA) as HA0. fold starts in HA0.
    destruct (Z.ltb_spec (line_of starts mA) (Z.of_nat (length lines))) as [_|?]; [|lia].
    destruct (Z.ltb_spec (line_of starts mB) (Z.of_nat (length lines))) as [_|?]; [|lia].
    apply last_line_brace_scores_higher; assumption.
Qed.


End AnchorMatcher.


Section Normalizer.
Context {rt : Runtime}.

Lemma has_insert_ne (e : dict) (k j : string) (v : value) :
  k ≠ j → has (<[k := v]> e) j = has e j.
Proof. intros H. unfold has. rewrite lookup_insert_ne by exact H. reflexivity. Qed.

Lemma has_insert_eq (e : dict) (k : string) (v : value) : has (<[k := v]> e) k = true.
Proof. unfold has. rewrite lookup_insert_eq. reflexivity. Qed.

Lemma has_delete_ne (e : dict) (k j : string) : k ≠ j → has (delete k e) j = has e j.
Proof. intros H. unfold has. rewrite lookup_delete_ne by exact H. reflexivity. Qed.

Lemma has_true (e : dict) (k : string) (v : value) : e !! k = Some v → has e k = true.
Proof. intros H. unfold has. rewrite H. reflexivity. Qed.

Lemma has_false (e : dict) (k : string) : e !! k = None → has e k = false.
Proof. intros H. unfold has. rewrite H. reflexivity. Qed.

Lemma get_insert_ne (e : dict) (k j : string) (v : value) :
  k ≠ j → get (<[k := v]> e) j = get e j.
Proof. intros H. unfold get. rewrite lookup_insert_ne by exact H. reflexivity. Qed.

Lemma get_insert_eq (e : dict) (k : string) (v : value) : get (<[k := v]> e) k = v.
Proof. unfold get. rewrite lookup_insert_eq. reflexivity. Qed.

Lemma get_or_insert_ne (e : dict) (k j : string) (v d : value) :
  k ≠ j → get_or (<[k := v]> e) j d = get_or e j d.
Proof. intros H. unfold get_or. rewrite lookup_insert_ne by exact H. reflexivity. Qed.

Lemma in_list_false (s : string) (l : list string) : in_list s l = false → ¬ In s l.
Proof. intros H Hin. apply in_list_In in Hin. congruence. Qed.

(** *** One alias *)

(** An alias of another field passes by. *)
Lemma alias_field_insert_ne (src dst k : string) (v : value) (s : dict) :
  k ≠ src → k ≠ dst →
  alias_field src dst (<[k := v]> s) = <[k := v]> (alias_field src dst s).
Proof.
  intros Hs Hd. unfold alias_field.
  rewrite !has_insert_ne by exact Hs || exact Hd.
  destruct (has s src && negb (has s dst)); [|reflexivity].
  rewrite get_insert_ne by exact Hs.
  rewrite delete_insert_ne by congruence.
  apply insert_insert_ne. congruence.
Qed.

(** An alias that is absent does nothing. *)
Lemma alias_field_absent (src dst : string) (e : dict) :
  e !! src = None → alias_field src dst e = e.
Proof. intros H. unfold alias_field. rewrite (has_false e src H). reflexivity. Qed.

(** The alias itself: the value moves to the canonical name. *)
Lemma alias_field_moves (a c : string) (v : value) (s : dict) :
  a ≠ c → s !! a = None → s !! c = None →
  alias_field a c (<[a := v]> s) = <[c := v]> s.
Proof.
  intros Hac Ha Hc. unfold alias_field.
  rewrite has_insert_eq, has_insert_ne, (has_false s c Hc) by exact Hac. cbn [negb andb].
  rewrite get_insert_eq, delete_insert_eq, (delete_id s a Ha). reflexivity.
Qed.

(** The canonical name is present: the alias is not consulted. *)
Lemma alias_field_kept (a c : string) (v : value) (s : dict) :
  alias_field a c (<[c := v]> s) = <[c := v]> s.
Proof.
  unfold alias_field. rewrite has_insert_eq. cbn [negb]. rewrite andb_false_r. reflexivity.
Qed.

Lemma alias_field_lacks (src dst : string) (s : dict) (keys : list string) :
  ¬ In dst keys → lacks s keys → lacks (alias_field src dst s) keys.
Proof.
  intros Hd Hl k Hk. unfold alias_field.
  destruct (has s src && negb (has s dst)); [|apply Hl, Hk].
  rewrite lookup_insert_ne by (intros ->; contradiction).
  destruct (decide (src = k)) as [->|Hne].
  - apply lookup_delete_eq.
  - rewrite lookup_delete_ne by exact Hne. apply Hl, Hk.
Qed.

(** *** Twin dictionaries through the steps *)

Lemma spellings_canon (c : string) : In c (spellings c).
Proof. left. reflexivity. Qed.

Lemma twin_alias_field (a c : string) (v : value) (src dst : string) (X Y : dict) :
  In a (spellings c) →
  passable a c [(src, dst)] = true →
  twin a c v X Y →
  twin a c v (alias_field src dst X) (alias_field src dst Y).
Proof.
  intros Ha Hpass (s & Hl & -> & ->). unfold passable in Hpass. cbn [forallb fst snd] in Hpass.
  rewrite andb_true_r in Hpass. apply orb_true_iff in Hpass as [Hother|Hsame].
  - apply andb_true_iff in Hother as [Hs Hd].
    apply negb_true_iff, in_list_false in Hs. apply negb_true_iff, in_list_false in Hd.
    exists (alias_field src dst s). split; [apply alias_field_lacks; assumption|].
    split; apply alias_field_insert_ne; intros ->;
      (contradiction || (apply Hs, spellings_canon) || (apply Hd, spellings_canon)).
  - apply andb_true_iff in Hsame as [Hsame Hc]. apply andb_true_iff in Hsame as [Hin Hna].
    apply in_list_In in Hin. apply negb_true_iff, String.eqb_neq in Hna, Hc.
    exists s. split; [exact Hl|].
    split; apply alias_field_absent; rewrite lookup_insert_ne by congruence; apply Hl, Hin.
Qed.

Lemma twin_aliases (a c : string) (v : value) (l : list (string * string)) :
  In a (spellings c) →
  passable a c l = true →
  ∀ X Y, twin a c v X Y → twin a c v (apply_aliases l X) (apply_aliases l Y).
Proof.
  intros Ha. induction l as [|[src dst] l IH]; intros Hpass X Y Htwin; [exact Htwin|].
  unfold passable in Hpass. cbn [forallb] in Hpass. apply andb_true_iff in Hpass as [Hp Hl].
  unfold apply_aliases. cbn [List.fold_left fst snd]. apply (IH Hl).
  apply twin_alias_field; [exact Ha | | exact Htwin].
  unfold passable. cbn [forallb]. rewrite Hp. reflexivity.
Qed.

Lemma twin_merge (a c : string) (v : value) (X Y : dict) :
  a ≠ c → In a (spellings c) → twin a c v X Y → alias_field a c X = alias_field a c Y.
Proof.
  intros Hac Ha (s & Hl & -> & ->).
  rewrite alias_field_moves
    by first [exact Hac | apply Hl; exact Ha | apply Hl; apply spellings_canon].
  rewrite alias_field_kept. reflexivity.
Qed.

Lemma apply_aliases_app (l1 l2 : list (string * string)) (e : dict) :
  apply_aliases (l1 ++ l2) e = apply_aliases l2 (apply_aliases l1 e).
Proof. unfold apply_aliases. apply List.fold_left_app. Qed.

(** A list of aliases that resolves [a] to [c] after aliases that pass by
    brings twin dictionaries together. *)
Lemma twin_aliases_merge (a c : string) (v : value) (l1 l2 : list (string * string))
    (X Y : dict) :
  a ≠ c → In a (spellings c) → passable a c l1 = true → twin a c v X Y →
  apply_aliases (l1 ++ (a, c) :: l2) X = apply_aliases (l1 ++ (a, c) :: l2) Y.
Proof.
  intros Hac Ha Hpass Htwin. rewrite !apply_aliases_app.
  unfold apply_aliases at 1 3. cbn [List.fold_left fst snd]. fold (apply_aliases l2).
  f_equal. apply (twin_merge a c v); [exact Hac | exact Ha|].
  apply twin_aliases; assumption.
Qed.

Lemma avoids_not_in (c : string) (keys : list string) (k : string) :
  avoids c keys = true → In k keys → ¬ In k (spellings c).
Proof.
  unfold avoids. rewrite forallb_forall. intros H Hk.
  apply in_list_false, negb_true_iff, H, Hk.
Qed.

Lemma twin_lookup (a c : string) (v : value) (X Y : dict) (k : string) :
  In a (spellings c) → ¬ In k (spellings c) → twin a c v X Y → X !! k = Y !! k.
Proof.
  intros Ha Hk (s & _ & -> & ->).
  rewrite !lookup_insert_ne; [reflexivity| |]; intros ->;
    [apply Hk, spellings_canon | contradiction].
Qed.

Lemma twin_insert (a c : string) (v : value) (X Y : dict) (k : string) (w : value) :
  In a (spellings c) → ¬ In k (spellings c) → twin a c v X Y →
  twin a c v (<[k := w]> X) (<[k := w]> Y).
Proof.
  intros Ha Hk (s & Hl & -> & ->). exists (<[k := w]> s). split; [|split].
  - intros g Hg. rewrite lookup_insert_ne by (intros ->; contradiction). apply Hl, Hg.
  - apply insert_insert_ne. intros ->. contradiction.
  - apply insert_insert_ne. intros ->. apply Hk, spellings_canon.
Qed.

Lemma twin_delete (a c : string) (v : value) (X Y : dict) (k : string) :
  In a (spellings c) → ¬ In k (spellings c) → twin a c v X Y →
  twin a c v (delete k X) (delete k Y).
Proof.
  intros Ha Hk (s & Hl & -> & ->). exists (delete k s). split; [|split].
  - intros g Hg. destruct (decide (k = g)) as [->|Hne]; [apply lookup_delete_eq|].
    rewrite lookup_delete_ne by exact Hne. apply Hl, Hg.
  - apply delete_insert_ne. intros ->. contradiction.
  - apply delete_insert_ne. intros ->. apply Hk, spellings_canon.
Qed.

Lemma twin_get (a c : string) (v : value) (X Y : dict) (k : string) :
  In a (spellings c) → ¬ In k (spellings c) → twin a c v X Y → get X k = get Y k.
Proof. intros Ha Hk Ht. unfold get. rewrite (twin_lookup a c v X Y k Ha Hk Ht). reflexivity. Qed.

Lemma twin_has (a c : string) (v : value) (X Y : dict) (k : string) :
  In a (spellings c) → ¬ In k (spellings c) → twin a c v X Y → has X k = has Y k.
Proof. intros Ha Hk Ht. unfold has. rewrite (twin_lookup a c v X Y k Ha Hk Ht). reflexivity. Qed.

(** The resolution of the operation name reads none of the fields. *)
Lemma twin_op_of (a c : string) (v : value) (X Y : dict) :
  In a (spellings c) → avoids c ["op"; "operation"; "type"; "mode"] = true →
  twin a c v X Y → op_of X = op_of Y.
Proof.
  intros Ha Hav Ht. unfold op_of.
  rewrite (twin_get a c v X Y "op"), (twin_get a c v X Y "operation"),
    (twin_get a c v X Y "type"), (twin_get a c v X Y "mode");
    try assumption; try reflexivity;
    apply (avoids_not_in c ["op"; "operation"; "type"; "mode"]); try exact Hav;
    cbn; tauto.
Qed.

Lemma twin_anchor_method (a c : string) (v : value) (X Y : dict) :
  In a (spellings c) →
  avoids c ["anchor_method"; "position"; "beforeMethodName"; "afterMethodName"] = true →
  twin a c v X Y →
  twin_res a c v (alias_anchor_method X) (alias_anchor_method Y).
Proof.
  intros Ha Hav Ht.
  assert (Hk : ∀ k, In k ["anchor_method"; "position"; "beforeMethodName"; "afterMethodName"]
                    → ¬ In k (spellings c)) by (intros k; apply avoids_not_in, Hav).
  unfold alias_anchor_method.
  rewrite (twin_lookup a c v X Y "anchor_method" Ha (Hk "anchor_method" ltac:(cbn; tauto)) Ht).
  destruct (Y !! "anchor_method") as [anchor|]; [|exact Ht].
  assert (Htd : twin a c v (delete "anchor_method" X) (delete "anchor_method" Y))
    by (apply twin_delete; [exact Ha | apply Hk; cbn; tauto | exact Ht]).
  rewrite (twin_get a c v _ _ "position" Ha (Hk "position" ltac:(cbn; tauto)) Htd).
  destruct (str_attr _) as [pos|ex]; [|reflexivity]. rewrite !bind_Ok.
  rewrite (twin_has a c v _ _ "beforeMethodName" Ha (Hk "beforeMethodName" ltac:(cbn; tauto)) Htd).
  rewrite (twin_has a c v _ _ "afterMethodName" Ha (Hk "afterMethodName" ltac:(cbn; tauto)) Htd).
  destruct (String.eqb _ "before" && negb _).
  - apply twin_insert; [exact Ha | apply Hk; cbn; tauto | exact Htd].
  - destruct (negb _).
    + apply twin_insert; [exact Ha | apply Hk; cbn; tauto | exact Htd].
    + exact Htd.
Qed.

Lemma twin_pattern (a c : string) (v : value) (X Y : dict) :
  In a (spellings c) →
  avoids c ["pattern"; "anchor"; "op"] = true →
  twin a c v X Y →
  twin_res a c v (alias_pattern X) (alias_pattern Y).
Proof.
  intros Ha Hav Ht.
  assert (Hk : ∀ k, In k ["pattern"; "anchor"; "op"] → ¬ In k (spellings c))
    by (intros k; apply avoids_not_in, Hav).
  unfold alias_pattern.
  rewrite (twin_has a c v X Y "pattern" Ha (Hk "pattern" ltac:(cbn; tauto)) Ht).
  rewrite (twin_has a c v X Y "anchor" Ha (Hk "anchor" ltac:(cbn; tauto)) Ht).
  rewrite (twin_get a c v X Y "op" Ha (Hk "op" ltac:(cbn; tauto)) Ht).
  rewrite (twin_get a c v X Y "pattern" Ha (Hk "pattern" ltac:(cbn; tauto)) Ht).
  destruct (has Y "pattern" && negb (has Y "anchor") && truthy (get Y "op")); [|exact Ht].
  destruct (str_attr (get Y "op")) as [op|ex]; [|reflexivity]. rewrite !bind_Ok.
  destruct (PyStr.startswith op "anchor_"); [|exact Ht].
  apply twin_insert; [exact Ha | apply Hk; cbn; tauto|].
  apply twin_delete; [exact Ha | apply Hk; cbn; tauto | exact Ht].
Qed.


(** *** The last steps *)

Lemma lsp_range_edit (edit1 edit2 e : dict) :
  edit1 !! "newText" = edit2 !! "newText" → lsp_range edit1 e = lsp_range edit2 e.
Proof.
  intros H.
  assert (Hh : has edit1 "newText" = has edit2 "newText") by (unfold has; rewrite H; reflexivity).
  assert (Hg : get_or edit1 "newText" (VStr "") = get_or edit2 "newText" (VStr ""))
    by (unfold get_or; rewrite H; reflexivity).
  unfold lsp_range. rewrite Hh, Hg. reflexivity.
Qed.

Lemma lsp_range_text (edit1 edit2 e : dict) :
  has e "text" = true → lsp_range edit1 e = lsp_range edit2 e.
Proof.
  intros H. unfold lsp_range.
  destruct (e !! "range") as [[| | | | |rng]|]; try reflexivity.
  destruct (dict_attr (get_or rng "start" _)) as [start|]; [|reflexivity]. rewrite !bind_Ok.
  destruct (py_int (get_or start "line" _)) as [sl|]; [|reflexivity]. rewrite !bind_Ok.
  destruct (py_int (get_or start "character" _)) as [sc|]; [|reflexivity]. rewrite !bind_Ok.
  destruct (dict_attr (get_or rng "end" _)) as [end_|]; [|reflexivity]. rewrite !bind_Ok.
  destruct (py_int (get_or end_ "line" _)) as [el|]; [|reflexivity]. rewrite !bind_Ok.
  destruct (py_int (get_or end_ "character" _)) as [ec|]; [|reflexivity]. rewrite !bind_Ok.
  rewrite !has_insert_ne, has_delete_ne, H by discriminate.
  cbn [negb]. rewrite !andb_false_r. reflexivity.
Qed.

Lemma upgrade_has_text (e : dict) :
  has e "text" = true → has (upgrade_anchor_insert e) "text" = true.
Proof.
  intros H. unfold upgrade_anchor_insert.
  destruct (str_eqb _ _ && _ && _); [|exact H].
  destruct (negb _); rewrite !has_insert_ne by discriminate; exact H.
Qed.

(** *** The unwrapping loop *)

(** A key that is not a wrapper key is either kept by the loop, or dropped
    with the rest of the outer dictionary. *)
Lemma unwrap_insert (keys : list string) (e : dict) :
  (∀ k v, ¬ In k keys → unwrap keys (<[k := v]> e) = <[k := v]> e)
  ∨ (∀ k v, ¬ In k keys → unwrap keys (<[k := v]> e) = unwrap keys e).
Proof.
  induction keys as [|key rest IH].
  - left. reflexivity.
  - assert (Hne : ∀ k, ¬ In k (key :: rest) → k ≠ key ∧ ¬ In k rest).
    { intros k Hk. split; [intros ->; apply Hk; left; reflexivity|].
      intros Hin. apply Hk. right. exact Hin. }
    destruct (e !! key) as [w|] eqn:He.
    + destruct w as [| | | | |inner];
        try (destruct IH as [IH|IH]; [left|right]; intros k v Hk;
             destruct (Hne k Hk) as [Hk1 Hk2]; cbn [unwrap];
             rewrite lookup_insert_ne, He by exact Hk1; apply IH; exact Hk2).
      right. intros k v Hk. destruct (Hne k Hk) as [Hk1 _]. cbn [unwrap].
      rewrite lookup_insert_ne, He by exact Hk1. reflexivity.
    + destruct IH as [IH|IH]; [left|right]; intros k v Hk;
        destruct (Hne k Hk) as [Hk1 Hk2]; cbn [unwrap];
        rewrite lookup_insert_ne, He by exact Hk1; apply IH; exact Hk2.
Qed.

(** *** Alias invariance of the field resolution *)

Ltac in_spellings := vm_compute; tauto.
Ltac not_in_spellings := vm_compute; intuition discriminate.
Lemma twin_set_op (a c : string) (v : value) (X Y : dict) (op : string) :
  In a (spellings c) → ¬ In "op" (spellings c) → twin a c v X Y →
  twin a c v (if negb (PyStr.is_empty op) then <["op" := VStr op]> X else X)
             (if negb (PyStr.is_empty op) then <["op" := VStr op]> Y else Y).
Proof.
  intros Ha Hop Ht. destruct (negb _); [apply twin_insert; assumption | exact Ht].
Qed.

(** What is used of the table [common_aliases]. *)
Lemma common_alias_facts (a c : string) :
  In (a, c) common_aliases →
  a ≠ c ∧ In a (spellings c)
  ∧ avoids c ["op"; "operation"; "type"; "mode"; "newText"] = true
  ∧ ∃ l1 l2, common_aliases = l1 ++ (a, c) :: l2 ∧ passable a c l1 = true.
Proof.
  intros Hin. cbn in Hin.
  repeat (destruct Hin as [[= <- <-]|Hin]); try contradiction;
    (split; [discriminate|]; split; [in_spellings|]; split; [vm_compute; reflexivity|]);
    first
      [ exists (List.firstn 0 common_aliases), (List.skipn 1 common_aliases);
        split; vm_compute; reflexivity
      | exists (List.firstn 1 common_aliases), (List.skipn 2 common_aliases);
        split; vm_compute; reflexivity
      | exists (List.firstn 2 common_aliases), (List.skipn 3 common_aliases);
        split; vm_compute; reflexivity
      | exists (List.firstn 3 common_aliases), (List.skipn 4 common_aliases);
        split; vm_compute; reflexivity
      | exists (List.firstn 4 common_aliases), (List.skipn 5 common_aliases);
        split; vm_compute; reflexivity
      | exists (List.firstn 5 common_aliases), (List.skipn 6 common_aliases);
        split; vm_compute; reflexivity
      | exists (List.firstn 6 common_aliases), (List.skipn 7 common_aliases);
        split; vm_compute; reflexivity
      | exists (List.firstn 7 common_aliases), (List.skipn 8 common_aliases);
        split; vm_compute; reflexivity
      | exists (List.firstn 8 common_aliases), (List.skipn 9 common_aliases);
        split; vm_compute; reflexivity
      | exists (List.firstn 9 common_aliases), (List.skipn 10 common_aliases);
        split; vm_compute; reflexivity
      | exists (List.firstn 10 common_aliases), (List.skipn 11 common_aliases);
        split; vm_compute; reflexivity
      | exists (List.firstn 11 common_aliases), (List.skipn 12 common_aliases);
        split; vm_compute; reflexivity
      | exists (List.firstn 12 common_aliases), (List.skipn 13 common_aliases);
        split; vm_compute; reflexivity ].
Qed.

Lemma alias_fields_common (a c : string) (v : value) (X Y : dict) :
  In (a, c) common_aliases → twin a c v X Y → alias_fields X = alias_fields Y.
Proof.
  intros Hin Ht.
  destruct (common_alias_facts a c Hin) as (Hac & Ha & Hav & l1 & l2 & Hsplit & Hpass).
  assert (Hk : ∀ k, In k ["op"; "operation"; "type"; "mode"; "newText"] → ¬ In k (spellings c))
    by (intros k; apply avoids_not_in, Hav).
  unfold alias_fields.
  assert (Hop : op_of X = op_of Y).
  { apply (twin_op_of a c v); [exact Ha | | exact Ht].
    unfold avoids in Hav |- *. cbn [forallb] in Hav |- *.
    repeat (apply andb_true_iff in Hav as [? Hav]).
    repeat (apply andb_true_iff; split); assumption || reflexivity. }
  rewrite Hop. destruct (op_of Y) as [op|ex]; [|reflexivity]. rewrite !bind_Ok.
  pose proof (twin_set_op a c v X Y op Ha (Hk "op" ltac:(cbn; tauto)) Ht) as Ht1.
  rewrite Hsplit.
  rewrite (twin_aliases_merge a c v l1 l2 _ _ Hac Ha Hpass Ht1).
  destruct (alias_anchor_method _) as [e3|ex]; [|reflexivity]. rewrite !bind_Ok.
  destruct (alias_pattern _) as [e5|ex]; [|reflexivity]. rewrite !bind_Ok.
  apply lsp_range_edit.
  apply (twin_lookup a c v X Y "newText" Ha (Hk "newText" ltac:(cbn; tauto)) Ht).
Qed.

(** Twin dictionaries up to the step that resolves [anchor_method]. *)
Lemma twin_before_anchor_text (a c : string) (v : value) (X Y : dict) (op : string) :
  In a (spellings c) →
  avoids c ["op"; "anchor_method"; "position"; "beforeMethodName"; "afterMethodName"] = true →
  passable a c common_aliases = true →
  twin a c v X Y →
  twin_res a c v
    (alias_anchor_method
       (apply_aliases common_aliases
          (if negb (PyStr.is_empty op) then <["op" := VStr op]> X else X)))
    (alias_anchor_method
       (apply_aliases common_aliases
          (if negb (PyStr.is_empty op) then <["op" := VStr op]> Y else Y))).
Proof.
  intros Ha Hav Hpass Ht.
  assert (Hk : ∀ k, In k ["op"; "anchor_method"; "position"; "beforeMethodName";
                          "afterMethodName"] → ¬ In k (spellings c))
    by (intros k; apply avoids_not_in, Hav).
  apply twin_anchor_method; [exact Ha| |].
  - unfold avoids in Hav |- *. cbn [forallb] in Hav |- *.
    apply andb_true_iff in Hav as [_ Hav]. exact Hav.
  - apply twin_aliases; [exact Ha | exact Hpass|].
    apply twin_set_op; [exact Ha | apply Hk; cbn; tauto | exact Ht].
Qed.

Lemma alias_fields_anchorText (v : value) (X Y : dict) :
  twin "anchorText" "anchor" v X Y → alias_fields X = alias_fields Y.
Proof.
  intros Ht.
  assert (Ha : In "anchorText" (spellings "anchor")) by in_spellings.
  unfold alias_fields.
  rewrite (twin_op_of _ _ v X Y Ha ltac:(vm_compute; reflexivity) Ht).
  destruct (op_of Y) as [op|ex]; [|reflexivity]. rewrite !bind_Ok.
  pose proof (twin_before_anchor_text _ _ v X Y op Ha ltac:(vm_compute; reflexivity)
                ltac:(vm_compute; reflexivity) Ht) as H3.
  destruct (alias_anchor_method _) as [e3X|ex1], (alias_anchor_method _) as [e3Y|ex2];
    cbn [twin_res] in H3; try contradiction; [|subst; reflexivity].
  rewrite !bind_Ok.
  rewrite (twin_merge "anchorText" "anchor" v e3X e3Y ltac:(discriminate) Ha H3).
  destruct (alias_pattern _) as [e5|ex]; [|reflexivity]. rewrite !bind_Ok.
  apply lsp_range_edit.
  apply (twin_lookup _ _ v X Y "newText" Ha ltac:(not_in_spellings) Ht).
Qed.

Lemma alias_fields_newText (v : value) (X Y : dict) :
  twin "newText" "text" v X Y → alias_fields X = alias_fields Y.
Proof.
  intros Ht.
  assert (Ha : In "newText" (spellings "text")) by in_spellings.
  unfold alias_fields.
  rewrite (twin_op_of _ _ v X Y Ha ltac:(vm_compute; reflexivity) Ht).
  destruct (op_of Y) as [op|ex]; [|reflexivity]. rewrite !bind_Ok.
  pose proof (twin_before_anchor_text _ _ v X Y op Ha ltac:(vm_compute; reflexivity)
                ltac:(vm_compute; reflexivity) Ht) as H3.
  destruct (alias_anchor_method _) as [e3X|ex1], (alias_anchor_method _) as [e3Y|ex2];
    cbn [twin_res] in H3; try contradiction; [|subst; reflexivity].
  rewrite !bind_Ok.
  pose proof (twin_alias_field _ _ v "anchorText" "anchor" e3X e3Y Ha
                ltac:(vm_compute; reflexivity) H3) as H4.
  pose proof (twin_pattern _ _ v _ _ Ha ltac:(vm_compute; reflexivity) H4) as H5.
  destruct (alias_pattern (alias_field "anchorText" "anchor" e3X)) as [e5X|ex1],
           (alias_pattern (alias_field "anchorText" "anchor" e3Y)) as [e5Y|ex2];
    cbn [twin_res] in H5; try contradiction; [|subst; reflexivity].
  rewrite !bind_Ok.
  rewrite (twin_merge "newText" "text" v e5X e5Y ltac:(discriminate) Ha H5).
  apply lsp_range_text, upgrade_has_text.
  destruct H5 as (s & _ & _ & ->). rewrite alias_field_kept. apply has_insert_eq.
Qed.

(** Every alias of the table resolves to the same result as the canonical
    name. *)
Lemma alias_fields_twin (a c : string) (v : value) (X Y : dict) :
  In (a, c) field_aliases → twin a c v X Y → alias_fields X = alias_fields Y.
Proof.
  intros Hin Ht. unfold field_aliases in Hin. apply in_app_or in Hin as [Hin|Hin].
  - eapply alias_fields_common; eassumption.
  - cbn in Hin. destruct Hin as [[= <- <-]|[[= <- <-]|[]]].
    + eapply alias_fields_anchorText; eassumption.
    + eapply alias_fields_newText; eassumption.
Qed.


(** *** A canonical field is not overwritten *)

Lemma alias_field_keeps (src dst k : string) (v : value) (e : dict) :
  k ≠ src → e !! k = Some v → alias_field src dst e !! k = Some v.
Proof.
  intros Hs He. unfold alias_field.
  destruct (has e src && negb (has e dst)) eqn:Hc; [|exact He].
  apply andb_true_iff in Hc as [_ Hd]. apply negb_true_iff in Hd.
  destruct (decide (dst = k)) as [->|Hne].
  - rewrite (has_true e k v He) in Hd. discriminate.
  - rewrite lookup_insert_ne, lookup_delete_ne by congruence. exact He.
Qed.

Lemma apply_aliases_keeps (l : list (string * string)) (k : string) (v : value) :
  (∀ p, In p l → k ≠ p.1) →
  ∀ e, e !! k = Some v → apply_aliases l e !! k = Some v.
Proof.
  induction l as [|[src dst] l IH]; intros Hl e He; [exact He|].
  unfold apply_aliases. cbn [List.fold_left fst snd]. apply IH.
  - intros p Hp. apply Hl. right. exact Hp.
  - apply alias_field_keeps; [apply (Hl (src, dst)); left; reflexivity | exact He].
Qed.

Lemma anchor_method_keeps (k : string) (v : value) (e e' : dict) :
  k ≠ "anchor_method" → e !! k = Some v →
  alias_anchor_method e = Ok e' → e' !! k = Some v.
Proof.
  intros Hk He. unfold alias_anchor_method.
  destruct (e !! "anchor_method") as [anchor|]; [|intros [= <-]; exact He].
  assert (Hd : delete "anchor_method" e !! k = Some v)
    by (rewrite lookup_delete_ne by congruence; exact He).
  destruct (str_attr _) as [pos|]; [|discriminate]. rewrite !bind_Ok.
  destruct (String.eqb _ "before" && negb (has _ "beforeMethodName")) eqn:Hb.
  - intros [= <-]. apply andb_true_iff in Hb as [_ Hb]. apply negb_true_iff in Hb.
    destruct (decide ("beforeMethodName" = k)) as [<-|Hne].
    + rewrite (has_true _ _ v Hd) in Hb. discriminate.
    + rewrite lookup_insert_ne by exact Hne. exact Hd.
  - destruct (negb (has _ "afterMethodName")) eqn:Haf; intros [= <-]; [|exact Hd].
    apply negb_true_iff in Haf.
    destruct (decide ("afterMethodName" = k)) as [<-|Hne].
    + rewrite (has_true _ _ v Hd) in Haf. discriminate.
    + rewrite lookup_insert_ne by exact Hne. exact Hd.
Qed.

Lemma pattern_keeps (k : string) (v : value) (e e' : dict) :
  k ≠ "pattern" → e !! k = Some v → alias_pattern e = Ok e' → e' !! k = Some v.
Proof.
  intros Hk He. unfold alias_pattern.
  destruct (has e "pattern" && negb (has e "anchor") && truthy (get e "op")) eqn:Hc;
    [|intros [= <-]; exact He].
  destruct (str_attr _) as [op|]; [|discriminate]. rewrite !bind_Ok.
  destruct (PyStr.startswith op "anchor_"); intros [= <-]; [|exact He].
  apply andb_true_iff in Hc as [Hc _]. apply andb_true_iff in Hc as [_ Han].
  apply negb_true_iff in Han.
  destruct (decide ("anchor" = k)) as [<-|Hne].
  - rewrite (has_true _ _ v He) in Han. discriminate.
  - rewrite lookup_insert_ne, lookup_delete_ne by congruence. exact He.
Qed.

Lemma upgrade_keeps (k : string) (v : value) (e : dict) :
  k ≠ "op" → e !! k = Some v → upgrade_anchor_insert e !! k = Some v.
Proof.
  intros Hk He. unfold upgrade_anchor_insert.
  destruct (str_eqb _ _ && _ && _); [|exact He].
  assert (Hop : <["op" := VStr "insert_method"]> e !! k = Some v)
    by (rewrite lookup_insert_ne by congruence; exact He).
  destruct (negb (has _ "replacement")) eqn:Hr; [|exact Hop].
  apply negb_true_iff in Hr.
  destruct (decide ("replacement" = k)) as [<-|Hne].
  - rewrite (has_true _ _ v Hop) in Hr. discriminate.
  - rewrite lookup_insert_ne by exact Hne. exact Hop.
Qed.

Lemma lsp_range_keeps (k : string) (v : value) (edit e e' : dict) :
  (∀ x, In x ["op"; "range"; "startLine"; "startCol"; "endLine"; "endCol"] → k ≠ x) →
  e !! k = Some v → lsp_range edit e = Ok e' → e' !! k = Some v.
Proof.
  intros Hk He. unfold lsp_range.
  destruct (e !! "range") as [[| | | | |rng]|]; try (intros [= <-]; exact He).
  destruct (dict_attr (get_or rng "start" _)) as [start|]; [|discriminate]. rewrite !bind_Ok.
  destruct (py_int (get_or start "line" _)) as [sl|]; [|discriminate]. rewrite !bind_Ok.
  destruct (py_int (get_or start "character" _)) as [sc|]; [|discriminate]. rewrite !bind_Ok.
  destruct (dict_attr (get_or rng "end" _)) as [end_|]; [|discriminate]. rewrite !bind_Ok.
  destruct (py_int (get_or end_ "line" _)) as [el|]; [|discriminate]. rewrite !bind_Ok.
  destruct (py_int (get_or end_ "character" _)) as [ec|]; [|discriminate]. rewrite !bind_Ok.
  set (e1 := <["endCol" := _]> _).
  assert (H1 : e1 !! k = Some v).
  { unfold e1. rewrite !lookup_insert_ne, lookup_delete_ne; [exact He|..];
      apply not_eq_sym, Hk; cbn; tauto. }
  destruct (has edit "newText" && negb (has e1 "text")) eqn:Hc; intros [= <-]; [|exact H1].
  apply andb_true_iff in Hc as [_ Ht]. apply negb_true_iff in Ht.
  destruct (decide ("text" = k)) as [<-|Hne].
  - rewrite (has_true _ _ v H1) in Ht. discriminate.
  - rewrite lookup_insert_ne by exact Hne. exact H1.
Qed.

Lemma alias_fields_keeps (k : string) (v : value) (e e' : dict) :
  (∀ x, In x rewritten_keys → k ≠ x) →
  e !! k = Some v → alias_fields e = Ok e' → e' !! k = Some v.
Proof.
  intros Hk He. unfold alias_fields.
  assert (Hin : ∀ x, In x ["op"; "anchor_method"; "pattern"; "range"; "startLine"; "startCol";
                           "endLine"; "endCol"] → k ≠ x).
  { intros x Hx. apply Hk. unfold rewritten_keys. apply in_or_app. right. exact Hx. }
  assert (Hal : ∀ p, In p field_aliases → k ≠ p.1).
  { intros p Hp. apply Hk. unfold rewritten_keys. apply in_or_app. left.
    apply in_map. exact Hp. }
  destruct (op_of e) as [op|]; [|discriminate]. rewrite !bind_Ok.
  assert (H1 : (if negb (PyStr.is_empty op) then <["op" := VStr op]> e else e) !! k = Some v).
  { destruct (negb _); [|exact He].
    rewrite lookup_insert_ne; [exact He | apply not_eq_sym, Hin; cbn; tauto]. }
  apply (apply_aliases_keeps common_aliases) in H1;
    [|intros p Hp; apply Hal; unfold field_aliases; apply in_or_app; left; exact Hp].
  destruct (alias_anchor_method _) as [e3|] eqn:H3; [|discriminate]. rewrite !bind_Ok.
  apply (anchor_method_keeps k v _ _ (Hin "anchor_method" ltac:(cbn; tauto)) H1) in H3.
  apply (alias_field_keeps "anchorText" "anchor") in H3;
    [|apply (Hal ("anchorText", "anchor")); unfold field_aliases; apply in_or_app; right;
      cbn; tauto].
  destruct (alias_pattern _) as [e5|] eqn:H5; [|discriminate]. rewrite !bind_Ok.
  apply (pattern_keeps k v _ _ (Hin "pattern" ltac:(cbn; tauto)) H3) in H5.
  apply (alias_field_keeps "newText" "text") in H5;
    [|apply (Hal ("newText", "text")); unfold field_aliases; apply in_or_app; right;
      cbn; tauto].
  apply (upgrade_keeps k v _ (Hin "op" ltac:(cbn; tauto))) in H5.
  apply lsp_range_keeps; [|exact H5].
  intros x Hx. apply Hin. cbn in Hx |- *. tauto.
Qed.

Lemma canonical_not_rewritten (k : string) :
  In k canonical_fields → ∀ x, In x rewritten_keys → k ≠ x.
Proof.
  intros Hk x Hx. cbn in Hk.
  repeat (destruct Hk as [<-|Hk]); try contradiction;
    vm_compute in Hx; intuition (subst; discriminate).
Qed.

Lemma alias_not_wrapper (a c : string) :
  In (a, c) field_aliases → ¬ In a wrapper_keys ∧ ¬ In c wrapper_keys.
Proof.
  intros Hin. vm_compute in Hin.
  repeat (destruct Hin as [[= <- <-]|Hin]); try contradiction;
    split; vm_compute; intuition discriminate.
Qed.

(** *** A key that a step neither reads nor writes *)

Lemma get_delete_ne (e : dict) (k j : string) : k ≠ j → get (delete k e) j = get e j.
Proof. intros H. unfold get. rewrite lookup_delete_ne by exact H. reflexivity. Qed.

Lemma fmap_insert_Ok (k : string) (v : value) (e : dict) :
  insert k v <$> (Ok e : res dict) = Ok (<[k := v]> e).
Proof. reflexivity. Qed.

Lemma set_op_insert (k : string) (v : value) (op : string) (s : dict) :
  k ≠ "op" →
  (if negb (PyStr.is_empty op) then <["op" := VStr op]> (<[k := v]> s) else <[k := v]> s)
  = <[k := v]> (if negb (PyStr.is_empty op) then <["op" := VStr op]> s else s).
Proof. intros Hk. destruct (negb _); [apply insert_insert_ne; congruence | reflexivity]. Qed.

(** A set of keys that the aliases do not fill from outside stays absent. *)
Lemma alias_field_lacks_closed (src dst : string) (s : dict) (keys : list string) :
  (In dst keys → In src keys) → lacks s keys → lacks (alias_field src dst s) keys.
Proof.
  intros Hc Hl. destruct (in_dec string_dec dst keys) as [Hd|Hd].
  - rewrite alias_field_absent; [exact Hl | apply Hl, Hc, Hd].
  - apply alias_field_lacks; assumption.
Qed.

Lemma apply_aliases_lacks (l : list (string * string)) (keys : list string) :
  (∀ p, In p l → In p.2 keys → In p.1 keys) →
  ∀ s, lacks s keys → lacks (apply_aliases l s) keys.
Proof.
  induction l as [|[src dst] l IH]; intros Hc s Hl; [exact Hl|].
  unfold apply_aliases. cbn [List.fold_left fst snd]. apply IH.
  - intros p Hp. apply Hc. right. exact Hp.
  - apply alias_field_lacks_closed; [|exact Hl]. apply (Hc (src, dst)). left. reflexivity.
Qed.

(** The value under [k] passes through a list of aliases of which [k] is no
    spelling, the spellings that resolve to [k] being absent. *)
Lemma apply_aliases_insert (l : list (string * string)) (k : string) (v : value)
    (keys : list string) :
  (∀ p, In p l → k ≠ p.1) →
  (∀ p, In p l → p.2 = k → In p.1 keys) →
  (∀ p, In p l → In p.2 keys → In p.1 keys) →
  ∀ s, lacks s keys →
       apply_aliases l (<[k := v]> s) = <[k := v]> (apply_aliases l s).
Proof.
  induction l as [|[src dst] l IH]; intros Hsrc Hdst Hc s Hl; [reflexivity|].
  unfold apply_aliases. cbn [List.fold_left fst snd].
  fold (apply_aliases l (alias_field src dst (<[k := v]> s))).
  fold (apply_aliases l (alias_field src dst s)).
  assert (Hks : k ≠ src) by (apply (Hsrc (src, dst)); left; reflexivity).
  assert (Hstep : alias_field src dst (<[k := v]> s) = <[k := v]> (alias_field src dst s)).
  { destruct (decide (dst = k)) as [->|Hne].
    - rewrite alias_field_kept. rewrite alias_field_absent; [reflexivity|].
      apply Hl, (Hdst (src, k)); [left|]; reflexivity.
    - apply alias_field_insert_ne; congruence. }
  rewrite Hstep. apply IH.
  - intros p Hp. apply Hsrc. right. exact Hp.
  - intros p Hp. apply Hdst. right. exact Hp.
  - intros p Hp. apply Hc. right. exact Hp.
  - apply alias_field_lacks_closed; [|exact Hl]. apply (Hc (src, dst)). left. reflexivity.
Qed.

Lemma alias_field_lookup (src dst k : string) (s : dict) :
  k ≠ src → k ≠ dst → alias_field src dst s !! k = s !! k.
Proof.
  intros Hs Hd. unfold alias_field. destruct (has s src && negb (has s dst)); [|reflexivity].
  rewrite lookup_insert_ne, lookup_delete_ne by congruence. reflexivity.
Qed.

Lemma apply_aliases_lookup (l : list (string * string)) (k : string) :
  (∀ p, In p l → k ≠ p.1 ∧ k ≠ p.2) →
  ∀ s, apply_aliases l s !! k = s !! k.
Proof.
  induction l as [|[src dst] l IH]; intros Hk s; [reflexivity|].
  unfold apply_aliases. cbn [List.fold_left fst snd].
  fold (apply_aliases l (alias_field src dst s)). rewrite IH.
  - destruct (Hk (src, dst) (or_introl eq_refl)). apply alias_field_lookup; assumption.
  - intros p Hp. apply Hk. right. exact Hp.
Qed.

Ltac key_ne :=
  lazymatch goal with
  | Hk : ∀ x, In x _ → _ ≠ x |- _ =>
      first [apply Hk; cbn; tauto | apply not_eq_sym, Hk; cbn; tauto]
  end.

Lemma anchor_method_insert (k : string) (v : value) (s : dict) :
  (∀ x, In x ["anchor_method"; "position"; "beforeMethodName"; "afterMethodName"] → k ≠ x) →
  alias_anchor_method (<[k := v]> s) = insert k v <$> alias_anchor_method s.
Proof.
  intros Hk. unfold alias_anchor_method.
  rewrite lookup_insert_ne by key_ne.
  destruct (s !! "anchor_method") as [anchor|]; [|reflexivity].
  rewrite delete_insert_ne by key_ne.
  rewrite get_insert_ne by key_ne.
  destruct (str_attr _) as [pos|ex]; [|reflexivity]. rewrite !bind_Ok.
  rewrite !has_insert_ne by key_ne.
  destruct (String.eqb _ "before" && negb _).
  - cbn. f_equal. apply insert_insert_ne. key_ne.
  - destruct (negb _); [|reflexivity].
    cbn. f_equal. apply insert_insert_ne. key_ne.
Qed.

Lemma pattern_insert (k : string) (v : value) (s : dict) :
  (∀ x, In x ["pattern"; "anchor"; "op"] → k ≠ x) →
  alias_pattern (<[k := v]> s) = insert k v <$> alias_pattern s.
Proof.
  intros Hk. unfold alias_pattern.
  rewrite !has_insert_ne, !get_insert_ne by key_ne.
  destruct (has s "pattern" && negb (has s "anchor") && truthy (get s "op")); [|reflexivity].
  destruct (str_attr _) as [op|ex]; [|reflexivity]. rewrite !bind_Ok.
  destruct (PyStr.startswith op "anchor_"); [|reflexivity].
  cbn. f_equal. rewrite delete_insert_ne by key_ne.
  apply insert_insert_ne. key_ne.
Qed.

Lemma upgrade_insert (k : string) (v : value) (s : dict) :
  (∀ x, In x ["op"; "anchor"; "afterMethodName"; "beforeMethodName"; "replacement"; "text"]
        → k ≠ x) →
  upgrade_anchor_insert (<[k := v]> s) = <[k := v]> (upgrade_anchor_insert s).
Proof.
  intros Hk. unfold upgrade_anchor_insert.
  rewrite !get_insert_ne by key_ne.
  destruct (str_eqb _ _ && _ && _); [|reflexivity]. cbv zeta.
  rewrite (insert_insert_ne s "op" k) by key_ne.
  rewrite has_insert_ne by key_ne.
  destruct (negb _); [|reflexivity].
  rewrite get_or_insert_ne by key_ne.
  apply insert_insert_ne. key_ne.
Qed.

Lemma lsp_range_insert (k : string) (v : value) (edit s : dict) :
  (∀ x, In x ["range"; "op"; "startLine"; "startCol"; "endLine"; "endCol"; "text"] → k ≠ x) →
  lsp_range edit (<[k := v]> s) = insert k v <$> lsp_range edit s.
Proof.
  intros Hk. unfold lsp_range.
  rewrite lookup_insert_ne by key_ne.
  destruct (s !! "range") as [[| | | | |rng]|]; try reflexivity.
  destruct (dict_attr (get_or rng "start" _)) as [start|]; [|reflexivity]. rewrite !bind_Ok.
  destruct (py_int (get_or start "line" _)) as [sl|]; [|reflexivity]. rewrite !bind_Ok.
  destruct (py_int (get_or start "character" _)) as [sc|]; [|reflexivity]. rewrite !bind_Ok.
  destruct (dict_attr (get_or rng "end" _)) as [end_|]; [|reflexivity]. rewrite !bind_Ok.
  destruct (py_int (get_or end_ "line" _)) as [el|]; [|reflexivity]. rewrite !bind_Ok.
  destruct (py_int (get_or end_ "character" _)) as [ec|]; [|reflexivity]. rewrite !bind_Ok.
  rewrite delete_insert_ne by key_ne.
  assert (Hmove : <["endCol" := VInt (ec + 1)]> (<["endLine" := VInt (el + 1)]>
                    (<["startCol" := VInt (sc + 1)]> (<["startLine" := VInt (sl + 1)]>
                      (<["op" := VStr "replace_range"]> (<[k := v]> (delete "range" s))))))
                  = <[k := v]> (<["endCol" := VInt (ec + 1)]> (<["endLine" := VInt (el + 1)]>
                    (<["startCol" := VInt (sc + 1)]> (<["startLine" := VInt (sl + 1)]>
                      (<["op" := VStr "replace_range"]> (delete "range" s))))))).
  { rewrite (insert_insert_ne (delete "range" s) "op" k)
      by key_ne.
    rewrite (insert_insert_ne _ "startLine" k) by key_ne.
    rewrite (insert_insert_ne _ "startCol" k) by key_ne.
    rewrite (insert_insert_ne _ "endLine" k) by key_ne.
    rewrite (insert_insert_ne _ "endCol" k) by key_ne.
    reflexivity. }
  rewrite Hmove. rewrite has_insert_ne by key_ne.
  destruct (has edit "newText" && negb _); [|reflexivity].
  cbn. f_equal. apply insert_insert_ne. key_ne.
Qed.


(** *** Absent keys and the operation name through the steps *)

Lemma op_of_insert_other (e : dict) (k : string) (v : value) :
  ¬ In k ["op"; "operation"; "type"; "mode"] →
  op_of (<[k := v]> e) = op_of e.
Proof.
  intros Hk. unfold op_of.
  rewrite !get_insert_ne by (intros ->; apply Hk; cbn; tauto). reflexivity.
Qed.

Lemma get_absent (e : dict) (k : string) : e !! k = None → get e k = VNone.
Proof. intros H. unfold get. rewrite H. reflexivity. Qed.

Lemma alias_field_absent_key (src dst k : string) (s : dict) :
  k ≠ dst → s !! k = None → alias_field src dst s !! k = None.
Proof.
  intros Hd Hk. apply (alias_field_lacks src dst s [k]); [|intros x [<-|[]]; exact Hk|left; reflexivity].
  intros [<-|[]]. contradiction.
Qed.

Lemma apply_aliases_absent_key (l : list (string * string)) (k : string) :
  (∀ p, In p l → k ≠ p.2) → ∀ s, s !! k = None → apply_aliases l s !! k = None.
Proof.
  intros Hk s Hs. apply (apply_aliases_lacks l [k]); [|intros x [<-|[]]; exact Hs|left; reflexivity].
  intros p Hp [Heq|[]]. exfalso. exact (Hk p Hp Heq).
Qed.

Lemma anchor_method_absent_key (k : string) (e e' : dict) :
  k ≠ "beforeMethodName" → k ≠ "afterMethodName" → e !! k = None →
  alias_anchor_method e = Ok e' → e' !! k = None.
Proof.
  intros Hb Ha He. unfold alias_anchor_method.
  destruct (e !! "anchor_method") as [anchor|]; [|intros [= <-]; exact He].
  assert (Hd : delete "anchor_method" e !! k = None).
  { destruct (decide ("anchor_method" = k)) as [<-|Hne]; [apply lookup_delete_eq|].
    rewrite lookup_delete_ne by exact Hne. exact He. }
  destruct (str_attr _) as [pos|]; [|discriminate]. rewrite !bind_Ok.
  destruct (String.eqb _ "before" && negb _).
  - intros [= <-]. rewrite lookup_insert_ne by congruence. exact Hd.
  - destruct (negb _); intros [= <-]; [|exact Hd].
    rewrite lookup_insert_ne by congruence. exact Hd.
Qed.

Lemma pattern_absent_key (k : string) (e e' : dict) :
  k ≠ "anchor" → e !! k = None → alias_pattern e = Ok e' → e' !! k = None.
Proof.
  intros Hk He. unfold alias_pattern.
  destruct (has e "pattern" && negb (has e "anchor") && truthy (get e "op"));
    [|intros [= <-]; exact He].
  destruct (str_attr _) as [op|]; [|discriminate]. rewrite !bind_Ok.
  destruct (PyStr.startswith op "anchor_"); intros [= <-]; [|exact He].
  rewrite lookup_insert_ne by congruence.
  destruct (decide ("pattern" = k)) as [<-|Hne]; [apply lookup_delete_eq|].
  rewrite lookup_delete_ne by exact Hne. exact He.
Qed.

Lemma upgrade_absent_key (k : string) (e : dict) :
  k ≠ "op" → k ≠ "replacement" → e !! k = None → upgrade_anchor_insert e !! k = None.
Proof.
  intros Ho Hr He. unfold upgrade_anchor_insert.
  destruct (str_eqb _ _ && _ && _); [|exact He]. cbv zeta.
  destruct (negb _); rewrite !lookup_insert_ne by congruence; exact He.
Qed.

Lemma lsp_range_absent_key (k : string) (edit e e' : dict) :
  (∀ x, In x ["op"; "startLine"; "startCol"; "endLine"; "endCol"; "text"] → k ≠ x) →
  e !! k = None → lsp_range edit e = Ok e' → e' !! k = None.
Proof.
  intros Hk He. unfold lsp_range.
  destruct (e !! "range") as [[| | | | |rng]|]; try (intros [= <-]; exact He).
  destruct (dict_attr (get_or rng "start" _)) as [start|]; [|discriminate]. rewrite !bind_Ok.
  destruct (py_int (get_or start "line" _)) as [sl|]; [|discriminate]. rewrite !bind_Ok.
  destruct (py_int (get_or start "character" _)) as [sc|]; [|discriminate]. rewrite !bind_Ok.
  destruct (dict_attr (get_or rng "end" _)) as [end_|]; [|discriminate]. rewrite !bind_Ok.
  destruct (py_int (get_or end_ "line" _)) as [el|]; [|discriminate]. rewrite !bind_Ok.
  destruct (py_int (get_or end_ "character" _)) as [ec|]; [|discriminate]. rewrite !bind_Ok.
  assert (Hd : delete "range" e !! k = None).
  { destruct (decide ("range" = k)) as [<-|Hne]; [apply lookup_delete_eq|].
    rewrite lookup_delete_ne by exact Hne. exact He. }
  destruct (has edit "newText" && negb _); intros [= <-];
    rewrite !lookup_insert_ne by key_ne; exact Hd.
Qed.

(** A key that no step writes stays absent. *)
Lemma alias_fields_absent_key (k : string) (e e' : dict) :
  (∀ x, In x (canonical_fields ++ ["op"; "startLine"; "startCol"; "endLine"; "endCol"])
        → k ≠ x) →
  e !! k = None → alias_fields e = Ok e' → e' !! k = None.
Proof.
  intros Hk He. unfold alias_fields.
  destruct (op_of e) as [op|]; [|discriminate]. rewrite !bind_Ok.
  assert (H1 : (if negb (PyStr.is_empty op) then <["op" := VStr op]> e else e) !! k = None).
  { destruct (negb _); [|exact He]. rewrite lookup_insert_ne by key_ne. exact He. }
  apply (apply_aliases_absent_key common_aliases) in H1.
  2:{ intros p Hp. cbn in Hp.
      repeat (destruct Hp as [<-|Hp]; [cbn [snd]; key_ne|]). contradiction. }
  destruct (alias_anchor_method _) as [e3|] eqn:H3; [|discriminate]. rewrite !bind_Ok.
  apply (anchor_method_absent_key k _ _ ltac:(key_ne) ltac:(key_ne) H1) in H3.
  apply (alias_field_absent_key "anchorText" "anchor" k _ ltac:(key_ne)) in H3.
  destruct (alias_pattern _) as [e5|] eqn:H5; [|discriminate]. rewrite !bind_Ok.
  apply (pattern_absent_key k _ _ ltac:(key_ne) H3) in H5.
  apply (alias_field_absent_key "newText" "text" k _ ltac:(key_ne)) in H5.
  apply (upgrade_absent_key k _ ltac:(key_ne) ltac:(key_ne)) in H5.
  apply lsp_range_absent_key; [|exact H5].
  intros x Hx. apply Hk. cbn in Hx |- *. tauto.
Qed.

(** An operation name that is not empty: the result names an operation. *)
Lemma alias_fields_names_op (e e' : dict) (op : string) :
  op_of e = Ok op → PyStr.is_empty op = false → alias_fields e = Ok e' →
  truthy (get e' "op") = true.
Proof.
  intros Hop Hne. unfold alias_fields. rewrite Hop, !bind_Ok, Hne. cbn [negb].
  assert (H1 : <["op" := VStr op]> e !! "op" = Some (VStr op)) by apply lookup_insert_eq.
  apply (apply_aliases_keeps common_aliases) in H1.
  2:{ intros p Hp. cbn in Hp.
      repeat (destruct Hp as [<-|Hp]; [cbn [fst]; discriminate|]). contradiction. }
  destruct (alias_anchor_method _) as [e3|] eqn:H3; [|discriminate]. rewrite !bind_Ok.
  apply (anchor_method_keeps "op" _ _ _ ltac:(discriminate) H1) in H3.
  apply (alias_field_keeps "anchorText" "anchor") in H3; [|discriminate].
  destruct (alias_pattern _) as [e5|] eqn:H5; [|discriminate]. rewrite !bind_Ok.
  apply (pattern_keeps "op" _ _ _ ltac:(discriminate) H3) in H5.
  apply (alias_field_keeps "newText" "text") in H5; [|discriminate].
  set (e6 := alias_field "newText" "text" e5) in *.
  assert (H7 : truthy (get (upgrade_anchor_insert e6) "op") = true).
  { unfold upgrade_anchor_insert.
    destruct (str_eqb _ _ && _ && _).
    - cbv zeta. destruct (negb _); rewrite ?get_insert_ne by discriminate;
        rewrite get_insert_eq; reflexivity.
    - unfold get. rewrite H5. cbn. rewrite Hne. reflexivity. }
  unfold lsp_range.
  destruct (upgrade_anchor_insert e6 !! "range") as [[| | | | |rng]|];
    try (intros [= <-]; exact H7).
  destruct (dict_attr (get_or rng "start" _)) as [start|]; [|discriminate]. rewrite !bind_Ok.
  destruct (py_int (get_or start "line" _)) as [sl|]; [|discriminate]. rewrite !bind_Ok.
  destruct (py_int (get_or start "character" _)) as [sc|]; [|discriminate]. rewrite !bind_Ok.
  destruct (dict_attr (get_or rng "end" _)) as [end_|]; [|discriminate]. rewrite !bind_Ok.
  destruct (py_int (get_or end_ "line" _)) as [el|]; [|discriminate]. rewrite !bind_Ok.
  destruct (py_int (get_or end_ "character" _)) as [ec|]; [|discriminate]. rewrite !bind_Ok.
  destruct (has e "newText" && negb _); intros [= <-];
    rewrite !get_insert_ne by discriminate; rewrite get_insert_eq; reflexivity.
Qed.


(** *** The wrapper form *)

(** Two edits that differ in the dictionary under one wrapper key are
    unwrapped to these dictionaries, or to the same dictionary. *)
Lemma unwrap_wrapped (keys : list string) (k : string) (X Y outer : dict) :
  In k keys →
  (unwrap keys (<[k := VDict X]> outer) = <["op" := VStr k]> X
   ∧ unwrap keys (<[k := VDict Y]> outer) = <["op" := VStr k]> Y)
  ∨ unwrap keys (<[k := VDict X]> outer) = unwrap keys (<[k := VDict Y]> outer).
Proof.
  induction keys as [|k0 keys IH]; intros Hin; [destruct Hin|]. cbn [unwrap].
  destruct (decide (k0 = k)) as [->|Hne].
  - rewrite !lookup_insert_eq. left. split; reflexivity.
  - rewrite !lookup_insert_ne by congruence.
    destruct Hin as [?|Hin]; [contradiction|].
    destruct (outer !! k0) as [[| | | | |d]|]; try (apply IH; exact Hin).
    right. reflexivity.
Qed.

Lemma unwrap_and_alias_wrapped (k : string) (X Y outer : dict) :
  In k wrapper_keys →
  alias_fields (<["op" := VStr k]> X) = alias_fields (<["op" := VStr k]> Y) →
  _unwrap_and_alias (<[k := VDict X]> outer) = _unwrap_and_alias (<[k := VDict Y]> outer).
Proof.
  intros Hk H. unfold _unwrap_and_alias.
  destruct (unwrap_wrapped wrapper_keys k X Y outer Hk) as [[-> ->]| ->];
    [exact H | reflexivity].
Qed.

Lemma unwrap_and_alias_flat (k1 k2 : string) (v1 v2 : value) (e0 : dict) :
  ¬ In k1 wrapper_keys → ¬ In k2 wrapper_keys →
  alias_fields (<[k1 := v1]> e0) = alias_fields (<[k2 := v2]> e0) →
  _unwrap_and_alias (<[k1 := v1]> e0) = _unwrap_and_alias (<[k2 := v2]> e0).
Proof.
  intros H1 H2 H. unfold _unwrap_and_alias.
  destruct (unwrap_insert wrapper_keys e0) as [Hkeep|Hdrop].
  - rewrite (Hkeep k1 v1 H1), (Hkeep k2 v2 H2). exact H.
  - rewrite (Hdrop k1 v1 H1), (Hdrop k2 v2 H2). reflexivity.
Qed.

Lemma normalize_edit_same (X Y : dict) (script_name : string) :
  _unwrap_and_alias X = _unwrap_and_alias Y →
  normalize_edit (VDict X) script_name = normalize_edit (VDict Y) script_name.
Proof. intros H. unfold normalize_edit. rewrite H. reflexivity. Qed.

Lemma field_alias_facts (a c : string) :
  In (a, c) field_aliases → In a (spellings c) ∧ ¬ In "op" (spellings c) ∧ a ≠ "op" ∧ c ≠ "op".
Proof.
  intros Hin. vm_compute in Hin.
  repeat (destruct Hin as [[= <- <-]|Hin]); try contradiction;
    (split; [vm_compute; tauto|]); (split; [vm_compute; intuition discriminate|]);
    split; discriminate.
Qed.

Lemma alias_fields_twin_wrapped (a c : string) (v : value) (k : string) (inner : dict) :
  In (a, c) field_aliases → lacks inner (spellings c) →
  alias_fields (<["op" := VStr k]> (<[a := v]> inner))
  = alias_fields (<["op" := VStr k]> (<[c := v]> inner)).
Proof.
  intros Hin Hl. destruct (field_alias_facts a c Hin) as (Ha & Hop & _ & _).
  apply (alias_fields_twin a c v); [exact Hin|].
  apply twin_insert; [exact Ha | exact Hop|].
  exists inner. split; [exact Hl|]. split; reflexivity.
Qed.

(** *** [pattern] as a spelling of [anchor] *)

Lemma startswith_nonempty (op p : string) :
  PyStr.startswith op p = true → PyStr.is_empty p = false → PyStr.is_empty op = false.
Proof. destruct op, p; cbn; congruence. Qed.

Lemma alias_fields_pattern (v : value) (s : dict) (op : string) :
  lacks s ["anchor"; "anchorText"; "pattern"] →
  op_of s = Ok op → PyStr.startswith op "anchor_" = true →
  alias_fields (<["pattern" := v]> s) = alias_fields (<["anchor" := v]> s).
Proof.
  intros Hl Hop Hpre.
  assert (Hne : PyStr.is_empty op = false) by (eapply startswith_nonempty; [exact Hpre | reflexivity]).
  unfold alias_fields.
  rewrite !op_of_insert_other by (cbn; intuition discriminate).
  rewrite Hop, !bind_Ok, Hne. cbn [negb].
  rewrite !(insert_insert_ne s "op") by discriminate.
  set (s1 := <["op" := VStr op]> s).
  assert (Hinert : ∀ k, k = "pattern" ∨ k = "anchor" →
            apply_aliases common_aliases (<[k := v]> s1)
            = <[k := v]> (apply_aliases common_aliases s1)).
  { intros k Hk. apply (apply_aliases_insert common_aliases k v []).
    - intros p Hp. cbn in Hp.
      repeat (destruct Hp as [<-|Hp]; [destruct Hk as [-> | ->]; discriminate|]). contradiction.
    - intros p Hp. cbn in Hp.
      repeat (destruct Hp as [<-|Hp]; [destruct Hk as [-> | ->]; discriminate|]). contradiction.
    - intros p _ [].
    - intros x []. }
  rewrite (Hinert "pattern"), (Hinert "anchor") by tauto.
  set (s2 := apply_aliases common_aliases s1).
  rewrite !anchor_method_insert by (intros x Hx; cbn in Hx; intuition (subst; discriminate)).
  destruct (alias_anchor_method s2) as [s3|ex] eqn:H3; [|reflexivity].
  rewrite !fmap_insert_Ok, !bind_Ok.
  assert (Habs : ∀ k, In k ["anchor"; "anchorText"; "pattern"] → s3 !! k = None).
  { intros k Hk.
    eapply (anchor_method_absent_key k s2 s3); [| |  |exact H3];
      try (cbn in Hk; intuition (subst; discriminate)).
    apply apply_aliases_absent_key.
    - intros p Hp. cbn in Hp, Hk.
      repeat (destruct Hp as [<-|Hp]; [cbn [snd]; intuition (subst; discriminate)|]).
      contradiction.
    - unfold s1. rewrite lookup_insert_ne by (cbn in Hk; intuition (subst; discriminate)).
      apply Hl, Hk. }
  assert (Hs3op : s3 !! "op" = Some (VStr op)).
  { apply (anchor_method_keeps "op" _ s2 s3 ltac:(discriminate)); [|exact H3].
    apply apply_aliases_keeps; [|apply lookup_insert_eq].
    intros p Hp. cbn in Hp.
    repeat (destruct Hp as [<-|Hp]; [cbn [fst]; discriminate|]). contradiction. }
  rewrite alias_field_insert_ne by discriminate.
  rewrite (alias_field_absent "anchorText" "anchor" s3) by (apply Habs; cbn; tauto).
  rewrite alias_field_kept.
  assert (HX : alias_pattern (<["pattern" := v]> s3) = Ok (<["anchor" := v]> s3)).
  { unfold alias_pattern.
    rewrite has_insert_eq, !has_insert_ne, !get_insert_ne, get_insert_eq by discriminate.
    rewrite (has_false s3 "anchor") by (apply Habs; cbn; tauto).
    assert (Hg : get s3 "op" = VStr op) by (unfold get; rewrite Hs3op; reflexivity).
    rewrite Hg. cbn [truthy str_attr negb andb].
    rewrite Hne. cbn [negb]. rewrite bind_Ok, Hpre.
    rewrite delete_insert_eq, delete_id by (apply Habs; cbn; tauto). reflexivity. }
  assert (HY : alias_pattern (<["anchor" := v]> s3) = Ok (<["anchor" := v]> s3)).
  { unfold alias_pattern. rewrite has_insert_ne by discriminate.
    rewrite (has_false s3 "pattern") by (apply Habs; cbn; tauto). reflexivity. }
  rewrite HX, HY, !bind_Ok. apply lsp_range_edit.
  rewrite !lookup_insert_ne by discriminate. reflexivity.
Qed.

(** *** [anchor_method] as a spelling of the method to insert next to *)

Lemma alias_fields_anchor_method (v : value) (s : dict) (pos c : string) :
  str_attr (get s "position" `or` VStr "after") = Ok pos →
  c = (if String.eqb (PyStr.lower (PyStr.strip pos)) "before"
       then "beforeMethodName" else "afterMethodName") →
  lacks s ("anchor_method" :: spellings c) →
  alias_fields (<["anchor_method" := v]> s) = alias_fields (<[c := v]> s).
Proof.
  intros Hpos Hc Hl.
  assert (Hcases : c = "beforeMethodName" ∨ c = "afterMethodName")
    by (rewrite Hc; destruct (String.eqb _ _); tauto).
  assert (Hne : ∀ x, In x ["op"; "operation"; "type"; "mode"; "anchor_method"; "newText";
                           "position"] → c ≠ x).
  { intros x Hx Heq. rewrite <- Heq in Hx. clear Heq.
    destruct Hcases as [Hb|Hb]; rewrite Hb in Hx; cbn in Hx; intuition discriminate. }
  unfold alias_fields.
  rewrite (op_of_insert_other s "anchor_method") by (cbn; intuition discriminate).
  rewrite (op_of_insert_other s c)
    by (intros Hin; revert Hin; cbn; intros [H|[H|[H|[H|[]]]]];
        symmetry in H; revert H; apply Hne; cbn; tauto).
  destruct (op_of s) as [op|ex]; [|reflexivity]. rewrite !bind_Ok.
  rewrite (set_op_insert "anchor_method") by discriminate.
  rewrite (set_op_insert c) by (apply Hne; cbn; tauto).
  set (s1 := if negb (PyStr.is_empty op) then <["op" := VStr op]> s else s).
  assert (Hl1 : lacks s1 ("anchor_method" :: spellings c)).
  { intros k Hk. unfold s1. destruct (negb _); [|apply Hl, Hk].
    rewrite lookup_insert_ne; [apply Hl, Hk|].
    intros <-. destruct Hcases as [Hb|Hb]; rewrite Hb in Hk; vm_compute in Hk;
      intuition discriminate. }
  assert (Hclosed : ∀ p, In p common_aliases →
            In p.2 ("anchor_method" :: spellings c) → In p.1 ("anchor_method" :: spellings c)).
  { intros p Hp. cbn in Hp.
    repeat (destruct Hp as [<-|Hp];
            [destruct Hcases as [Hb|Hb]; rewrite Hb; vm_compute; intuition discriminate|]).
    contradiction. }
  rewrite (apply_aliases_insert common_aliases "anchor_method" v []).
  2:{ intros p Hp. cbn in Hp.
      repeat (destruct Hp as [<-|Hp]; [discriminate|]). contradiction. }
  2:{ intros p Hp. cbn in Hp.
      repeat (destruct Hp as [<-|Hp]; [discriminate|]). contradiction. }
  2:{ intros p _ []. }
  2:{ intros x []. }
  rewrite (apply_aliases_insert common_aliases c v ("anchor_method" :: spellings c)).
  2:{ intros p Hp. cbn in Hp.
      repeat (destruct Hp as [<-|Hp]; [destruct Hcases as [Hb|Hb]; rewrite Hb; discriminate|]).
      contradiction. }
  2:{ intros p Hp. cbn in Hp.
      repeat (destruct Hp as [<-|Hp];
              [destruct Hcases as [Hb|Hb]; rewrite Hb; vm_compute; intuition discriminate|]).
      contradiction. }
  2:{ exact Hclosed. }
  2:{ exact Hl1. }
  pose proof (apply_aliases_lacks common_aliases _ Hclosed s1 Hl1) as Hl2.
  set (s2 := apply_aliases common_aliases s1) in *.
  assert (Ham : s2 !! "anchor_method" = None) by (apply Hl2; left; reflexivity).
  assert (Hc2 : s2 !! c = None) by (apply Hl2; right; apply spellings_canon).
  assert (Hp2 : get s2 "position" = get s "position").
  { unfold get, s2. rewrite apply_aliases_lookup.
    - unfold s1. destruct (negb _); [rewrite lookup_insert_ne by discriminate|]; reflexivity.
    - intros p Hp. cbn in Hp.
      repeat (destruct Hp as [<-|Hp]; [split; discriminate|]). contradiction. }
  assert (HX : alias_anchor_method (<["anchor_method" := v]> s2) = Ok (<[c := v]> s2)).
  { unfold alias_anchor_method. rewrite lookup_insert_eq.
    rewrite delete_insert_eq, delete_id by exact Ham.
    rewrite Hp2, Hpos, !bind_Ok. rewrite Hc in Hc2 |- *.
    destruct (String.eqb (PyStr.lower (PyStr.strip pos)) "before").
    - rewrite (has_false s2 "beforeMethodName" Hc2). reflexivity.
    - cbn [andb]. rewrite (has_false s2 "afterMethodName" Hc2). reflexivity. }
  assert (HY : alias_anchor_method (<[c := v]> s2) = Ok (<[c := v]> s2)).
  { unfold alias_anchor_method.
    rewrite lookup_insert_ne by (apply Hne; cbn; tauto).
    rewrite Ham. reflexivity. }
  rewrite HX, HY, !bind_Ok.
  destruct (alias_pattern _) as [e5|ex]; [|reflexivity]. rewrite !bind_Ok.
  apply lsp_range_edit.
  rewrite lookup_insert_ne by discriminate.
  rewrite lookup_insert_ne by (apply Hne; cbn; tauto). reflexivity.
Qed.


(** *** [operation], [type] and [mode] as spellings of [op] *)

Lemma op_alias_ne (a : string) (keys : list string) :
  In a ["operation"; "type"; "mode"] →
  forallb (λ k, negb (in_list k ["operation"; "type"; "mode"])) keys = true →
  ∀ x, In x keys → a ≠ x.
Proof.
  intros Ha Hkeys x Hx <-. rewrite forallb_forall in Hkeys. specialize (Hkeys a Hx).
  apply negb_true_iff, in_list_false in Hkeys. contradiction.
Qed.

Lemma op_of_alias (a : string) (v : value) (s : dict) :
  In a ["operation"; "type"; "mode"] → lacks s ["op"; "operation"; "type"; "mode"] →
  op_of (<[a := v]> s) = op_of (<["op" := v]> s).
Proof.
  intros Ha Hl. unfold op_of. cbn in Ha.
  destruct Ha as [<-|[<-|[<-|[]]]];
    rewrite !get_insert_eq, !get_insert_ne by discriminate;
    rewrite !(get_absent s) by (apply Hl; cbn; tauto);
    unfold por; cbn [truthy]; destruct (truthy v) eqn:Hv;
    repeat (cbv iota; rewrite ?Hv; cbn [truthy]); reflexivity.
Qed.

Lemma op_of_named (a : string) (v : value) (e : dict) :
  a ≠ "op" → truthy (get e "op") = true → op_of (<[a := v]> e) = op_of e.
Proof.
  intros Ha H. unfold op_of. rewrite (get_insert_ne e a "op") by exact Ha.
  rewrite !(por_truthy (get e "op")) by exact H. reflexivity.
Qed.

Lemma alias_fields_op_alias (a : string) (v : value) (s : dict) (op : string) :
  In a ["operation"; "type"; "mode"] → lacks s ["op"; "operation"; "type"; "mode"] →
  op_of (<["op" := v]> s) = Ok op → PyStr.is_empty op = false →
  alias_fields (<[a := v]> s) = insert a v <$> alias_fields (<["op" := v]> s).
Proof.
  intros Ha Hl Hop Hne.
  assert (Hk : ∀ x, In x (["op"; "anchor_method"; "position"; "beforeMethodName";
                           "afterMethodName"; "anchorText"; "anchor"; "pattern"; "newText";
                           "text"; "replacement"; "range"; "startLine"; "startCol";
                           "endLine"; "endCol"]
                          ++ List.map fst common_aliases ++ List.map snd common_aliases)
                    → a ≠ x)
    by (apply op_alias_ne; [exact Ha | vm_compute; reflexivity]).
  unfold alias_fields. rewrite (op_of_alias a v s Ha Hl), Hop, !bind_Ok, Hne. cbn [negb].
  rewrite (insert_insert_ne s "op" a) by (apply not_eq_sym, Hk; cbn; tauto).
  rewrite insert_insert_eq.
  set (s1 := <["op" := VStr op]> s).
  rewrite (apply_aliases_insert common_aliases a v []).
  2:{ intros p Hp. apply Hk. apply in_or_app. right. apply in_or_app. left.
      apply (in_map fst). exact Hp. }
  2:{ intros p Hp Heq. exfalso. symmetry in Heq. revert Heq. apply Hk.
      apply in_or_app. right. apply in_or_app. right. apply (in_map snd). exact Hp. }
  2:{ intros p _ []. }
  2:{ intros x []. }
  set (s2 := apply_aliases common_aliases s1).
  rewrite anchor_method_insert by (intros x Hx; apply Hk; cbn in Hx |- *; tauto).
  destruct (alias_anchor_method s2) as [s3|ex]; [|reflexivity].
  rewrite fmap_insert_Ok, !bind_Ok.
  rewrite alias_field_insert_ne by (apply Hk; cbn; tauto).
  rewrite pattern_insert by (intros x Hx; apply Hk; cbn in Hx |- *; tauto).
  destruct (alias_pattern _) as [s5|ex]; [|reflexivity].
  rewrite fmap_insert_Ok, !bind_Ok.
  rewrite alias_field_insert_ne by (apply Hk; cbn; tauto).
  rewrite upgrade_insert by (intros x Hx; apply Hk; cbn in Hx |- *; tauto).
  rewrite lsp_range_insert by (intros x Hx; apply Hk; cbn in Hx |- *; tauto).
  f_equal. apply lsp_range_edit.
  rewrite !lookup_insert_ne; [reflexivity | discriminate | apply Hk; cbn; tauto].
Qed.

Lemma normalize_edit_extra (a : string) (v : value) (X Y : dict) (script_name : string) :
  In a ["operation"; "type"; "mode"] →
  _unwrap_and_alias X = insert a v <$> _unwrap_and_alias Y →
  (∀ e', _unwrap_and_alias Y = Ok e' → truthy (get e' "op") = true) →
  normalize_edit (VDict X) script_name = insert a v <$> normalize_edit (VDict Y) script_name.
Proof.
  intros Ha H Hop.
  assert (Hk : ∀ x, In x ["op"; "className"; "text"; "insert"; "content"; "replacement"]
                    → a ≠ x)
    by (apply op_alias_ne; [exact Ha | vm_compute; reflexivity]).
  unfold normalize_edit. rewrite H.
  destruct (_unwrap_and_alias Y) as [e'|ex]; [|reflexivity].
  specialize (Hop e' eq_refl). rewrite fmap_insert_Ok, !bind_Ok.
  rewrite (op_of_named a v e') by (exact Hop || (apply Hk; cbn; tauto)).
  destruct (op_of e') as [op|ex]; [|reflexivity]. rewrite !bind_Ok.
  rewrite (get_insert_ne e' a "className") by key_ne.
  set (e1 := if in_list op _ && negb (truthy (get e' "className"))
             then <["className" := VStr script_name]> e' else e').
  assert (H1 : (if in_list op ["replace_class"; "delete_class"; "replace_method";
                               "delete_method"; "insert_method"]
                   && negb (truthy (get e' "className"))
                then <["className" := VStr script_name]> (<[a := v]> e') else <[a := v]> e')
               = <[a := v]> e1).
  { unfold e1. destruct (_ && _); [|reflexivity]. apply insert_insert_ne. key_ne. }
  rewrite H1. clearbody e1. clear H1.
  destruct (in_list op ["text_replace"]).
  { cbn. f_equal. apply insert_insert_ne. key_ne. }
  destruct (in_list op ["regex_delete"]).
  { cbn. f_equal. rewrite (insert_insert_ne e1 "op" a) by key_ne.
    rewrite has_insert_ne by key_ne.
    destruct (has _ "text"); [reflexivity|]. apply insert_insert_ne. key_ne. }
  rewrite !has_insert_ne, !get_insert_ne, !get_or_insert_ne by key_ne.
  set (e2 := if String.eqb op "regex_replace" && negb (has e1 "replacement")
             then _ else e1).
  assert (H2 : (if String.eqb op "regex_replace" && negb (has e1 "replacement")
                then if has e1 "text"
                     then <["replacement" := get_or e1 "text" (VStr "")]> (<[a := v]> e1)
                     else if has e1 "insert" || has e1 "content"
                          then <["replacement" := get e1 "insert" `or` get e1 "content"
                                                  `or` VStr ""]> (<[a := v]> e1)
                          else <[a := v]> e1
                else <[a := v]> e1)
               = <[a := v]> e2).
  { unfold e2. destruct (_ && _); [|reflexivity].
    destruct (has e1 "text"); [apply insert_insert_ne; key_ne|].
    destruct (_ || _); [apply insert_insert_ne; key_ne | reflexivity]. }
  rewrite H2. clearbody e2. clear H2.
  rewrite !get_insert_ne by key_ne.
  destruct (_ && _); cbn; f_equal. apply insert_insert_ne. key_ne.
Qed.


Lemma unwrap_flat (keys : list string) (e : dict) :
  (∀ k, In k keys → ∀ d, e !! k ≠ Some (VDict d)) → unwrap keys e = e.
Proof.
  induction keys as [|k keys IH]; intros H; [reflexivity|]. cbn [unwrap].
  destruct (e !! k) as [[| | | | |d]|] eqn:Hk; try (apply IH; intros; apply H; right; assumption).
  exfalso. exact (H k (or_introl eq_refl) d Hk).
Qed.

Lemma unwrap_flat_insert (a : string) (v : value) (e0 : dict) :
  ¬ In a wrapper_keys → flat e0 → unwrap wrapper_keys (<[a := v]> e0) = <[a := v]> e0.
Proof.
  intros Ha Hflat. apply unwrap_flat. intros k Hk d.
  rewrite lookup_insert_ne by (intros ->; contradiction). apply Hflat. exact Hk.
Qed.

Lemma op_of_wrapper (k : string) (s : dict) :
  In k wrapper_keys → op_of (<["op" := VStr k]> s) = Ok k.
Proof.
  intros Hk. unfold op_of. rewrite get_insert_eq.
  cbn in Hk. repeat (destruct Hk as [<-|Hk]; [reflexivity|]). contradiction.
Qed.

Lemma lacks_set_op (s : dict) (k : string) (keys : list string) :
  ¬ In "op" keys → lacks s keys → lacks (<["op" := VStr k]> s) keys.
Proof.
  intros Hop Hl x Hx. rewrite lookup_insert_ne by (intros <-; contradiction). apply Hl, Hx.
Qed.

(** C8 (amended).  An edit that supplies a field under one of its alias
    spellings is normalised to the same result, value or exception, as the
    edit that supplies it under the canonical name, the field being supplied
    once, at the top level of the edit or inside a wrapper: [class_name],
    [class]; [method_name], [target], [method]; [new_content], [newMethod],
    [new_method], [content]; [after], [after_method]; [before],
    [before_method]; [anchorText]; [newText]; [pattern] for [anchor] when
    the operation name starts with [anchor_]; [anchor_method] for
    [beforeMethodName] when the position reads [before] and for
    [afterMethodName] otherwise, the position being a string or falsy.  For
    an edit that is not in wrapper form and names an operation, [operation],
    [type] and [mode] give the result of [op] with one more key: the
    spelling stays in the normalised edit beside [op].  A field that the
    edit, once unwrapped, has under its canonical name keeps its value
    through the normalisation. *)
Theorem alias_invariance :
  (∀ a c v e0 script_name,
     In (a, c) field_aliases → lacks e0 (spellings c) →
     _unwrap_and_alias (<[a := v]> e0) = _unwrap_and_alias (<[c := v]> e0)
     ∧ normalize_edit (VDict (<[a := v]> e0)) script_name
       = normalize_edit (VDict (<[c := v]> e0)) script_name)
  ∧ (∀ a c v k inner outer script_name,
       In (a, c) field_aliases → In k wrapper_keys → lacks inner (spellings c) →
       _unwrap_and_alias (wrapped k (<[a := v]> inner) outer)
       = _unwrap_and_alias (wrapped k (<[c := v]> inner) outer)
       ∧ normalize_edit (VDict (wrapped k (<[a := v]> inner) outer)) script_name
         = normalize_edit (VDict (wrapped k (<[c := v]> inner) outer)) script_name)
  ∧ (∀ v e0 op script_name,
       lacks e0 ["anchor"; "anchorText"; "pattern"] →
       op_of e0 = Ok op → PyStr.startswith op "anchor_" = true →
       _unwrap_and_alias (<["pattern" := v]> e0) = _unwrap_and_alias (<["anchor" := v]> e0)
       ∧ normalize_edit (VDict (<["pattern" := v]> e0)) script_name
         = normalize_edit (VDict (<["anchor" := v]> e0)) script_name)
  ∧ (∀ v k inner outer script_name,
       In k ["anchor_insert"; "anchor_replace"; "anchor_delete"] →
       lacks inner ["anchor"; "anchorText"; "pattern"] →
       _unwrap_and_alias (wrapped k (<["pattern" := v]> inner) outer)
       = _unwrap_and_alias (wrapped k (<["anchor" := v]> inner) outer)
       ∧ normalize_edit (VDict (wrapped k (<["pattern" := v]> inner) outer)) script_name
         = normalize_edit (VDict (wrapped k (<["anchor" := v]> inner) outer)) script_name)
  ∧ (∀ v e0 pos script_name,
       str_attr (get e0 "position" `or` VStr "after") = Ok pos →
       lacks e0 ("anchor_method" :: spellings (anchor_method_field pos)) →
       _unwrap_and_alias (<["anchor_method" := v]> e0)
       = _unwrap_and_alias (<[anchor_method_field pos := v]> e0)
       ∧ normalize_edit (VDict (<["anchor_method" := v]> e0)) script_name
         = normalize_edit (VDict (<[anchor_method_field pos := v]> e0)) script_name)
  ∧ (∀ v k inner outer pos script_name,
       In k wrapper_keys →
       str_attr (get inner "position" `or` VStr "after") = Ok pos →
       lacks inner ("anchor_method" :: spellings (anchor_method_field pos)) →
       _unwrap_and_alias (wrapped k (<["anchor_method" := v]> inner) outer)
       = _unwrap_and_alias (wrapped k (<[anchor_method_field pos := v]> inner) outer)
       ∧ normalize_edit (VDict (wrapped k (<["anchor_method" := v]> inner) outer)) script_name
         = normalize_edit (VDict (wrapped k (<[anchor_method_field pos := v]> inner) outer))
                          script_name)
  ∧ (∀ a v e0 op script_name,
       In a op_aliases → lacks e0 ("op" :: op_aliases) → flat e0 →
       op_of (<["op" := v]> e0) = Ok op → PyStr.is_empty op = false →
       _unwrap_and_alias (<[a := v]> e0) = insert a v <$> _unwrap_and_alias (<["op" := v]> e0)
       ∧ normalize_edit (VDict (<[a := v]> e0)) script_name
         = insert a v <$> normalize_edit (VDict (<["op" := v]> e0)) script_name
       ∧ ∀ e', _unwrap_and_alias (<["op" := v]> e0) = Ok e' → e' !! a = None)
  ∧ (∀ k v e e',
       In k canonical_fields → unwrap wrapper_keys e !! k = Some v →
       _unwrap_and_alias e = Ok e' → e' !! k = Some v).
Proof.
  split; [|split; [|split; [|split; [|split; [|split; [|split]]]]]].
  - intros a c v e0 script_name Hin Hl.
    assert (Heq : _unwrap_and_alias (<[a := v]> e0) = _unwrap_and_alias (<[c := v]> e0)).
    { destruct (alias_not_wrapper a c Hin) as [Hwa Hwc].
      apply unwrap_and_alias_flat; [exact Hwa | exact Hwc|].
      apply (alias_fields_twin a c v); [exact Hin|].
      exists e0. split; [exact Hl|]. split; reflexivity. }
    split; [exact Heq | apply normalize_edit_same, Heq].
  - intros a c v k inner outer script_name Hin Hk Hl.
    assert (Heq : _unwrap_and_alias (wrapped k (<[a := v]> inner) outer)
                  = _unwrap_and_alias (wrapped k (<[c := v]> inner) outer)).
    { apply unwrap_and_alias_wrapped; [exact Hk|].
      apply alias_fields_twin_wrapped; assumption. }
    split; [exact Heq | apply normalize_edit_same, Heq].
  - intros v e0 op script_name Hl Hop Hpre.
    assert (Heq : _unwrap_and_alias (<["pattern" := v]> e0)
                  = _unwrap_and_alias (<["anchor" := v]> e0)).
    { apply unwrap_and_alias_flat; [vm_compute; intuition discriminate..|].
      apply (alias_fields_pattern v e0 op); assumption. }
    split; [exact Heq | apply normalize_edit_same, Heq].
  - intros v k inner outer script_name Hk Hl.
    assert (Hw : In k wrapper_keys) by (cbn in Hk |- *; tauto).
    assert (Heq : _unwrap_and_alias (wrapped k (<["pattern" := v]> inner) outer)
                  = _unwrap_and_alias (wrapped k (<["anchor" := v]> inner) outer)).
    { apply unwrap_and_alias_wrapped; [exact Hw|].
      rewrite !(insert_insert_ne inner "op") by discriminate.
      apply (alias_fields_pattern v _ k).
      - apply lacks_set_op; [cbn; intuition discriminate | exact Hl].
      - apply op_of_wrapper, Hw.
      - cbn in Hk. destruct Hk as [<-|[<-|[<-|[]]]]; reflexivity. }
    split; [exact Heq | apply normalize_edit_same, Heq].
  - intros v e0 pos script_name Hpos Hl.
    assert (Hc : anchor_method_field pos = "beforeMethodName"
                 ∨ anchor_method_field pos = "afterMethodName")
      by (unfold anchor_method_field; destruct (String.eqb _ _); tauto).
    assert (Heq : _unwrap_and_alias (<["anchor_method" := v]> e0)
                  = _unwrap_and_alias (<[anchor_method_field pos := v]> e0)).
    { apply unwrap_and_alias_flat;
        [vm_compute; intuition discriminate
        |destruct Hc as [-> | ->]; vm_compute; intuition discriminate|].
      apply (alias_fields_anchor_method v e0 pos); [exact Hpos | reflexivity | exact Hl]. }
    split; [exact Heq | apply normalize_edit_same, Heq].
  - intros v k inner outer pos script_name Hk Hpos Hl.
    assert (Hc : anchor_method_field pos = "beforeMethodName"
                 ∨ anchor_method_field pos = "afterMethodName")
      by (unfold anchor_method_field; destruct (String.eqb _ _); tauto).
    assert (Heq : _unwrap_and_alias (wrapped k (<["anchor_method" := v]> inner) outer)
                  = _unwrap_and_alias (wrapped k (<[anchor_method_field pos := v]> inner) outer)).
    { apply unwrap_and_alias_wrapped; [exact Hk|].
      rewrite (insert_insert_ne inner "op" "anchor_method") by discriminate.
      rewrite (insert_insert_ne inner "op" (anchor_method_field pos))
        by (destruct Hc as [-> | ->]; discriminate).
      apply (alias_fields_anchor_method v _ pos).
      - rewrite get_insert_ne by discriminate. exact Hpos.
      - reflexivity.
      - apply lacks_set_op; [|exact Hl].
        destruct Hc as [-> | ->]; vm_compute; intuition discriminate. }
    split; [exact Heq | apply normalize_edit_same, Heq].
  - intros a v e0 op script_name Ha Hl Hflat Hop Hne.
    assert (Hwa : ¬ In a wrapper_keys).
    { intros Hw. cbn in Ha, Hw. intuition congruence. }
    assert (Heq : _unwrap_and_alias (<[a := v]> e0)
                  = insert a v <$> _unwrap_and_alias (<["op" := v]> e0)).
    { unfold _unwrap_and_alias.
      rewrite (unwrap_flat_insert a v e0 Hwa Hflat).
      rewrite (unwrap_flat_insert "op" v e0 ltac:(vm_compute; intuition discriminate) Hflat).
      apply (alias_fields_op_alias a v e0 op); assumption. }
    assert (Hnone : ∀ e', _unwrap_and_alias (<["op" := v]> e0) = Ok e' → e' !! a = None).
    { intros e'. unfold _unwrap_and_alias.
      rewrite (unwrap_flat_insert "op" v e0 ltac:(vm_compute; intuition discriminate) Hflat).
      apply alias_fields_absent_key.
      - apply op_alias_ne; [exact Ha | vm_compute; reflexivity].
      - rewrite lookup_insert_ne by (intros <-; cbn in Ha; intuition discriminate).
        apply Hl. right. exact Ha. }
    split; [exact Heq|]. split; [|exact Hnone].
    apply normalize_edit_extra; [exact Ha | exact Heq|].
    intros e'. unfold _unwrap_and_alias.
    rewrite (unwrap_flat_insert "op" v e0 ltac:(vm_compute; intuition discriminate) Hflat).
    apply (alias_fields_names_op _ e' op); assumption.
  - intros k v e e' Hk He. unfold _unwrap_and_alias.
    apply alias_fields_keeps; [apply canonical_not_rewritten, Hk | exact He].
Qed.


End Normalizer.


(* ===================================================================== *)
(** * Further properties of the local applier and the anchor matcher *)
(* ===================================================================== *)

Section MoreLocalApplier.
Context {rt : Runtime}.

(** X1.  Applying a list of edits that is the concatenation of two lists
    is applying the first list and then the second to the buffer that the
    first has left; an exception raised by the first list is the outcome,
    and no edit of the second list is applied. *)
Theorem apply_edits_locally_app (text : string) (edits1 edits2 : list dict) :
  apply_edits_locally text (edits1 ++ edits2)
  = apply_edits_locally text edits1 ≫= λ text', apply_edits_locally text' edits2.
Proof.
  revert text. induction edits1 as [|e rest IH]; intros text; [reflexivity|].
  cbn [app apply_edits_locally].
  destruct (apply_edit text e) as [text'|ex]; [|reflexivity].
  rewrite !bind_Ok. apply IH.
Qed.

Lemma drop_app_len (s t : string) : PyStr.drop (PyStr.len s) (s +:+ t) = t.
Proof.
  induction s as [|c s IH]; [apply drop_0|].
  rewrite app_cons. exact IH.
Qed.

Lemma endswith_app (s t : string) : PyStr.endswith (s +:+ t) t = true.
Proof.
  unfold PyStr.endswith. rewrite len_app.
  replace (PyStr.len s + PyStr.len t - PyStr.len t)%nat with (PyStr.len s) by lia.
  rewrite drop_app_len, String.eqb_refl, andb_true_r. apply Nat.leb_le. lia.
Qed.

Lemma startswith_app (s t : string) : PyStr.startswith (s +:+ t) s = true.
Proof.
  unfold PyStr.startswith. induction s as [|c s IH].
  - destruct t; reflexivity.
  - rewrite app_cons. cbn [String.prefix].
    destruct (ascii_dec c c); [exact IH | contradiction].
Qed.

Lemma app_assoc_s (s t u : string) : (s +:+ t) +:+ u = s +:+ (t +:+ u).
Proof. induction s as [|c s IH]; [reflexivity|]. rewrite !app_cons, IH. reflexivity. Qed.

(** X2.  A [prepend] edit with a string [text] never touches the buffer:
    the result is a block followed by the whole buffer, and the block is
    the given text, closed by a line feed when it did not end with one. *)
Theorem prepend_keeps_buffer (text : string) (edit : dict) (p : string) :
  op_of edit = Ok "prepend" →
  get_or edit "text" (VStr "") = VStr p →
  ∃ block,
    apply_edit text edit = Ok (block +:+ text)
    ∧ PyStr.startswith block p = true
    ∧ PyStr.endswith block PyStr.NL = true
    ∧ (PyStr.endswith p PyStr.NL = true → block = p).
Proof.
  intros Hop Htext. unfold apply_edit. rewrite Hop, bind_Ok.
  cbn [PyStr.is_empty String.eqb Ascii.eqb Bool.eqb]. rewrite Htext. cbn [str_attr]. rewrite bind_Ok.
  destruct (PyStr.endswith p PyStr.NL) eqn:Hend.
  - exists p. split; [reflexivity|]. split; [|split; [exact Hend | reflexivity]].
    rewrite <- (app_empty_r p) at 1. apply startswith_app.
  - exists (p +:+ PyStr.NL). split; [reflexivity|].
    split; [apply startswith_app|]. split; [apply endswith_app | discriminate].
Qed.

(** X3.  An [append] edit with a string [text] keeps the buffer as a
    prefix of the result, and the result always ends with a line feed; no
    line feed is added when the buffer and the buffer with the text after
    it end with one already.  Appending to the empty buffer yields a
    result that starts with a line feed. *)
Theorem append_ends_with_newline (text : string) (edit : dict) (a : string) :
  op_of edit = Ok "append" →
  get_or edit "text" (VStr "") = VStr a →
  ∃ r,
    apply_edit text edit = Ok r
    ∧ PyStr.startswith r text = true
    ∧ PyStr.endswith r PyStr.NL = true
    ∧ (PyStr.endswith text PyStr.NL = true → PyStr.endswith (text +:+ a) PyStr.NL = true →
       r = text +:+ a)
    ∧ (text = EmptyString → PyStr.startswith r PyStr.NL = true).
Proof.
  intros Hop Htext. unfold apply_edit. rewrite Hop, bind_Ok.
  cbn [PyStr.is_empty String.eqb Ascii.eqb Bool.eqb]. rewrite Htext. cbn [str_operand]. rewrite bind_Ok.
  destruct (PyStr.endswith text PyStr.NL) eqn:Hend; cbn [negb].
  - destruct (PyStr.endswith (text +:+ a) PyStr.NL) eqn:Hend2; cbn [negb];
      eexists; (split; [reflexivity|]).
    + split; [apply startswith_app|]. split; [exact Hend2|].
      split; [reflexivity|]. intros ->. discriminate.
    + rewrite app_assoc_s. split; [apply startswith_app|].
      rewrite <- app_assoc_s. split; [apply endswith_app|].
      split; [discriminate|]. intros ->. discriminate.
  - destruct (PyStr.endswith ((text +:+ PyStr.NL) +:+ a) PyStr.NL) eqn:Hend2; cbn [negb];
      eexists; (split; [reflexivity|]).
    + rewrite app_assoc_s. split; [apply startswith_app|].
      rewrite <- app_assoc_s. split; [exact Hend2|].
      split; [discriminate|]. intros ->. exact (startswith_app PyStr.NL a).
    + rewrite !app_assoc_s. split; [apply startswith_app|].
      rewrite <- !app_assoc_s. split; [apply endswith_app|].
      split; [discriminate|]. intros ->. exact (startswith_app PyStr.NL (a +:+ PyStr.NL)).
Qed.

Lemma in_list_cons_false (s x : string) (l : list string) :
  in_list s (x :: l) = false → String.eqb s x = false ∧ in_list s l = false.
Proof. unfold in_list. cbn [existsb]. apply orb_false_iff. Qed.

(** X4.  The local applier knows five operations.  An edit whose
    operation name, resolved with the aliases and brought to lower case,
    is none of [prepend], [append], [anchor_insert], [replace_range] and
    [regex_replace] makes [apply_edits_locally] raise a [RuntimeError],
    whatever the buffer and the edits after it; the message is the one
    that asks for an [op] exactly when the name is empty.  Every structured
    operation other than [anchor_insert] is refused in this way. *)
Theorem local_applier_rejects (text : string) (edit : dict) (rest : list dict) (op : string) :
  op_of edit = Ok op →
  in_list op ["prepend"; "append"; "anchor_insert"; "replace_range"; "regex_replace"] = false →
  (∃ msg, apply_edits_locally text (edit :: rest) = Raise (RuntimeError msg))
  ∧ (op = EmptyString ↔
     apply_edits_locally text (edit :: rest)
     = Raise (RuntimeError ("op is required; allowed: " +:+ allowed_ops
         +:+ ". Use 'op' (aliases accepted: type/mode/operation).")))
  ∧ ∀ t, In t STRUCT → t ≠ "anchor_insert" →
         in_list t ["prepend"; "append"; "anchor_insert"; "replace_range"; "regex_replace"] = false.
Proof.
  intros Hop Hout.
  assert (Hstep : apply_edit text edit
    = if PyStr.is_empty op
      then Raise (RuntimeError ("op is required; allowed: " +:+ allowed_ops
             +:+ ". Use 'op' (aliases accepted: type/mode/operation)."))
      else Raise (RuntimeError ("unknown edit op: " +:+ op +:+ "; allowed: " +:+ allowed_ops
             +:+ ". Use 'op' (aliases accepted: type/mode/operation)."))).
  { unfold apply_edit. rewrite Hop, bind_Ok.
    destruct (PyStr.is_empty op); [reflexivity|].
    apply in_list_cons_false in Hout as [-> Hout].
    apply in_list_cons_false in Hout as [-> Hout].
    apply in_list_cons_false in Hout as [-> Hout].
    apply in_list_cons_false in Hout as [-> Hout].
    apply in_list_cons_false in Hout as [-> Hout]. reflexivity. }
  cbn [apply_edits_locally]. rewrite Hstep. split; [|split].
  - destruct (PyStr.is_empty op); eexists; reflexivity.
  - destruct op as [|c op]; cbn [PyStr.is_empty mbind res_bind]; split; try reflexivity;
      discriminate.
  - intros t Ht Hne. cbn in Ht.
    repeat (destruct Ht as [<-|Ht]); try contradiction; reflexivity.
Qed.

Lemma last_In {A} (l : list A) (m : A) : List.last (Some <$> l) None = Some m → In m l.
Proof.
  induction l as [|x l IH]; [discriminate|]. destruct l as [|y l].
  - cbn. intros [= ->]. left. reflexivity.
  - intros H. right. apply IH. exact H.
Qed.

Lemma last_Some {A} (l : list A) : l ≠ [] → ∃ m, List.last (Some <$> l) None = Some m.
Proof.
  induction l as [|x l IH]; [contradiction|]. intros _. destruct l as [|y l].
  - exists x. reflexivity.
  - destruct (IH ltac:(discriminate)) as [m Hm]. exists m. exact Hm.
Qed.

(** X5.  For a pattern that compiles, [find_best_anchor_match] returns
    [None] exactly when the pattern has no match in the text, and otherwise
    one of the matches that [re.finditer] yields, whatever the scoring has
    decided.  For a pattern that does not look like a closing brace the
    answer is the last match when the caller prefers the last one and the
    first match otherwise. *)
Theorem anchor_match_is_a_match (pattern text : string) (flags : re_flags)
    (prefer_last : bool) (matches : list re_match) :
  re_finditer pattern text flags = Ok matches →
  (matches = [] → find_best_anchor_match pattern text flags prefer_last = Ok None)
  ∧ (matches ≠ [] →
     ∃ m, find_best_anchor_match pattern text flags prefer_last = Ok (Some m) ∧ In m matches)
  ∧ (is_closing_brace_pattern pattern = false →
     find_best_anchor_match pattern text flags prefer_last
     = Ok (if prefer_last then List.last (Some <$> matches) None else List.head matches)).
Proof.
  intros Hre. unfold find_best_anchor_match. rewrite Hre, bind_Ok. split; [|split].
  - intros ->. reflexivity.
  - intros Hne. destruct matches as [|m1 [|m2 l]]; [contradiction| |].
    + exists m1. split; [reflexivity | left; reflexivity].
    + fold (is_closing_brace_pattern pattern).
      destruct (is_closing_brace_pattern pattern && prefer_last).
      * destruct (best_match_is_first_best (m1 :: m2 :: l) text ltac:(discriminate))
          as (m & Hm & (pre & post & Hsplit & _)).
        exists m. split; [rewrite Hm; reflexivity|]. rewrite Hsplit.
        apply in_or_app. right. left. reflexivity.
      * destruct prefer_last.
        -- destruct (last_Some (m1 :: m2 :: l) ltac:(discriminate)) as [m Hm].
           exists m. split; [rewrite Hm; reflexivity | apply last_In, Hm].
        -- exists m1. split; [reflexivity | left; reflexivity].
  - intros Hshape. destruct matches as [|m1 [|m2 l]].
    + destruct prefer_last; reflexivity.
    + destruct prefer_last; reflexivity.
    + fold (is_closing_brace_pattern pattern). rewrite Hshape. reflexivity.
Qed.

End MoreLocalApplier.

(* ===================================================================== *)
(** * Further properties of the results and of the conversion to spans *)
(* ===================================================================== *)

Section Replacements.
Context {rt : Runtime}.

Lemma dollar_sub_plain (f : string → res string) (s : string) :
  has_backref s = false →
  dollar_sub_from f None s = Ok s
  ∧ (match s with String d _ => PyStr.isdigit d | EmptyString => false end = false →
     dollar_sub_from f (Some EmptyString) s = Ok (String "$" s)).
Proof.
  induction s as [|c r IH]; intros Hs.
  - split; reflexivity.
  - cbn [has_backref] in Hs. apply orb_false_iff in Hs as [Hc Hr].
    destruct (IH Hr) as [IHnone IHsome].
    assert (Hpost : (if Ascii.eqb c "$" then dollar_sub_from f (Some EmptyString) r
                     else String c <$> dollar_sub_from f None r) = Ok (String c r)).
    { destruct (Ascii.eqb_spec c "$") as [->|Hne].
      - cbn [andb] in Hc. apply IHsome. exact Hc.
      - rewrite IHnone. reflexivity. }
    split.
    + cbn [dollar_sub_from]. exact Hpost.
    + intros Hd. cbn [dollar_sub_from]. rewrite Hd.
      cbn [flush_backref]. rewrite bind_Ok, Hpost. reflexivity.
Qed.

(** X6.  A replacement text in which no dollar sign is followed by a
    digit is taken as it is: [_DOLLAR_BACKREF_PATTERN.sub] returns it
    unchanged and never calls its function, so the local applier hands it
    to [re.sub] as the template and [_expand_dollars] returns it for every
    match.  A dollar sign before anything but a digit is kept. *)
Theorem replacement_without_backref (s : string) :
  has_backref s = false →
  (∀ f, _DOLLAR_BACKREF_PATTERN_sub f s = Ok s)
  ∧ (∀ m, _expand_dollars m (VStr s) = Ok s).
Proof.
  intros Hs. split.
  - intros f. apply dollar_sub_plain. exact Hs.
  - intros m. unfold _expand_dollars. cbn [str_operand]. rewrite bind_Ok.
    apply dollar_sub_plain. exact Hs.
Qed.

(** X7.  [_with_norm] is idempotent: a result that it has returned is
    returned unchanged when it is passed again with the same routing label,
    whatever list of edits comes with it, so the echo of the normalised
    edits attached first is the one that stays. *)
Theorem with_norm_idempotent (resp resp' : value) (edits edits' : list dict)
    (routing : option string) :
  _with_norm resp edits routing = Ok resp' →
  _with_norm resp' edits' routing = Ok resp'.
Proof.
  destruct resp as [| | | | |r]; try (intros [= <-]; reflexivity).
  unfold _with_norm at 1.
  destruct (match r !! "data" with
            | Some (VDict d) => Ok d | Some _ => Raise AttributeError | None => Ok ∅
            end) as [data|]; rewrite ?bind_Ok, ?bind_Raise; [|discriminate].
  intros [= <-]. unfold _with_norm. rewrite lookup_insert_eq, bind_Ok.
  set (d1 := if has data "normalizedEdits" then data else <["normalizedEdits" := echo edits]> data).
  assert (H1 : has d1 "normalizedEdits" = true).
  { unfold d1. destruct (has data "normalizedEdits") eqn:Hd; [exact Hd | apply has_insert_eq]. }
  destruct routing as [l|].
  - destruct (PyStr.is_empty l).
    + rewrite H1, insert_insert_eq. reflexivity.
    + rewrite has_insert_ne, H1 by discriminate. rewrite !insert_insert_eq. reflexivity.
  - rewrite H1, insert_insert_eq. reflexivity.
Qed.

End Replacements.

(* ===================================================================== *)
(** * Further properties of the validation and of the dispatch *)
(* ===================================================================== *)

Section Validation.
Context {rt : Runtime}.







Lemma validate_edit_passes (echo_ : list dict) (e : dict) :
  validate_edit echo_ e = Ok None ↔ requirements_met e.
Proof.
  unfold validate_edit, requirements_met.
  destruct (get_or e "op" (VStr "")) as [| | |op| |];
    try (cbn [str_eqb orb]; split; [intros _; repeat split; discriminate | reflexivity]).
  cbn [str_eqb].
  destruct (String.eqb_spec op "replace_method") as [->|H1].
  { cbn [String.eqb Ascii.eqb Bool.eqb orb].
    destruct (truthy (get e "methodName")); cbn [negb].
    - destruct (truthy (get e "replacement" `or` get e "text")); cbn [negb]; split;
        try discriminate; try reflexivity.
      + intros _. repeat split; discriminate.
      + intros (H & _). destruct (H eq_refl) as [_ ?]. discriminate.
    - split; [discriminate|]. intros (H & _). destruct (H eq_refl) as [? _]. discriminate. }
  destruct (String.eqb_spec op "insert_method") as [->|H2].
  { cbn [String.eqb Ascii.eqb Bool.eqb orb].
    destruct (truthy (get e "replacement" `or` get e "text")); cbn [negb].
    - destruct (PyStr.lower <$> str_attr (get e "position" `or` VStr "")) as [pos|ex];
        rewrite ?bind_Ok, ?bind_Raise.
      + destruct (String.eqb_spec pos "after") as [->|Ha]; cbn [andb].
        * destruct (truthy (get e "afterMethodName")); cbn [negb].
          -- cbn [String.eqb Ascii.eqb Bool.eqb andb]. split; [|reflexivity].
             intros _. repeat split; try discriminate.
             eexists. split; [reflexivity|]. split; [reflexivity | discriminate].
          -- split; [discriminate|]. intros (_ & H & _).
             destruct (H eq_refl) as (_ & pos & [= <-] & Hafter & _).
             specialize (Hafter eq_refl). discriminate.
        * destruct (String.eqb_spec pos "before") as [->|Hb]; cbn [andb].
          -- destruct (truthy (get e "beforeMethodName")); cbn [negb].
             ++ split; [|reflexivity]. intros _. repeat split; try discriminate.
                eexists. split; [reflexivity|]. split; [discriminate | reflexivity].
             ++ split; [discriminate|]. intros (_ & H & _).
                destruct (H eq_refl) as (_ & pos & [= <-] & _ & Hbefore).
                specialize (Hbefore eq_refl). discriminate.
          -- split; [|reflexivity]. intros _. repeat split; try discriminate.
             eexists. split; [reflexivity|]. split; intros; contradiction.
      + split; [discriminate|]. intros (_ & H & _).
        destruct (H eq_refl) as (_ & pos & Hpos & _). discriminate.
    - split; [discriminate|]. intros (_ & H & _). destruct (H eq_refl) as [? _]. discriminate. }
  destruct (String.eqb_spec op "delete_method") as [->|H3].
  { cbn [String.eqb Ascii.eqb Bool.eqb orb].
    destruct (truthy (get e "methodName")); cbn [negb].
    - split; [|reflexivity]. intros _. repeat split; discriminate.
    - split; [discriminate|]. intros (_ & _ & H & _). specialize (H eq_refl). discriminate. }
  destruct (String.eqb op "anchor_insert" || String.eqb op "anchor_replace"
            || String.eqb op "anchor_delete") eqn:Hanchor.
  - destruct (truthy (get e "anchor")); cbn [negb].
    + destruct (String.eqb op "anchor_insert" || String.eqb op "anchor_replace") eqn:Htext;
        cbn [andb].
      * destruct (truthy (get e "text" `or` get e "replacement")); cbn [negb].
        -- split; [|reflexivity]. intros _. repeat split; discriminate.
        -- split; [discriminate|]. intros (_ & _ & _ & _ & H). specialize (H eq_refl).
           discriminate.
      * split; [|reflexivity]. intros _. repeat split; discriminate.
    + split; [discriminate|]. intros (_ & _ & _ & H & _). specialize (H eq_refl). discriminate.
  - split; [|reflexivity]. intros _.
    apply orb_false_iff in Hanchor as [[Hi Hr]%orb_false_iff _]. rewrite Hi, Hr.
    repeat split; discriminate.
Qed.

(** X9.  The validation loop lets a batch pass exactly when every edit
    has the fields of its operation: [methodName] and a replacement for
    [replace_method]; a replacement for [insert_method], a string or no
    [position], and [afterMethodName] or [beforeMethodName] with the
    position [after] or [before]; [methodName] for [delete_method]; an
    [anchor] for the three anchor operations and a text for [anchor_insert]
    and [anchor_replace].  Nothing is asked of any other operation. *)
Theorem validation_passes_iff (echo_ : list dict) (edits : list dict) :
  validate_edits echo_ edits = Ok None ↔ Forall requirements_met edits.
Proof.
  induction edits as [|e rest IH]; [split; [constructor | reflexivity]|].
  cbn [validate_edits]. rewrite Forall_cons, <- IH, <- (validate_edit_passes echo_ e).
  destruct (validate_edit echo_ e) as [[w|]|]; rewrite ?bind_Ok, ?bind_Raise.
  - split; [discriminate | intros [? _]; discriminate].
  - tauto.
  - split; [discriminate | intros [? _]; discriminate].
Qed.

End Validation.

Section Dispatch.
Context {rt : Runtime}.

Lemma setdefault_lookup (k : string) (v : value) (d : dict) :
  get (setdefault k v d) k = get_or d k v
  ∧ ∀ j, j ≠ k → setdefault k v d !! j = d !! j.
Proof.
  unfold setdefault, has, get, get_or.
  destruct (d !! k) as [x|] eqn:Hk.
  - rewrite Hk. split; [reflexivity|]. intros; reflexivity.
  - rewrite lookup_insert_eq. split; [reflexivity|].
    intros j Hj. apply lookup_insert_ne. congruence.
Qed.

Lemma edit_command_fields (name path : string) (namespace : value) (script_type : string)
    (edits : list dict) (options : dict) :
  let cmd := edit_command name path namespace script_type edits options in
  get cmd "action" = VStr "edit"
  ∧ get cmd "name" = VStr name
  ∧ get cmd "path" = VStr path
  ∧ get cmd "edits" = echo edits
  ∧ get cmd "options" = VDict options.
Proof.
  unfold edit_command, locator, mk, get. cbn [app list_to_map foldr uncurry].
  repeat split; simplify_map_eq; reflexivity.
Qed.

(** X10.  A normalised and validated batch whose tags are all structured
    is sent as exactly one command: the action is [edit], no read comes
    before it, it names the normalised script and directory and carries the
    whole batch in order; its options are those of the caller, with
    [refresh] set to ["immediate"] when the caller has given none.  The
    result is the reply of the editor to that command with the echo and
    the label ["structured"]. *)
Theorem structured_batch_is_one_command (unity : remote) (name path : string)
    (raw : list value) (options : option dict) (script_type : string) (namespace : value)
    (name' path' : string) (edits : list dict) (ops_set : list string) :
  normalize_script_locator name path = (name', path') →
  _normalize_edits raw name' = Ok edits →
  validate_edits edits edits = Ok None →
  mapM op_tag edits = Ok ops_set →
  forallb (λ t, in_list t STRUCT) ops_set = true →
  let out := script_apply_edits unity name path (VList raw) options script_type namespace in
  ∃ cmd opts,
    out.1 = [cmd]
    ∧ get cmd "action" = VStr "edit"
    ∧ get cmd "name" = VStr name' ∧ get cmd "path" = VStr path'
    ∧ get cmd "edits" = echo edits
    ∧ get cmd "options" = VDict opts
    ∧ get opts "refresh" = get_or (default ∅ options) "refresh" (VStr "immediate")
    ∧ (∀ k, k ≠ "refresh" → opts !! k = default ∅ options !! k)
    ∧ out.2 = _with_norm (as_result (unity [] cmd)) edits (Some "structured").
Proof.
  intros Hloc Hnorm Hval Hops Hs out. unfold out.
  rewrite (router_structured unity name path raw options script_type namespace name' path'
             edits ops_set Hloc Hnorm Hval Hops Hs).
  unfold structured_path. cbn [fst snd].
  destruct (edit_command_fields name' path' namespace script_type edits
              (setdefault "refresh" (VStr "immediate") (default ∅ options)))
    as (Ha & Hn & Hp & He & Ho).
  destruct (setdefault_lookup "refresh" (VStr "immediate") (default ∅ options)) as [Hr Hk].
  eexists _, _. split; [reflexivity|].
  split; [exact Ha|]. split; [exact Hn|]. split; [exact Hp|]. split; [exact He|].
  split; [exact Ho|]. split; [exact Hr|]. split; [exact Hk | reflexivity].
Qed.

Lemma text_command_action (name path : string) (namespace : value) (script_type : string)
    (at_edits : list dict) (sha : string) (options : value) :
  get (text_command name path namespace script_type at_edits sha options) "action"
  = VStr "apply_text_edits".
Proof. reflexivity. Qed.

(** X11.  On the mixed route the engine sends at most one
    [apply_text_edits] command and, after it, at most one [edit] command.
    The [edit] command carries the structured entries of the batch in
    their order, with [refresh] set to ["debounced"] when the caller has
    given none, and it is sent only when the editor has accepted the text
    command, if there was one: when the editor refuses the text command, no
    structured command follows and the refusal is the result. *)
Theorem mixed_route_order (unity : remote) (sent : list dict) (name path : string)
    (namespace : value) (script_type : string) (options : dict) (edits : list dict)
    (contents : string) :
  let out := mixed_path unity sent name path namespace script_type options edits contents in
  let struct_cmd :=
    edit_command name path namespace script_type (filter_ops STRUCT edits)
                 (setdefault "refresh" (VStr "debounced") options) in
  ∃ text_cmds struct_cmds,
    out.1 = sent ++ text_cmds ++ struct_cmds
    ∧ (length text_cmds ≤ 1)%nat ∧ (length struct_cmds ≤ 1)%nat
    ∧ (∀ t, In t text_cmds →
         get t "action" = VStr "apply_text_edits"
         ∧ (succeeded (unity sent t) = false →
            struct_cmds = []
            ∧ ∀ v, _with_norm (as_result (unity sent t)) edits (Some "mixed/text-first") = Ok v →
                   out.2 = Ok v))
    ∧ (∀ c, In c struct_cmds →
         c = struct_cmd ∧ filter_ops STRUCT edits ≠ []
         ∧ out.2 = _with_norm (as_result (unity (sent ++ text_cmds) c)) edits
                              (Some "mixed/text-first")).
Proof.
  intros out struct_cmd. unfold out, mixed_path. fold struct_cmd.
  assert (Htail : ∀ text_cmds,
    (length text_cmds ≤ 1)%nat →
    (∀ t, In t text_cmds →
       get t "action" = VStr "apply_text_edits" ∧ succeeded (unity sent t) = true) →
    let tail :=
      match filter_ops STRUCT edits with
      | [] => (sent ++ text_cmds,
               _with_norm (VDict (mk [("success", VBool true);
                                      ("message", VStr "Applied text edits (no structured ops)")]))
                          edits (Some "mixed/text-first"))
      | _ :: _ => ((sent ++ text_cmds) ++ [struct_cmd],
                   _with_norm (as_result (unity (sent ++ text_cmds) struct_cmd)) edits
                              (Some "mixed/text-first"))
      end in
    ∃ text_cmds0 struct_cmds,
      tail.1 = sent ++ text_cmds0 ++ struct_cmds
      ∧ (length text_cmds0 ≤ 1)%nat ∧ (length struct_cmds ≤ 1)%nat
      ∧ (∀ t, In t text_cmds0 →
           get t "action" = VStr "apply_text_edits"
           ∧ (succeeded (unity sent t) = false →
              struct_cmds = []
              ∧ ∀ v, _with_norm (as_result (unity sent t)) edits (Some "mixed/text-first") = Ok v →
                     tail.2 = Ok v))
      ∧ (∀ c, In c struct_cmds →
           c = struct_cmd ∧ filter_ops STRUCT edits ≠ []
           ∧ tail.2 = _with_norm (as_result (unity (sent ++ text_cmds0) c)) edits
                                 (Some "mixed/text-first"))).
  { intros text_cmds Hlen Htext tail. unfold tail.
    destruct (filter_ops STRUCT edits) as [|d l] eqn:Hstruct.
    - exists text_cmds, []. cbn [fst snd]. rewrite app_nil_r.
      split; [reflexivity|]. split; [exact Hlen|]. split; [cbn; lia|].
      split; [|intros c []].
      intros t Ht. destruct (Htext t Ht) as [Ha Hok]. split; [exact Ha|].
      rewrite Hok. discriminate.
    - exists text_cmds, [struct_cmd]. cbn [fst snd]. rewrite <- app_assoc.
      split; [reflexivity|]. split; [exact Hlen|]. split; [cbn; lia|]. split.
      + intros t Ht. destruct (Htext t Ht) as [Ha Hok]. split; [exact Ha|].
        rewrite Hok. discriminate.
      + intros c [<-|[]]. split; [reflexivity|]. split; [discriminate | reflexivity]. }
  destruct (span_loop (mixed_step contents edits) [] (filter_ops TEXT edits))
    as [[at_edits|v]|ex].
  - destruct at_edits as [|s at_edits].
    + specialize (Htail [] ltac:(cbn; lia) ltac:(intros t [])).
      rewrite app_nil_r in Htail. exact Htail.
    + set (cmd := text_command _ _ _ _ _ _ _).
      destruct (succeeded (unity sent cmd)) eqn:Hok; cbn [negb].
      * apply (Htail [cmd]); [cbn; lia|].
        intros t [<-|[]]. split; [reflexivity | exact Hok].
      * exists [cmd], []. rewrite app_nil_r.
        assert (Hfst : ∀ x : res value,
          (let '(sent0, attempt) := (sent ++ [cmd], Some <$> x) in
           match attempt with
           | Ok (Some v) => (sent0, Ok v)
           | Ok None =>
               match filter_ops STRUCT edits with
               | [] => (sent0, _with_norm (VDict (mk [("success", VBool true);
                          ("message", VStr "Applied text edits (no structured ops)")]))
                          edits (Some "mixed/text-first"))
               | _ :: _ =>
                   (sent0 ++ [struct_cmd],
                    _with_norm (as_result (unity sent0 struct_cmd)) edits
                               (Some "mixed/text-first"))
               end
           | Raise ex =>
               (sent0, _with_norm (VDict (mk [("success", VBool false);
                          ("message", VStr ("Text edit conversion failed: " +:+ exn_str ex))]))
                          edits (Some "mixed/text-first"))
           end) = (sent ++ [cmd],
                   match x with
                   | Ok v => Ok v
                   | Raise ex =>
                       _with_norm (VDict (mk [("success", VBool false);
                          ("message", VStr ("Text edit conversion failed: " +:+ exn_str ex))]))
                          edits (Some "mixed/text-first")
                   end)).
        { intros [v|ex]; reflexivity. }
        rewrite Hfst. cbn [fst snd].
        split; [reflexivity|]. split; [cbn; lia|]. split; [cbn; lia|].
        split; [|intros c []].
        intros t [<-|[]]. split; [reflexivity|]. intros _. split; [reflexivity|].
        intros v ->. reflexivity.
  - exists [], []. cbn [fst snd]. rewrite !app_nil_r.
    split; [reflexivity|]. split; [cbn; lia|]. split; [cbn; lia|].
    split; [intros t [] | intros c []].
  - exists [], []. cbn [fst snd]. rewrite !app_nil_r.
    split; [reflexivity|]. split; [cbn; lia|]. split; [cbn; lia|].
    split; [intros t [] | intros c []].
Qed.


Lemma filter_ops_none (kinds : list string) (edits : list dict) :
  ∀ ops_set,
    mapM op_tag edits = Ok ops_set →
    forallb (λ t, negb (in_list t kinds)) ops_set = true →
    filter_ops kinds edits = [].
Proof.
  induction edits as [|e rest IH]; intros ops_set Hm Hall; [reflexivity|].
  apply mapM_cons_Ok in Hm as (t & ts & -> & Ht & Hts).
  cbn [forallb] in Hall. apply andb_true_iff in Hall as [Hout Hall].
  unfold filter_ops. cbn [List.filter]. rewrite Ht.
  apply negb_true_iff in Hout. rewrite Hout. exact (IH ts Hts Hall).
Qed.

Lemma forallb_weaken {A} (p q : A → bool) (l : list A) :
  (∀ x, p x = true → q x = true) → forallb p l = true → forallb q l = true.
Proof.
  intros H. induction l as [|x l IH]; [reflexivity|]. cbn [forallb].
  intros [Hx Hl]%andb_true_iff. rewrite (H x Hx), (IH Hl). reflexivity.
Qed.

(** X12.  A batch that is not empty and none of whose tags belongs to
    the structured or to the text family takes the mixed route with nothing
    to do: once the snapshot has been read, the call sends no further
    command and yet returns a success with the message
    ["Applied text edits (no structured ops)"], the label
    ["mixed/text-first"] and the echo of the batch. *)
Theorem unknown_tags_reported_applied (unity : remote) (name path : string)
    (raw : list value) (options : option dict) (script_type : string) (namespace : value)
    (name' path' : string) (edits : list dict) (ops_set : list string)
    (r : dict) (contents : string) :
  normalize_script_locator name path = (name', path') →
  _normalize_edits raw name' = Ok edits →
  validate_edits edits edits = Ok None →
  mapM op_tag edits = Ok ops_set →
  ops_set ≠ [] →
  forallb (λ t, negb (in_list t STRUCT) && negb (in_list t TEXT)) ops_set = true →
  let read := mk (locator "read" name' path' namespace script_type) in
  unity [] read = VDict r →
  truthy (get r "success") = true →
  read_contents r = Ok (Next contents) →
  ∃ v,
    script_apply_edits unity name path (VList raw) options script_type namespace
    = ([read], Ok v)
    ∧ success_of v = Some (VBool true)
    ∧ field_of "message" v = Some (VStr "Applied text edits (no structured ops)")
    ∧ routing_of v = Some (VStr "mixed/text-first")
    ∧ data_of "normalizedEdits" v = Some (echo edits).
Proof.
  intros Hloc Hnorm Hval Hops Hne Hunknown read Hread Hsucc Hcont.
  assert (Hs : forallb (λ t, in_list t STRUCT) ops_set = false).
  { destruct ops_set as [|t ts]; [contradiction|]. cbn [forallb] in Hunknown |- *.
    apply andb_true_iff in Hunknown as [[Ht _]%andb_true_iff _].
    apply negb_true_iff in Ht. rewrite Ht. reflexivity. }
  assert (Ht : forallb (λ t, in_list t TEXT) ops_set = false).
  { destruct ops_set as [|t ts]; [contradiction|]. cbn [forallb] in Hunknown |- *.
    apply andb_true_iff in Hunknown as [[_ Ht]%andb_true_iff _].
    apply negb_true_iff in Ht. rewrite Ht. reflexivity. }
  rewrite (router_read unity name path raw options script_type namespace name' path' edits
             ops_set r contents Hloc Hnorm Hval Hops Hs Hread Hsucc Hcont).
  rewrite Ht. fold read. unfold mixed_path.
  rewrite (filter_ops_none TEXT edits ops_set Hops)
    by (eapply forallb_weaken; [|exact Hunknown]; intros x [_ ?]%andb_true_iff; assumption).
  rewrite (filter_ops_none STRUCT edits ops_set Hops)
    by (eapply forallb_weaken; [|exact Hunknown]; intros x [? _]%andb_true_iff; assumption).
  cbn [span_loop]. unfold _with_norm.
  eexists. split; [reflexivity|].
  cbn [success_of field_of routing_of data_of].
  unfold mk. cbn [list_to_map foldr uncurry PyStr.is_empty has].
  repeat split; simplify_map_eq; reflexivity.
Qed.

Lemma unwrap_first (keys : list string) (k : string) (inner outer : dict) :
  In k keys →
  (∀ k', In k' keys → k' ≠ k → ∀ d, outer !! k' ≠ Some (VDict d)) →
  unwrap keys (<[k := VDict inner]> outer) = <["op" := VStr k]> inner.
Proof.
  induction keys as [|k0 keys IH]; intros Hin Hother; [destruct Hin|]. cbn [unwrap].
  destruct (decide (k0 = k)) as [->|Hne].
  - rewrite lookup_insert_eq. reflexivity.
  - rewrite lookup_insert_ne by congruence.
    destruct Hin as [?|Hin]; [contradiction|].
    destruct (outer !! k0) as [[| | | | |d]|] eqn:Hk;
      try (apply IH; [exact Hin | intros; apply Hother; [right|]; assumption]).
    exfalso. exact (Hother k0 (or_introl eq_refl) Hne d Hk).
Qed.

(** X13.  The wrapper form of an edit, [{k: inner}] with [k] one of the
    eight wrapper keys, is unwrapped and aliased exactly like the flat form
    [{**inner, "op": k}], whatever else stands beside the wrapper: the
    other fields of the outer dictionary are dropped and an [op] inside
    [inner] is overridden.  The first wrapper key that holds a dictionary
    decides, so no other wrapper key may hold one. *)
Theorem wrapper_form_is_flat_form (k : string) (inner outer : dict) :
  In k wrapper_keys →
  (∀ k', In k' wrapper_keys → k' ≠ k → ∀ d, outer !! k' ≠ Some (VDict d)) →
  (∀ k', In k' wrapper_keys → ∀ d, inner !! k' ≠ Some (VDict d)) →
  _unwrap_and_alias (<[k := VDict inner]> outer) = _unwrap_and_alias (<["op" := VStr k]> inner).
Proof.
  intros Hk Houter Hinner. unfold _unwrap_and_alias.
  rewrite (unwrap_first wrapper_keys k inner outer Hk Houter).
  rewrite unwrap_flat; [reflexivity|].
  intros k' Hk' d. rewrite lookup_insert_ne.
  - apply Hinner. exact Hk'.
  - intros <-. cbn in Hk'. intuition discriminate.
Qed.

End Dispatch.

(* ===================================================================== *)
(** * Properties of the coercion of flags and of the logging set-up *)
(* ===================================================================== *)

Section Coercion.

Lemma lower_char_idempotent (c : ascii) :
  PyStr.lower_char (PyStr.lower_char c) = PyStr.lower_char c.
Proof. destruct c as [[] [] [] [] [] [] [] []]; reflexivity. Qed.

Lemma lower_idempotent (s : string) : PyStr.lower (PyStr.lower s) = PyStr.lower s.
Proof.
  induction s as [|c r IH]; [reflexivity|].
  cbn [PyStr.lower]. rewrite lower_char_idempotent, IH. reflexivity.
Qed.

(** X14.  [coerce_bool] reads a string whatever the case of its letters
    and never falls back on the default for a string: a string that is not
    one of the five accepted words is read as [False].  It does not strip
    the string: one that holds a white-space character is read as
    [False]. *)
Theorem coerce_bool_strings (s : string) (default : bool) :
  coerce_bool (VStr (PyStr.lower s)) default = coerce_bool (VStr s) default
  ∧ coerce_bool (VStr s) true = coerce_bool (VStr s) false
  ∧ (coerce_bool (VStr s) default = true
     ↔ In (PyStr.lower s) ["true"; "1"; "yes"; "on"; "y"])
  ∧ (nospace s = false → coerce_bool (VStr s) default = false).
Proof.
  split; [|split; [|split]].
  - cbn [coerce_bool]. rewrite lower_idempotent. reflexivity.
  - reflexivity.
  - apply in_list_In.
  - intros Hs. cbn [coerce_bool]. rewrite <- nospace_lower in Hs.
    destruct (in_list (PyStr.lower s) _) eqn:Hin; [|reflexivity].
    apply in_list_In in Hin. cbn in Hin.
    destruct Hin as [H|[H|[H|[H|[H|[]]]]]]; rewrite <- H in Hs; discriminate.
Qed.

End Coercion.

Section Loggers.

Lemma existsb_eqb_In (h : nat) (l : list nat) : existsb (Nat.eqb h) l = true ↔ In h l.
Proof.
  rewrite existsb_exists. split.
  - intros (x & Hx & Heq). apply Nat.eqb_eq in Heq. subst. exact Hx.
  - intros H. exists h. split; [exact H | apply Nat.eqb_refl].
Qed.

Lemma silence_logger_other (file_handler : option nat) (reg : registry) (name other : string) :
  other ≠ name → silence_logger file_handler reg name !! other = reg !! other.
Proof. intros H. unfold silence_logger. apply lookup_insert_ne. congruence. Qed.

Lemma silence_logger_self (file_handler : option nat) (reg : registry) (name : string) :
  ∃ lg, silence_logger file_handler reg name !! name = Some lg
        ∧ silenced file_handler (getLogger name reg) lg.
Proof.
  unfold silence_logger. cbv zeta. rewrite lookup_insert_eq. eexists. split; [reflexivity|].
  unfold silenced. destruct file_handler as [h|]; cbn [level propagate handlers].
  - destruct (existsb (Nat.eqb h) (handlers (getLogger name reg))) eqn:Hin;
      cbn [negb level propagate handlers].
    + apply existsb_eqb_In in Hin.
      split; [reflexivity|]. split; [reflexivity|]. split; [reflexivity | contradiction].
    + assert (Hout : ¬ In h (handlers (getLogger name reg))).
      { intros H%existsb_eqb_In. congruence. }
      split; [reflexivity|]. split; [reflexivity|]. split; [contradiction | reflexivity].
  - split; [reflexivity|]. split; reflexivity.
Qed.

Lemma silence_loop_other (file_handler : option nat) (names : list string) (other : string) :
  ∀ reg, ¬ In other names →
         List.fold_left (silence_logger file_handler) names reg !! other = reg !! other.
Proof.
  induction names as [|n names IH]; intros reg Hout; [reflexivity|].
  cbn [List.fold_left]. rewrite IH by (intros H; apply Hout; right; exact H).
  apply silence_logger_other. intros ->. apply Hout. left. reflexivity.
Qed.

Lemma silence_loop_member (file_handler : option nat) (names : list string) (name : string) :
  NoDup names → In name names →
  ∀ reg, ∃ lg, List.fold_left (silence_logger file_handler) names reg !! name = Some lg
               ∧ silenced file_handler (getLogger name reg) lg.
Proof.
  induction names as [|n names IH]; intros Hnd Hin reg; [destruct Hin|].
  apply NoDup_cons in Hnd as [Hn Hnd]. cbn [List.fold_left].
  destruct (decide (n = name)) as [->|Hne].
  - rewrite silence_loop_other by (intros H%list_elem_of_In; apply Hn; exact H).
    apply silence_logger_self.
  - destruct Hin as [?|Hin]; [contradiction|].
    destruct (IH Hnd Hin (silence_logger file_handler reg n)) as (lg & Hlg & Hs).
    exists lg. split; [exact Hlg|].
    unfold getLogger in Hs |- *. rewrite silence_logger_other in Hs by congruence. exact Hs.
Qed.

Lemma silence_logger_again (file_handler : option nat) (reg : registry) (name : string)
    (lg : logger) :
  reg !! name = Some lg → silenced file_handler lg lg →
  silence_logger file_handler reg name = reg.
Proof.
  intros Hlg (Hl & Hp & Hh). unfold silence_logger, getLogger. cbv zeta. rewrite Hlg. cbn [default].
  apply insert_id. rewrite Hlg. f_equal.
  destruct lg as [l p hs]. cbn [level propagate handlers] in *. subst l p.
  cbn [default id level propagate handlers].
  destruct file_handler as [h|]; [|reflexivity].
  destruct (existsb (Nat.eqb h) hs) eqn:Hin; cbn [negb]; [reflexivity|].
  exfalso. destruct Hh as [_ Hout].
  assert (Habs : hs = hs ++ [h]).
  { apply Hout. intros H%existsb_eqb_In. congruence. }
  apply (f_equal (@length nat)) in Habs. rewrite length_app in Habs. cbn in Habs. lia.
Qed.

Lemma silenced_fixed (file_handler : option nat) (before after : logger) :
  silenced file_handler before after → silenced file_handler after after.
Proof.
  intros (Hl & Hp & Hh). split; [exact Hl|]. split; [exact Hp|].
  destruct file_handler as [h|]; [|reflexivity].
  split; [reflexivity|]. intros Hout. exfalso. apply Hout.
  destruct Hh as [Hin Hnot].
  destruct (in_dec Nat.eq_dec h (handlers before)) as [H|H].
  - rewrite (Hin H). exact H.
  - rewrite (Hnot H). apply in_or_app. right. left. reflexivity.
Qed.

Lemma silence_loop_again (file_handler : option nat) (names : list string) (r : registry) :
  (∀ name, In name names → ∃ lg, r !! name = Some lg ∧ silenced file_handler lg lg) →
  List.fold_left (silence_logger file_handler) names r = r.
Proof.
  induction names as [|n names IH]; intros Hall; [reflexivity|].
  cbn [List.fold_left].
  destruct (Hall n (or_introl eq_refl)) as (lg & Hlg & Hs).
  rewrite (silence_logger_again file_handler r n lg Hlg Hs).
  apply IH. intros name Hin. apply Hall. right. exact Hin.
Qed.

Lemma stdio_loggers_distinct : NoDup stdio_loggers.
Proof. apply (bool_decide_unpack _). vm_compute. reflexivity. Qed.

(** X15.  [silence_stdio_loggers] leaves each of the seven loggers at the
    level [logging.WARNING], not propagating, with the handlers it had and
    the file handler after them unless that handler was among them, so the
    handler is never attached twice; it leaves every other logger as it
    was; and calling it again with the same handler changes nothing. *)
Theorem silence_stdio_loggers_effect (file_handler : option nat) (reg : registry) :
  (∀ name, In name stdio_loggers →
     ∃ lg, silence_stdio_loggers file_handler reg !! name = Some lg
           ∧ silenced file_handler (getLogger name reg) lg)
  ∧ (∀ name, ¬ In name stdio_loggers →
       silence_stdio_loggers file_handler reg !! name = reg !! name)
  ∧ silence_stdio_loggers file_handler (silence_stdio_loggers file_handler reg)
    = silence_stdio_loggers file_handler reg.
Proof.
  split; [|split].
  - intros name Hin. apply silence_loop_member; [apply stdio_loggers_distinct | exact Hin].
  - intros name Hout. apply silence_loop_other. exact Hout.
  - apply silence_loop_again. intros name Hin.
    destruct (silence_loop_member file_handler stdio_loggers name stdio_loggers_distinct Hin reg)
      as (lg & Hlg & Hs).
    exists lg. split; [exact Hlg | eapply silenced_fixed; exact Hs].
Qed.

End Loggers.

(* ===================================================================== *)
(** * Instances of the statements on concrete inputs *)
(* ===================================================================== *)

Lemma anchor_insert_without_match_witness :
  @op_of Sample.absent_anchor = Ok "anchor_insert"
  ∧ @re_finditer Plain.runtime "zzz" "class X{}" (flags_of Sample.absent_anchor) = Ok []
  ∧ @apply_edits_locally Plain.runtime "class X{}" [Sample.absent_anchor; Sample.prepend_header]
    = @apply_edits_locally Plain.runtime "class X{}" [Sample.prepend_header].
Proof.
  split; [reflexivity|]. split; [reflexivity|].
  apply (@anchor_insert_without_match Plain.runtime "class X{}" Sample.absent_anchor
           [Sample.prepend_header] "zzz" "before");
    reflexivity.
Defined.

Lemma replace_range_bounds_witness :
  in_bounds (length (PyStr.splitlines true "abc")) 1 1 1 1
  ∧ @apply_edits_locally Plain.runtime "abc" [Sample.insert_A] = Ok "Aabc".
Proof.
  split; [unfold in_bounds; cbn; lia|].
  pose proof (@replace_range_bounds Plain.runtime "abc" Sample.insert_A 1 1 1 1 "A"
                eq_refl eq_refl eq_refl eq_refl eq_refl eq_refl) as (_ & _ & Hfront & _).
  exact (Hfront eq_refl eq_refl eq_refl eq_refl).
Defined.

Lemma mixed_spans_independent_witness :
  @own_spans Plain.runtime "abc" Sample.insert_A = [span 1 1 1 1 (VStr "A")]
  ∧ ∀ echo_ acc,
      @mixed_step Plain.runtime "abc" echo_ acc Sample.insert_A
      = Ok (Next (acc ++ @own_spans Plain.runtime "abc" Sample.insert_A)).
Proof.
  split; [reflexivity|].
  apply (@mixed_spans_independent Plain.runtime "abc"
           [Sample.insert_A; Sample.delete_F]
           [Sample.prepend_header; Sample.delete_F; Sample.insert_A]
           [span 1 1 1 1 (VStr "A")]
           [span 1 1 1 1 (VStr "// header"); span 1 1 1 1 (VStr "A")]
           eq_refl eq_refl)
    with (pre1 := []) (post1 := []) (pre2 := [Sample.prepend_header]) (post2 := []);
    reflexivity.
Defined.

(** C1, at [edits = [{"op": "replace_range", "startLine": 1, "startCol": 1,
    "endLine": 1, "endCol": 1, "text": "A"}]], [options = {"preview": True}]
    and a file that reads ["abc"]: the request is written.  The call sends
    an [apply_text_edits] command after the read and returns the reply of
    the editor, which carries no diff. *)
Lemma preview_request_is_written :
  let out := @script_apply_edits Plain.runtime (Sample.editor "abc") "Foo" "Assets"
               (VList [VDict Sample.insert_A]) Sample.preview_on "MonoBehaviour" VNone in
  actions out.1 = [VStr "read"; VStr "apply_text_edits"]
  ∧ field_of "message" <$> result_of out = Some (Some (VStr "ok"))
  ∧ data_of "diff" <$> result_of out = Some None
  ∧ routing_of <$> result_of out = Some (Some (VStr "text")).
Proof. vm_compute. repeat split. Qed.

(** C2, at [edits = [{"op": "regex_replace", "pattern": "foo",
    "replacement": "bar"}]], no options, and a file that reads ["foo"]: the
    replacement is written without confirmation.  The call sends an
    [apply_text_edits] command for the match and returns the reply of the
    editor, a success that carries no diff. *)
Lemma unconfirmed_regex_replace_is_written :
  let out := @script_apply_edits Plain.runtime (Sample.editor "foo") "Foo" "Assets"
               (VList [VDict Sample.foo_to_bar]) None "MonoBehaviour" VNone in
  actions out.1 = [VStr "read"; VStr "apply_text_edits"]
  ∧ success_of <$> result_of out = Some (Some (VBool true))
  ∧ data_of "diff" <$> result_of out = Some None.
Proof. vm_compute. repeat split. Qed.

(** C3, at [edits = [{"op": "replace_range", "startLine": 1, "startCol": 1,
    "endLine": 1, "endCol": 1, "text": ""}]] and a file that reads ["abc"]:
    applying the edits leaves the buffer as it is, yet the call sends an
    [apply_text_edits] command and returns the reply of the editor, without
    [no_op]. *)
Lemma unchanged_buffer_is_written :
  let out := @script_apply_edits Plain.runtime (Sample.editor "abc") "Foo" "Assets"
               (VList [VDict Sample.insert_nothing]) None "MonoBehaviour" VNone in
  @apply_edits_locally Plain.runtime "abc" [Sample.insert_nothing] = Ok "abc"
  ∧ actions out.1 = [VStr "read"; VStr "apply_text_edits"]
  ∧ field_of "message" <$> result_of out = Some (Some (VStr "ok"))
  ∧ data_of "no_op" <$> result_of out = Some None.
Proof. vm_compute. repeat split. Qed.

(** C4 as stated fails on two inputs.  On the empty batch every tag is a
    text tag, and the label is ["structured"], not ["text"].  On the batch
    [[{"op": "prepend", "text": "// header"}]] with an editor that answers
    the read with a failure, the result of the text route carries no label. *)
Lemma routing_label_counterexample :
  (forallb (λ t, in_list t TEXT) [] = true
   ∧ routing_of <$> result_of
       (@script_apply_edits Plain.runtime (Sample.editor "abc") "Foo" "Assets"
          (VList []) None "MonoBehaviour" VNone)
     = Some (Some (VStr "structured")))
  ∧ (mapM op_tag [Sample.prepend_header] = Ok ["prepend"]
     ∧ routing_of <$> result_of
         (@script_apply_edits Plain.runtime Sample.offline "Foo" "Assets"
            (VList [VDict Sample.prepend_header]) None "MonoBehaviour" VNone)
       = Some None).
Proof. vm_compute. repeat split. Qed.

(** C5 as stated fails on [[{"op": "prepend", "text": "// header"}]] with a
    file that reads ["class X{}"]: the batch is of the text family, nothing
    is sent after the read, and the result is the failure
    [unsupported_op].  With a [replace_range] without coordinates in front
    of the [prepend], nothing is sent either and the failure is
    [missing_field]. *)
Lemma text_batch_counterexample :
  let out := @script_apply_edits Plain.runtime (Sample.editor "class X{}") "Foo" "Assets"
               (VList [VDict Sample.prepend_header]) None "MonoBehaviour" VNone in
  let out' := @script_apply_edits Plain.runtime (Sample.editor "class X{}") "Foo" "Assets"
                (VList [VDict Sample.replace_nowhere; VDict Sample.prepend_header]) None
                "MonoBehaviour" VNone in
  mapM op_tag [Sample.prepend_header] = Ok ["prepend"]
  ∧ actions out.1 = [VStr "read"]
  ∧ field_of "code" <$> result_of out = Some (Some (VStr "unsupported_op"))
  ∧ success_of <$> result_of out = Some (Some (VBool false))
  ∧ actions out'.1 = [VStr "read"]
  ∧ field_of "code" <$> result_of out' = Some (Some (VStr "missing_field"))
  ∧ success_of <$> result_of out' = Some (Some (VBool false)).
Proof. vm_compute. repeat split. Qed.

Lemma routing_label_attached_witness :
  routing_of <$> result_of
    (@script_apply_edits Plain.runtime (Sample.editor "abc") "Foo" "Assets"
       (VList [VDict Sample.insert_A; VDict Sample.delete_F]) None "MonoBehaviour" VNone)
  = Some (Some (VStr "mixed/text-first")).
Proof.
  pose proof (@routing_label_attached Plain.runtime (Sample.editor "abc") "Foo" "Assets"
                [VDict Sample.insert_A; VDict Sample.delete_F] None "MonoBehaviour" VNone
                "Foo" "Assets" [Sample.insert_A; Sample.delete_F]
                ["replace_range"; "delete_method"]
                ltac:(vm_compute; reflexivity) ltac:(vm_compute; reflexivity)
                ltac:(vm_compute; reflexivity) ltac:(vm_compute; reflexivity)) as [_ H].
  destruct (H (mk [("success", VBool true);
                   ("data", VDict (mk [("contents", VStr "abc")]))]) "abc"
              ltac:(vm_compute; reflexivity) ltac:(vm_compute; reflexivity)
              ltac:(vm_compute; reflexivity)) as [_ Hmixed].
  destruct (Hmixed ltac:(vm_compute; reflexivity) ltac:(vm_compute; reflexivity))
    as (_ & _ & Hlabel).
  unfold result_of.
  destruct (@script_apply_edits Plain.runtime (Sample.editor "abc") "Foo" "Assets"
              (VList [VDict Sample.insert_A; VDict Sample.delete_F]) None "MonoBehaviour"
              VNone).2 as [v|ex] eqn:Hout.
  - cbn. rewrite (Hlabel v eq_refl). reflexivity.
  - vm_compute in Hout. discriminate Hout.
Defined.

Lemma text_batch_dispatch_witness :
  (@script_apply_edits Plain.runtime (Sample.editor "abc") "Foo" "Assets"
     (VList [VDict Sample.insert_A]) None "MonoBehaviour" VNone).1
  = [Sample.read_Foo;
     text_command "Foo" "Assets" VNone "MonoBehaviour" [span 1 1 1 1 (VStr "A")]
                  (@sha256_hexdigest Plain.runtime "abc")
                  (span_options ∅ [span 1 1 1 1 (VStr "A")])].
Proof.
  pose proof (@text_batch_dispatch Plain.runtime (Sample.editor "abc") "Foo" "Assets"
                [VDict Sample.insert_A] None "MonoBehaviour" VNone
                "Foo" "Assets" [Sample.insert_A] ["replace_range"]
                (mk [("success", VBool true);
                     ("data", VDict (mk [("contents", VStr "abc")]))]) "abc"
                ltac:(vm_compute; reflexivity) ltac:(vm_compute; reflexivity)
                ltac:(vm_compute; reflexivity) ltac:(vm_compute; reflexivity)
                ltac:(discriminate) ltac:(vm_compute; reflexivity)
                ltac:(vm_compute; reflexivity) ltac:(vm_compute; reflexivity)
                ltac:(vm_compute; reflexivity)) as [Hsent _].
  apply (Hsent (span 1 1 1 1 (VStr "A")) []). vm_compute. reflexivity.
Defined.

(** C7 as stated fails on four inputs.  With a signature on the second line
    after the match, the code does not take the 5 points that the stated
    window takes.  With [prefer_last=False], the first of two braces is
    returned although the second has the higher score.  With two braces at
    indentation 8 and three signature lines between them, the first brace is
    selected, not the one at the end of the file.  With the two matches of
    [\s*}\s*$] on two braces on two lines, the second match begins with the
    line break and is scored on the first line: both score 43 and the first
    brace is selected, not the one at the end of the file. *)
Lemma closing_brace_counterexample :
  (match_score (PyStr.splitlines false Sample.trailing_signature)
               (line_starts Sample.trailing_signature) (Sample.brace 0) = 42%Z
   ∧ score_as_claimed (PyStr.splitlines false Sample.trailing_signature) 0 = 37%Z)
  ∧ (@find_best_anchor_match Plain.runtime "}$" Sample.two_braces Sample.flags false
     = Ok (Some (Sample.brace 0))
     ∧ @find_best_anchor_match Plain.runtime "}$" Sample.two_braces Sample.flags true
       = Ok (Some (Sample.brace 2)))
  ∧ (@re_finditer Plain.runtime "}$" Sample.deep_braces Sample.flags
     = Ok [Sample.brace 18; Sample.brace 73]
     ∧ List.map (match_score (PyStr.splitlines false Sample.deep_braces)
                             (line_starts Sample.deep_braces))
                [Sample.brace 18; Sample.brace 73] = [12%Z; 6%Z]
     ∧ @find_best_anchor_match Plain.runtime "}$" Sample.deep_braces Sample.flags true
       = Ok (Some (Sample.brace 18)))
  ∧ (List.map (line_of (line_starts Sample.two_braces))
              [Sample.brace 0; Sample.brace_after_newline] = [0%Z; 0%Z]
     ∧ List.map (match_score (PyStr.splitlines false Sample.two_braces)
                             (line_starts Sample.two_braces))
                [Sample.brace 0; Sample.brace_after_newline] = [43%Z; 43%Z]
     ∧ _find_best_closing_brace_match [Sample.brace 0; Sample.brace_after_newline]
                                      Sample.two_braces
       = Some (Sample.brace 0)).
Proof. vm_compute. repeat split. Qed.

Lemma closing_brace_scoring_witness :
  @re_finditer Plain.runtime "}$" Sample.two_braces Sample.flags
  = Ok [Sample.brace 0; Sample.brace 2]
  ∧ @find_best_anchor_match Plain.runtime "}$" Sample.two_braces Sample.flags true
    = Ok (Some (Sample.brace 2)).
Proof.
  split; [vm_compute; reflexivity|].
  pose proof (@closing_brace_scoring Plain.runtime "}$" Sample.two_braces Sample.flags
                [Sample.brace 0; Sample.brace 2]
                ltac:(vm_compute; reflexivity) ltac:(cbn; lia)
                ltac:(vm_compute; reflexivity)) as (_ & _ & _ & _ & Hlast).
  apply (Hlast (Sample.brace 0) (Sample.brace 2) eq_refl);
    vm_compute; (reflexivity || discriminate || (intros H; discriminate H)).
Defined.

Lemma alias_invariance_witness :
  lacks Sample.replace_F (spellings "replacement")
  ∧ @_unwrap_and_alias Plain.runtime (<["new_content" := VStr "A"]> Sample.replace_F)
    = @_unwrap_and_alias Plain.runtime (<["replacement" := VStr "A"]> Sample.replace_F)
  ∧ unwrap wrapper_keys Sample.both_spellings !! "replacement" = Some (VStr "A")
  ∧ (@_unwrap_and_alias Plain.runtime Sample.both_spellings ≫= λ e', Ok (e' !! "replacement"))
    = Ok (Some (VStr "A")).
Proof.
  destruct (@alias_invariance Plain.runtime) as (Halias & _ & _ & _ & _ & _ & _ & Hkept).
  assert (Hl : lacks Sample.replace_F (spellings "replacement")).
  { intros k Hk. vm_compute in Hk.
    repeat (destruct Hk as [<-|Hk]); try contradiction; vm_compute; reflexivity. }
  split; [exact Hl|]. split.
  - apply (Halias "new_content" "replacement" (VStr "A") Sample.replace_F "Foo");
      [vm_compute; tauto | exact Hl].
  - split; [vm_compute; reflexivity|].
    assert (Hok : ∃ e', @_unwrap_and_alias Plain.runtime Sample.both_spellings = Ok e')
      by (eexists; vm_compute; reflexivity).
    destruct Hok as [e' He]. rewrite He, bind_Ok.
    rewrite (Hkept "replacement" (VStr "A") Sample.both_spellings e'
               ltac:(vm_compute; tauto) ltac:(vm_compute; reflexivity) He).
    reflexivity.
Defined.

(** C8 as stated fails on [{"type": "prepend", "text": "x"}]: the normalised
    edit has [op] and keeps [type], so that it is not the normalised edit of
    [{"op": "prepend", "text": "x"}]. *)
Lemma alias_invariance_counterexample :
  @_unwrap_and_alias Plain.runtime Sample.typed_prepend
  = Ok (mk [("type", VStr "prepend"); ("op", VStr "prepend"); ("text", VStr "x")])
  ∧ @_unwrap_and_alias Plain.runtime Sample.op_prepend
    = Ok (mk [("op", VStr "prepend"); ("text", VStr "x")])
  ∧ (λ e : dict, e !! "type") <$> @normalize_edit Plain.runtime (VDict Sample.typed_prepend) "Foo"
    = Ok (Some (VStr "prepend"))
  ∧ (λ e : dict, e !! "type") <$> @normalize_edit Plain.runtime (VDict Sample.op_prepend) "Foo"
    = Ok None.
Proof. vm_compute. repeat split. Qed.

(** The examples of the specification that the plain runtime can run, and
    the digest of a known text. *)
Example prepend_header_example :
  @apply_edits_locally Plain.runtime "class X{}" [Sample.prepend_header]
  = Ok ("// header" +:+ PyStr.NL +:+ "class X{}").
Proof. vm_compute. reflexivity. Qed.

Example empty_edit_list_example (text : string) :
  @apply_edits_locally Plain.runtime text [] = Ok text.
Proof. reflexivity. Qed.

Example sha256_abc :
  Sha256.hexdigest "abc"
  = "ba7816bf8f01cfea414140de5dae2223b00361a396177a9cb410ff61f20015ad".
Proof. vm_compute. reflexivity. Qed.

Example locator_example :
  normalize_script_locator "Assets/Scripts/Interaction/SmartReach.cs" ""
  = ("SmartReach", "Assets/Scripts/Interaction").
Proof. vm_compute. reflexivity. Qed.

(** A [regex_replace] that gives its text under [replacement] alone: the
    text route sends an empty text for the match, the mixed route the
    replacement. *)
Example text_route_replacement_example :
  (λ c, get c "edits") <$>
    (@script_apply_edits Plain.runtime (Sample.editor "foo") "Foo" "Assets"
       (VList [VDict Sample.foo_to_bar]) (Some (mk [("confirm", VBool true)]))
       "MonoBehaviour" VNone).1
  = [VNone; VList [VDict (span 1 1 1 4 (VStr ""))]]
  ∧ (λ c, get c "edits") <$>
    (@script_apply_edits Plain.runtime (Sample.editor "foo") "Foo" "Assets"
       (VList [VDict Sample.foo_to_bar; VDict Sample.delete_F]) None "MonoBehaviour" VNone).1
  = [VNone; VList [VDict (span 1 1 1 4 (VStr "bar"))]; echo [Sample.delete_F]].
Proof. vm_compute. repeat split. Qed.

(* ===================================================================== *)
(** * Instances of the further properties *)
(* ===================================================================== *)

Lemma prepend_keeps_buffer_witness :
  ∃ block,
    @apply_edit Plain.runtime "abc" Sample.prepend_header = Ok (block +:+ "abc")
    ∧ PyStr.startswith block "// header" = true
    ∧ PyStr.endswith block PyStr.NL = true
    ∧ (PyStr.endswith "// header" PyStr.NL = true → block = "// header").
Proof.
  apply (@prepend_keeps_buffer Plain.runtime "abc" Sample.prepend_header "// header");
    reflexivity.
Defined.

Lemma append_ends_with_newline_witness :
  ∃ r,
    @apply_edit Plain.runtime "" Sample.append_x = Ok r
    ∧ PyStr.startswith r "" = true
    ∧ PyStr.endswith r PyStr.NL = true
    ∧ (PyStr.endswith "" PyStr.NL = true → PyStr.endswith ("" +:+ "x") PyStr.NL = true →
       r = "" +:+ "x")
    ∧ ("" = EmptyString → PyStr.startswith r PyStr.NL = true).
Proof.
  apply (@append_ends_with_newline Plain.runtime "" Sample.append_x "x"); reflexivity.
Defined.

Lemma local_applier_rejects_witness :
  @op_of Sample.delete_F = Ok "delete_method"
  ∧ ∃ msg, @apply_edits_locally Plain.runtime "abc" [Sample.delete_F; Sample.prepend_header]
           = Raise (RuntimeError msg).
Proof.
  split; [reflexivity|].
  apply (@local_applier_rejects Plain.runtime "abc" Sample.delete_F [Sample.prepend_header]
           "delete_method");
    reflexivity.
Defined.

Lemma anchor_match_is_a_match_witness :
  @re_finditer Plain.runtime "b" "abab" Sample.flags
  = Ok [Sample.letter_b 1; Sample.letter_b 3]
  ∧ @find_best_anchor_match Plain.runtime "b" "abab" Sample.flags true
    = Ok (Some (Sample.letter_b 3))
  ∧ @find_best_anchor_match Plain.runtime "b" "abab" Sample.flags false
    = Ok (Some (Sample.letter_b 1)).
Proof.
  split; [reflexivity|]. split.
  - apply (@anchor_match_is_a_match Plain.runtime "b" "abab" Sample.flags true
             [Sample.letter_b 1; Sample.letter_b 3]); reflexivity.
  - apply (@anchor_match_is_a_match Plain.runtime "b" "abab" Sample.flags false
             [Sample.letter_b 1; Sample.letter_b 3]); reflexivity.
Defined.

Lemma replacement_without_backref_witness :
  has_backref "cost: $x" = false
  ∧ ∀ m, @_expand_dollars m (VStr "cost: $x") = Ok "cost: $x".
Proof.
  split; [reflexivity|].
  apply (replacement_without_backref "cost: $x"). reflexivity.
Defined.

Lemma with_norm_idempotent_witness :
  ∃ v, _with_norm Sample.accepted [Sample.insert_A] (Some "text") = Ok v
       ∧ _with_norm v [] (Some "text") = Ok v.
Proof.
  eexists. split; [reflexivity|].
  apply (with_norm_idempotent Sample.accepted _ [Sample.insert_A] [] (Some "text")).
  reflexivity.
Defined.


Lemma structured_batch_is_one_command_witness :
  let out := @script_apply_edits Plain.runtime (Sample.editor "abc") "Foo" "Assets"
               (VList [VDict Sample.delete_F]) None "MonoBehaviour" VNone in
  ∃ cmd opts,
    out.1 = [cmd]
    ∧ get cmd "action" = VStr "edit"
    ∧ get cmd "name" = VStr "Foo" ∧ get cmd "path" = VStr "Assets"
    ∧ get cmd "edits" = echo [Sample.delete_F]
    ∧ get cmd "options" = VDict opts
    ∧ get opts "refresh" = VStr "immediate"
    ∧ (∀ k, k ≠ "refresh" → opts !! k = (∅ : dict) !! k)
    ∧ out.2 = _with_norm (@as_result Plain.runtime (Sample.editor "abc" [] cmd)) [Sample.delete_F]
                         (Some "structured").
Proof.
  apply (@structured_batch_is_one_command Plain.runtime (Sample.editor "abc") "Foo" "Assets"
           [VDict Sample.delete_F] None "MonoBehaviour" VNone "Foo" "Assets"
           [Sample.delete_F] ["delete_method"]);
    reflexivity.
Defined.

Lemma unknown_tags_reported_applied_witness :
  ∃ v,
    @script_apply_edits Plain.runtime (Sample.editor "abc") "Foo" "Assets"
      (VList [VDict Sample.frobnicate]) None "MonoBehaviour" VNone
    = ([Sample.read_Foo], Ok v)
    ∧ success_of v = Some (VBool true)
    ∧ field_of "message" v = Some (VStr "Applied text edits (no structured ops)")
    ∧ routing_of v = Some (VStr "mixed/text-first")
    ∧ data_of "normalizedEdits" v = Some (echo [Sample.frobnicate]).
Proof.
  apply (@unknown_tags_reported_applied Plain.runtime (Sample.editor "abc") "Foo" "Assets"
           [VDict Sample.frobnicate] None "MonoBehaviour" VNone "Foo" "Assets"
           [Sample.frobnicate] ["frobnicate"]
           (mk [("success", VBool true);
                ("data", VDict (mk [("contents", VStr "abc")]))]) "abc");
    try reflexivity.
  discriminate.
Defined.

Lemma wrapper_form_is_flat_form_witness :
  @_unwrap_and_alias Plain.runtime Sample.wrapped_delete_F
  = @_unwrap_and_alias Plain.runtime
      (mk [("op", VStr "delete_method"); ("methodName", VStr "F")]).
Proof.
  apply (@wrapper_form_is_flat_form Plain.runtime "delete_method"
           (mk [("methodName", VStr "F")]) (mk [("note", VStr "x")])).
  - cbn. tauto.
  - intros k' Hk' _ d H. cbn in Hk'.
    repeat (destruct Hk' as [<-|Hk']; [discriminate H|]). exact Hk'.
  - intros k' Hk' d H. cbn in Hk'.
    repeat (destruct Hk' as [<-|Hk']; [discriminate H|]). exact Hk'.
Defined.

Lemma coerce_bool_strings_witness :
  nospace " true" = false ∧ coerce_bool (VStr " true") true = false.
Proof.
  split; [reflexivity|].
  apply (proj2 (proj2 (proj2 (coerce_bool_strings " true" true)))). reflexivity.
Defined.
